(** * GraphRAG ingestion, query and verification scripts

    A shallow embedding of [ingest.py], [graphrag_app.py] and
    [verify_setup.py].  Python strings are sequences of Unicode code
    points; the graph database is a store of labelled nodes and typed
    edges on which the Cypher statements of the scripts act; every call
    that leaves the process (database driver, embedding model, chat
    model, standard output) is recorded, in order, in a trace. *)

From Stdlib Require Import List NArith ZArith String Ascii Bool Lia PeanoNat.
From Stdlib Require Import DecimalString PrimFloat.
Import ListNotations.

(** ** Python strings *)

Module PyStr.

(** A [str] is a sequence of code points. *)
Definition char := N.
Definition pystr := list char.

(** Literals of the scripts are ASCII: one code point per byte. *)
Definition py (s : string) : pystr :=
  map N_of_ascii (list_ascii_of_string s).

(** [str(n)] for a non-negative integer. *)
Definition str_of_nat (n : nat) : pystr :=
  py (NilEmpty.string_of_uint (Nat.to_uint n)).

Fixpoint eqb (a b : pystr) : bool :=
  match a, b with
  | [], [] => true
  | x :: a', y :: b' => N.eqb x y && eqb a' b'
  | _, _ => false
  end.

(** [" ".join(xs)] *)
Fixpoint join (sep : pystr) (xs : list pystr) : pystr :=
  match xs with
  | [] => []
  | [x] => x
  | x :: rest => x ++ sep ++ join sep rest
  end.

(** [needle] is a prefix of [s]. *)
Fixpoint startswith (s needle : pystr) : bool :=
  match needle, s with
  | [], _ => true
  | n :: needle', c :: s' => N.eqb c n && startswith s' needle'
  | _ :: _, [] => false
  end.

(** Substring test: Cypher's [CONTAINS] (and Python's [in]). *)
Fixpoint contains (s needle : pystr) : bool :=
  startswith s needle ||
  match s with
  | [] => false
  | _ :: s' => contains s' needle
  end.

End PyStr.
Import PyStr.

(** ** The pattern [STD\s?([0-9]+)] and [re.findall] *)

Module Re.

(** [\s] on a [str] pattern: the code points for which
    [str.isspace()] holds. *)
Definition is_space (c : char) : bool :=
  ((9 <=? c) && (c <=? 13)            (* \t \n \v \f \r *)
   || (28 <=? c) && (c <=? 32)        (* FS GS RS US and the space *)
   || (c =? 133) || (c =? 160)        (* NEL, no-break space *)
   || (c =? 5760)                     (* U+1680 *)
   || (8192 <=? c) && (c <=? 8202)    (* U+2000 .. U+200A *)
   || (c =? 8232) || (c =? 8233)      (* U+2028, U+2029 *)
   || (c =? 8239) || (c =? 8287)      (* U+202F, U+205F *)
   || (c =? 12288))%N.                (* U+3000 *)

(** [[0-9]] *)
Definition is_digit (c : char) : bool := ((48 <=? c) && (c <=? 57))%N.

Definition ch_S : char := 83%N.
Definition ch_T : char := 84%N.
Definition ch_D : char := 68%N.

(** The longest prefix of digits, and what follows it. *)
Fixpoint span_digits (s : pystr) : pystr * pystr :=
  match s with
  | c :: s' =>
      if is_digit c
      then let (ds, rest) := span_digits s' in (c :: ds, rest)
      else ([], s)
  | [] => ([], [])
  end.

(** [([0-9]+)] at the head of [s]: the group and the number of code
    points consumed.  The quantifier is greedy and nothing follows it in
    the pattern, so the longest run is the match. *)
Definition digits1 (s : pystr) : option (pystr * nat) :=
  let (ds, _) := span_digits s in
  match ds with
  | [] => None
  | _ => Some (ds, List.length ds)
  end.

(** The whole pattern anchored at the head of [s]: group 1 and the
    length of the match.  [\s?] is greedy: one whitespace is taken
    when there is one, and given back if the digits do not follow. *)
Definition match_here (s : pystr) : option (pystr * nat) :=
  match s with
  | c1 :: c2 :: c3 :: r =>
      if (c1 =? ch_S)%N && (c2 =? ch_T)%N && (c3 =? ch_D)%N then
        let without_space :=
          match digits1 r with
          | Some (ds, n) => Some (ds, 3 + n)
          | None => None
          end in
        match r with
        | c :: r' =>
            if is_space c then
              match digits1 r' with
              | Some (ds, n) => Some (ds, 4 + n)
              | None => without_space
              end
            else without_space
        | [] => without_space
        end
      else None
  | _ => None
  end.

(** The scan of [re.findall]: try the pattern at each position from
    left to right; after a match the scan resumes at the end of the
    match ([skip] counts the code points of the current match still to
    be passed). *)
Fixpoint scan (skip : nat) (s : pystr) : list pystr :=
  match s with
  | [] => []
  | _ :: s' =>
      match skip with
      | S k => scan k s'
      | O =>
          match match_here s with
          | Some (ds, n) => ds :: scan (pred n) s'
          | None => scan 0 s'
          end
      end
  end.

(** [re.findall(r"STD\s?([0-9]+)", content)] *)
Definition findall (content : pystr) : list pystr := scan 0 content.

End Re.

(** ** The relational sources *)

(** Values of the identifying columns: integers or text. *)
Inductive Key :=
| KInt (z : Z)
| KText (s : pystr).

Definition key_eqb (a b : Key) : bool :=
  match a, b with
  | KInt x, KInt y => Z.eqb x y
  | KText x, KText y => PyStr.eqb x y
  | _, _ => false
  end.

(** Values of the columns the scripts only copy: SQLite's storage
    classes.  [VNull] is Python's [None]. *)
Inductive Value :=
| VNull
| VInt (z : Z)
| VReal (x : float)
| VText (s : pystr)
| VBlob (b : list N).

(** Rows of the four tables, with the columns the statements read.  The
    columns are typed as the script uses them: identifiers and the two
    text columns it computes on are present; [title], which the script
    guards against [None], and the copied columns may be null. *)
Module cad_files.
Record row := {
  file_id : Key;
  file_name : Value;
  file_type : Value;
  part_number : Value;
  revision : Value;
  file_size_bytes : Value;
  extraction_status : Value }.
End cad_files.

Module cad_engineering_notes.
Record row := {
  id : Key;
  file_id : Key;
  note_type : Value;
  note_code : Value;
  note_value : pystr }.
End cad_engineering_notes.

Module cad_material_properties.
Record row := {
  file_id : Key;
  material_name : Key;
  material_standard : Value;
  density : Value }.
End cad_material_properties.

Module rds_documents.
Record row := {
  doc_id : Key;
  standard_code : pystr;
  title : option pystr;
  total_pages : Value;
  extraction_date : Value }.
End rds_documents.

(** ** The graph store *)

Inductive Label :=
| L_CADFile | L_EngineeringNote | L_Material | L_StandardDocument | L_Section.

Definition label_eqb (a b : Label) : bool :=
  match a, b with
  | L_CADFile, L_CADFile | L_EngineeringNote, L_EngineeringNote
  | L_Material, L_Material | L_StandardDocument, L_StandardDocument
  | L_Section, L_Section => true
  | _, _ => false
  end.

(** A node carries its label and the properties the statements set on
    it, under the property names of the statements. *)
Inductive Node :=
| CADFile (file_id : Key)
    (file_name file_type part_number revision file_size extraction_status : Value)
| EngineeringNote (note_id : Key) (note_type note_number : Value) (content : pystr)
| Material (name : Key) (standard density : Value)
| StandardDocument (doc_id : Key) (standard_code : pystr) (title : option pystr)
    (total_pages extraction_timestamp : Value) (embedding : list float).

Inductive RelType := HAS_NOTE | HAS_MATERIAL | REFERENCES.

Definition reltype_eqb (a b : RelType) : bool :=
  match a, b with
  | HAS_NOTE, HAS_NOTE | HAS_MATERIAL, HAS_MATERIAL | REFERENCES, REFERENCES => true
  | _, _ => false
  end.

(** A node is identified by its position in the store: the only
    deletion the scripts perform empties the store. *)
Definition NodeId := nat.
Definition Edge : Type := NodeId * RelType * NodeId.

Definition edge_eqb (a b : Edge) : bool :=
  let '(s1, t1, d1) := a in
  let '(s2, t2, d2) := b in
  Nat.eqb s1 s2 && reltype_eqb t1 t2 && Nat.eqb d1 d2.

(** [REQUIRE x.prop IS UNIQUE] on a label. *)
Definition Constraint : Type := Label * string.

Definition constraint_eqb (a b : Constraint) : bool :=
  label_eqb (fst a) (fst b) && String.eqb (snd a) (snd b).

Record VectorIndex := {
  ix_name : string;
  ix_label : Label;
  ix_property : string;
  ix_dimensions : nat;
  ix_similarity : string }.

Record Graph := {
  nodes : list Node;
  edges : list Edge;
  constraints : list Constraint;
  indexes : list VectorIndex }.

Definition empty_graph : Graph :=
  {| nodes := []; edges := []; constraints := []; indexes := [] |}.

Definition with_nodes (ns : list Node) (g : Graph) : Graph :=
  {| nodes := ns; edges := edges g;
     constraints := constraints g; indexes := indexes g |}.

Definition with_edges (es : list Edge) (g : Graph) : Graph :=
  {| nodes := nodes g; edges := es;
     constraints := constraints g; indexes := indexes g |}.

Definition node_count (g : Graph) : nat := List.length (nodes g).
Definition edge_count (g : Graph) : nat := List.length (edges g).

(** What a script raises is kept as the text of the exception. *)
Definition Exn := pystr.

Inductive Outcome (A : Type) :=
| Ok (a : A)
| Raise (e : Exn).
Arguments Ok {A} a.
Arguments Raise {A} e.

(** ** The Cypher statements of the scripts *)

Module Cypher.

Inductive Stmt :=
| CreateConstraint (c : Constraint)
    (* CREATE CONSTRAINT IF NOT EXISTS FOR (x:Label) REQUIRE x.prop IS UNIQUE *)
| DropIndex (name : string)
    (* DROP INDEX name IF EXISTS *)
| CreateVectorIndex (ix : VectorIndex)
    (* CREATE VECTOR INDEX name IF NOT EXISTS FOR (s:Label) ON (s.prop) OPTIONS ... *)
| DetachDeleteAll
    (* MATCH (n) DETACH DELETE n *)
| MergeCADFile (r : cad_files.row)
    (* MERGE (c:CADFile {file_id: $file_id}) SET c.file_name = ..., ... *)
| CreateNote (r : cad_engineering_notes.row)
    (* MATCH (c:CADFile {file_id: $file_id})
       CREATE (n:EngineeringNote {...}) CREATE (c)-[:HAS_NOTE]->(n) *)
| MergeMaterial (r : cad_material_properties.row)
    (* MATCH (c:CADFile {file_id: $file_id}) MERGE (m:Material {name: $material_name})
       SET m.standard = ..., m.density = ... MERGE (c)-[:HAS_MATERIAL]->(m) *)
| MergeStandard (r : rds_documents.row) (embedding : list float)
    (* MERGE (s:StandardDocument {doc_id: $doc_id}) SET s.standard_code = ..., ... *)
| FetchNotes
    (* MATCH (n:EngineeringNote) RETURN n.note_id as id, n.content as content *)
| LinkReferences (note_id : Key) (code_num : pystr)
    (* MATCH (n:EngineeringNote {note_id: $note_id}) MATCH (s:StandardDocument)
       WHERE s.standard_code CONTAINS $code_num
       MERGE (n)-[:REFERENCES]->(s) RETURN count(s) as c *)
| CountNodes
    (* MATCH (n) RETURN count(n) as c *)
| CountReferences.
    (* MATCH ()-[r:REFERENCES]->() RETURN count(r) as c *)

(** The records a statement returns. *)
Inductive Answer :=
| NoRecords
| NoteRecords (rs : list (Key * pystr))
| CountRecord (c : nat).

(** *** Pattern matching on nodes *)

Definition is_cad_file (k : Key) (n : Node) : bool :=
  match n with
  | CADFile k' _ _ _ _ _ _ => key_eqb k' k
  | _ => false
  end.

Definition is_note_with_id (k : Key) (n : Node) : bool :=
  match n with
  | EngineeringNote k' _ _ _ => key_eqb k' k
  | _ => false
  end.

Definition is_material (k : Key) (n : Node) : bool :=
  match n with
  | Material k' _ _ => key_eqb k' k
  | _ => false
  end.

Definition is_standard (k : Key) (n : Node) : bool :=
  match n with
  | StandardDocument k' _ _ _ _ _ => key_eqb k' k
  | _ => false
  end.

(** [(s:StandardDocument) WHERE s.standard_code CONTAINS $code_num] *)
Definition code_contains (code_num : pystr) (n : Node) : bool :=
  match n with
  | StandardDocument _ code _ _ _ _ => contains code code_num
  | _ => false
  end.

(** The nodes a [MATCH] binds: positions of the nodes satisfying [p],
    in store order. *)
Fixpoint positions_from (i : NodeId) (p : Node -> bool) (ns : list Node)
  : list NodeId :=
  match ns with
  | [] => []
  | n :: ns' =>
      if p n then i :: positions_from (S i) p ns'
      else positions_from (S i) p ns'
  end.

Definition match_nodes (p : Node -> bool) (g : Graph) : list NodeId :=
  positions_from 0 p (nodes g).

(** *** Updates *)

Definition add_node (n : Node) (g : Graph) : Graph :=
  with_nodes (nodes g ++ [n]) g.

Definition add_edge (e : Edge) (g : Graph) : Graph :=
  with_edges (edges g ++ [e]) g.

(** [MERGE (a)-[:T]->(b)] on bound nodes: created when absent. *)
Definition merge_edge (e : Edge) (g : Graph) : Graph :=
  if existsb (edge_eqb e) (edges g) then g else add_edge e g.

(** [SET] of all the properties of the nodes matching [p]. *)
Definition set_where (p : Node -> bool) (new : Node) (g : Graph) : Graph :=
  with_nodes (map (fun n => if p n then new else n) (nodes g)) g.

(** [MERGE (x:Label {key: k}) SET ...]: the matching nodes are
    updated; when there is none, one is created. *)
Definition merge_node (p : Node -> bool) (new : Node) (g : Graph) : Graph :=
  if existsb p (nodes g) then set_where p new g else add_node new g.

Definition merge_cad_file (r : cad_files.row) (g : Graph) : Graph :=
  merge_node (is_cad_file (cad_files.file_id r))
    (CADFile (cad_files.file_id r) (cad_files.file_name r) (cad_files.file_type r)
       (cad_files.part_number r) (cad_files.revision r)
       (cad_files.file_size_bytes r) (cad_files.extraction_status r)) g.

Definition merge_standard (r : rds_documents.row) (embedding : list float)
    (g : Graph) : Graph :=
  merge_node (is_standard (rds_documents.doc_id r))
    (StandardDocument (rds_documents.doc_id r) (rds_documents.standard_code r)
       (rds_documents.title r) (rds_documents.total_pages r)
       (rds_documents.extraction_date r) embedding) g.

(** One note and one [HAS_NOTE] edge per CAD file the [MATCH] binds. *)
Definition create_note (r : cad_engineering_notes.row) (g : Graph) : Graph :=
  fold_left
    (fun g c =>
       let n := List.length (nodes g) in
       add_edge (c, HAS_NOTE, n)
         (add_node
            (EngineeringNote (cad_engineering_notes.id r)
               (cad_engineering_notes.note_type r)
               (cad_engineering_notes.note_code r)
               (cad_engineering_notes.note_value r)) g))
    (match_nodes (is_cad_file (cad_engineering_notes.file_id r)) g) g.

(** All pairs, first component outermost. *)
Definition pairs (xs ys : list NodeId) : list (NodeId * NodeId) :=
  flat_map (fun x => map (fun y => (x, y)) ys) xs.

Definition merge_edges (t : RelType) (rows : list (NodeId * NodeId))
    (g : Graph) : Graph :=
  fold_left (fun g row => merge_edge (fst row, t, snd row) g) rows g.

(** Clause by clause: the [MATCH] binds the CAD files; with none bound
    the statement does nothing.  Otherwise the [MERGE] of the material
    finds the nodes of that name or creates one, the [SET] writes the
    two properties, and the last [MERGE] links every bound pair. *)
Definition merge_material (r : cad_material_properties.row) (g : Graph) : Graph :=
  let name := cad_material_properties.material_name r in
  match match_nodes (is_cad_file (cad_material_properties.file_id r)) g with
  | [] => g
  | cs =>
      let g1 := merge_node (is_material name)
                  (Material name (cad_material_properties.material_standard r)
                     (cad_material_properties.density r)) g in
      merge_edges HAS_MATERIAL (pairs cs (match_nodes (is_material name) g1)) g1
  end.

Definition fetch_notes (g : Graph) : list (Key * pystr) :=
  flat_map
    (fun n =>
       match n with
       | EngineeringNote k _ _ content => [(k, content)]
       | _ => []
       end)
    (nodes g).

(** The rows of the two [MATCH] clauses, the edges merged for them, and
    [count(s)]. *)
Definition link_rows (note_id : Key) (code_num : pystr) (g : Graph)
  : list (NodeId * NodeId) :=
  pairs (match_nodes (is_note_with_id note_id) g)
        (match_nodes (code_contains code_num) g).

Definition link_references (note_id : Key) (code_num : pystr) (g : Graph)
  : Graph * nat :=
  let rows := link_rows note_id code_num g in
  (merge_edges REFERENCES rows g, List.length rows).

Definition detach_delete_all (g : Graph) : Graph :=
  with_edges [] (with_nodes [] g).

(** *** Schema *)

(** The value a uniqueness constraint ranges over, on the nodes that
    have the label and the property. *)
Definition constrained_key (c : Constraint) (n : Node) : option Key :=
  match fst c, n with
  | L_CADFile, CADFile k _ _ _ _ _ _ =>
      if String.eqb (snd c) "file_id" then Some k else None
  | L_EngineeringNote, EngineeringNote k _ _ _ =>
      if String.eqb (snd c) "note_id" then Some k else None
  | L_Material, Material k _ _ =>
      if String.eqb (snd c) "name" then Some k else None
  | L_StandardDocument, StandardDocument k _ _ _ _ _ =>
      if String.eqb (snd c) "doc_id" then Some k else None
  | _, _ => None
  end.

Fixpoint constrained_keys (c : Constraint) (ns : list Node) : list Key :=
  match ns with
  | [] => []
  | n :: ns' =>
      match constrained_key c n with
      | Some k => k :: constrained_keys c ns'
      | None => constrained_keys c ns'
      end
  end.

Fixpoint has_duplicate (ks : list Key) : bool :=
  match ks with
  | [] => false
  | k :: ks' => existsb (key_eqb k) ks' || has_duplicate ks'
  end.

Definition has_constraint (c : Constraint) (g : Graph) : bool :=
  existsb (constraint_eqb c) (constraints g).

(** [IF NOT EXISTS]: nothing happens when the constraint is there.
    Otherwise the server validates the stored nodes and refuses the
    constraint when two of them share the value; the error is kept
    under the name of its status code. *)
Definition create_constraint (c : Constraint) (g : Graph) : Outcome Graph :=
  if has_constraint c g then Ok g
  else if has_duplicate (constrained_keys c (nodes g))
       then Raise (py "ConstraintCreationFailed")
       else Ok {| nodes := nodes g; edges := edges g;
                  constraints := constraints g ++ [c]; indexes := indexes g |}.

Definition drop_index (name : string) (g : Graph) : Graph :=
  {| nodes := nodes g; edges := edges g; constraints := constraints g;
     indexes := filter (fun ix => negb (String.eqb (ix_name ix) name)) (indexes g) |}.

Definition create_vector_index (ix : VectorIndex) (g : Graph) : Graph :=
  if existsb (fun ix' => String.eqb (ix_name ix') (ix_name ix)) (indexes g)
  then g
  else {| nodes := nodes g; edges := edges g; constraints := constraints g;
          indexes := indexes g ++ [ix] |}.

Definition is_references (e : Edge) : bool :=
  match e with
  | (_, REFERENCES, _) => true
  | _ => false
  end.

(** *** Execution of one statement *)

Definition exec (q : Stmt) (g : Graph) : Outcome (Graph * Answer) :=
  match q with
  | CreateConstraint c =>
      match create_constraint c g with
      | Ok g' => Ok (g', NoRecords)
      | Raise e => Raise e
      end
  | DropIndex name => Ok (drop_index name g, NoRecords)
  | CreateVectorIndex ix => Ok (create_vector_index ix g, NoRecords)
  | DetachDeleteAll => Ok (detach_delete_all g, NoRecords)
  | MergeCADFile r => Ok (merge_cad_file r g, NoRecords)
  | CreateNote r => Ok (create_note r g, NoRecords)
  | MergeMaterial r => Ok (merge_material r g, NoRecords)
  | MergeStandard r v => Ok (merge_standard r v g, NoRecords)
  | FetchNotes => Ok (g, NoteRecords (fetch_notes g))
  | LinkReferences k code =>
      let (g', c) := link_references k code g in Ok (g', CountRecord c)
  | CountNodes => Ok (g, CountRecord (node_count g))
  | CountReferences =>
      Ok (g, CountRecord (List.length (filter is_references (edges g))))
  end.

End Cypher.
(** ** Processes: state, trace and exceptions *)

(** What a script does that is visible outside of it. *)
Inductive Event :=
| Print (s : pystr)                        (* print(s) *)
| PrintTraceback (e : Exn)                 (* traceback.print_exc() *)
| Exit (code : Z)                          (* exit(code) *)
| SqlSelect (table : string)               (* conn.execute("SELECT * FROM table").fetchall() *)
| DriverOpen (uri user password : pystr)   (* GraphDatabase.driver(uri, auth=(user, password)) *)
| VerifyConnectivity                       (* driver.verify_connectivity() *)
| Run (q : Cypher.Stmt)                    (* session.run(q, parameters) *)
| DriverClose                              (* driver.close() *)
| EmbedderInit (model : string)            (* OllamaEmbeddings(model=...) *)
| EmbedQuery (text : pystr)                (* embeddings.embed_query(text) *)
| RetrieverInit (index_name : string)      (* VectorRetriever(driver, index_name=..., ...) *)
| ChatModelInit (model : string)           (* ChatOllama(model=..., temperature=0) *)
| RagSearch (query_text : pystr).          (* rag.search(query_text=...) *)

(** The events that reach the graph database, the embedding service or
    the chat model (through their clients). *)
Definition contacts_service (e : Event) : bool :=
  match e with
  | Print _ | PrintTraceback _ | Exit _ | SqlSelect _ => false
  | _ => true
  end.

Record World := {
  db : Graph;
  trace : list Event }.

Definition log (e : Event) (w : World) : World :=
  {| db := db w; trace := trace w ++ [e] |}.

(** A computation runs on a world and either returns or raises; the
    effects performed before an exception stay. *)
Definition M (A : Type) : Type := World -> Outcome A * World.

Definition ret {A} (a : A) : M A := fun w => (Ok a, w).

Definition raise {A} (e : Exn) : M A := fun w => (Raise e, w).

Definition bind {A B} (m : M A) (k : A -> M B) : M B :=
  fun w =>
    match m w with
    | (Ok a, w') => k a w'
    | (Raise e, w') => (Raise e, w')
    end.

Declare Scope prog_scope.
Delimit Scope prog_scope with prog.
Notation "x <- m ;; k" := (bind m (fun x => k))
  (at level 61, m at next level, right associativity) : prog_scope.
Notation "m ;; k" := (bind m (fun _ => k))
  (at level 61, right associativity) : prog_scope.
Open Scope prog_scope.

(** [try: m  except Exception as e: handler e] *)
Definition try_except {A} (m : M A) (handler : Exn -> M A) : M A :=
  fun w =>
    match m w with
    | (Ok a, w') => (Ok a, w')
    | (Raise e, w') => handler e w'
    end.

(** [try: m  finally: cleanup] *)
Definition try_finally {A} (m : M A) (cleanup : M unit) : M A :=
  fun w =>
    let (r, w') := m w in
    match cleanup w' with
    | (Ok _, w'') => (r, w'')
    | (Raise e, w'') => (Raise e, w'')
    end.

(** [for x in xs: body x] *)
Fixpoint for_each {A} (xs : list A) (body : A -> M unit) : M unit :=
  match xs with
  | [] => ret tt
  | x :: xs' => body x ;; for_each xs' body
  end.

(** A [for] loop that updates a local variable. *)
Fixpoint for_fold {A S} (xs : list A) (s : S) (body : S -> A -> M S) : M S :=
  match xs with
  | [] => ret s
  | x :: xs' => s' <- body s x ;; for_fold xs' s' body
  end.

Definition emit (e : Event) : M unit := fun w => (Ok tt, log e w).

Definition print (s : pystr) : M unit := emit (Print s).

(** [session.run(q, ...)]: the statement is sent, and executed by the
    server on the stored graph. *)
Definition run (q : Cypher.Stmt) : M Cypher.Answer :=
  fun w =>
    let w' := log (Run q) w in
    match Cypher.exec q (db w') with
    | Ok (g, a) => (Ok a, {| db := g; trace := trace w' |})
    | Raise e => (Raise e, w')
    end.

(** ** The environment of the scripts *)

Record Env := {
  getenv : string -> option pystr;       (* os.getenv, after load_dotenv() *)
  argv : list pystr;                     (* sys.argv *)
  select_cad_files : Outcome (list cad_files.row);
  select_cad_engineering_notes : Outcome (list cad_engineering_notes.row);
  select_cad_material_properties : Outcome (list cad_material_properties.row);
  select_rds_documents : Outcome (list rds_documents.row);
  embed_query : pystr -> Outcome (list float);   (* the embedding model *)
  rag_search : pystr -> Outcome pystr;   (* retrieve, then generate; the answer text *)
  verify_connectivity : Outcome unit }.

(** Truth value of an environment variable: [None] and the empty
    string are false. *)
Definition truthy (v : option pystr) : bool :=
  match v with
  | Some (_ :: _) => true
  | _ => false
  end.

(** [all([NEO4J_URI, NEO4J_USERNAME, NEO4J_PASSWORD])] *)
Definition all_set (env : Env) : bool :=
  truthy (getenv env "NEO4J_URI")
  && truthy (getenv env "NEO4J_USERNAME")
  && truthy (getenv env "NEO4J_PASSWORD").

Definition env_value (env : Env) (name : string) : pystr :=
  match getenv env name with
  | Some v => v
  | None => []
  end.

Definition driver_open (env : Env) : M unit :=
  emit (DriverOpen (env_value env "NEO4J_URI") (env_value env "NEO4J_USERNAME")
          (env_value env "NEO4J_PASSWORD")).

Definition embedding_model : string := "nomic-embed-text-v2-moe:latest".

(** ** ingest.py *)

Module Ingest.
Section Script.

Variable env : Env.

Definition standard_embeddings : VectorIndex :=
  {| ix_name := "standard_embeddings";
     ix_label := L_StandardDocument;
     ix_property := "embedding";
     ix_dimensions := 768;
     ix_similarity := "cosine" |}.

Definition setup_constraints : M unit :=
  print (py "Setting up constraints locally...") ;;
  run (Cypher.CreateConstraint (L_CADFile, "file_id"%string)) ;;
  run (Cypher.CreateConstraint (L_StandardDocument, "doc_id"%string)) ;;
  run (Cypher.CreateConstraint (L_Section, "section_id"%string)) ;;
  try_except
    (run (Cypher.DropIndex "standard_embeddings") ;; ret tt)
    (fun e => print (py "Index drop warning: " ++ e)) ;;
  run (Cypher.CreateVectorIndex standard_embeddings) ;;
  ret tt.

Definition clear_database : M unit :=
  print (py "Clearing existing database...") ;;
  run Cypher.DetachDeleteAll ;;
  ret tt.

(** [conn.execute("SELECT * FROM table").fetchall()] *)
Definition select {A} (table : string) (rows : Outcome (list A)) : M (list A) :=
  emit (SqlSelect table) ;;
  match rows with
  | Ok rs => ret rs
  | Raise e => raise e
  end.

Definition ingest_cad_data : M unit :=
  print (py "Ingesting CAD data...") ;;
  files <- select "cad_files" (select_cad_files env) ;;
  for_each files (fun file => run (Cypher.MergeCADFile file) ;; ret tt) ;;
  notes <- select "cad_engineering_notes" (select_cad_engineering_notes env) ;;
  for_each notes (fun note => run (Cypher.CreateNote note) ;; ret tt) ;;
  materials <- select "cad_material_properties" (select_cad_material_properties env) ;;
  for_each materials (fun mat => run (Cypher.MergeMaterial mat) ;; ret tt) ;;
  print (py "Ingested " ++ str_of_nat (List.length files) ++ py " CAD files.").

(** [f"{doc['standard_code']} {title}"] with
    [title = doc['title'] if doc['title'] else ""] *)
Definition text_to_embed (doc : rds_documents.row) : pystr :=
  let title :=
    match rds_documents.title doc with
    | Some (c :: t) => c :: t
    | _ => []
    end in
  rds_documents.standard_code doc ++ py " " ++ title.

Definition embed (text : pystr) : M (list float) :=
  emit (EmbedQuery text) ;;
  match embed_query env text with
  | Ok v => ret v
  | Raise e => raise e
  end.

Definition ingest_rds_data : M unit :=
  print (py "Ingesting RDS data...") ;;
  docs <- select "rds_documents" (select_rds_documents env) ;;
  for_each docs
    (fun doc =>
       embedding <- embed (text_to_embed doc) ;;
       run (Cypher.MergeStandard doc embedding) ;;
       ret tt) ;;
  print (py "Ingested " ++ str_of_nat (List.length docs) ++ py " RDS documents.").

(** [list(result)] *)
Definition records (a : Cypher.Answer) : list (Key * pystr) :=
  match a with
  | Cypher.NoteRecords rs => rs
  | _ => []
  end.

(** [res and res["c"] > 0] for [res = result.single()] *)
Definition positive_count (a : Cypher.Answer) : bool :=
  match a with
  | Cypher.CountRecord c => Nat.ltb 0 c
  | _ => false
  end.

Definition create_relationships : M unit :=
  print (py "Creating relationships between Notes and Standards...") ;;
  result <- run Cypher.FetchNotes ;;
  count <- for_fold (records result) 0
    (fun count note =>
       for_fold (Re.findall (snd note)) count
         (fun count code_num =>
            res <- run (Cypher.LinkReferences (fst note) code_num) ;;
            ret (if positive_count res then count + 1 else count))) ;;
  print (py "Created " ++ str_of_nat count ++ py " links between Notes and Standards.").

(** The body of the [try] of [main]. *)
Definition ingestion : M unit :=
  setup_constraints ;;
  clear_database ;;
  ingest_cad_data ;;
  ingest_rds_data ;;
  create_relationships ;;
  print (py "Ingestion complete!").

Definition main : M unit :=
  try_finally
    (try_except ingestion (fun e => print (py "An error occurred: " ++ e)))
    (emit DriverClose).

(** The script from its first line, run as a program. *)
Definition script (w : World) : World :=
  if all_set env then
    snd ((driver_open env ;; emit (EmbedderInit embedding_model) ;; main) w)
  else
    log (Exit 1)
      (log (Print (py "Error: Missing environment variables. Please check your .env file.")) w).

End Script.
End Ingest.

(** ** graphrag_app.py *)

Module GraphragApp.
Section Script.

Variable env : Env.

Definition newline : char := 10%N.

Definition query_graph (question : pystr) : M unit :=
  print (newline :: py "Question: " ++ question) ;;
  try_except
    (emit (RagSearch question) ;;
     match rag_search env question with
     | Ok answer => print (py "Answer: " ++ answer)
     | Raise e => raise e
     end)
    (fun e =>
       emit (PrintTraceback e) ;;
       print (py "Error processing query: " ++ e)).

(** The block under [if __name__ == "__main__"]. *)
Definition main : M unit :=
  if Nat.ltb 1 (List.length (argv env)) then
    query_graph (join (py " ") (tl (argv env)))
  else
    print (py "Usage: python graphrag_app.py 'Your question here'").

Definition script (w : World) : World :=
  if all_set env then
    snd ((driver_open env ;;
          emit (EmbedderInit embedding_model) ;;
          emit (RetrieverInit "standard_embeddings") ;;
          emit (ChatModelInit "llama3.2:latest") ;;
          main) w)
  else
    log (Exit 1) (log (Print (py "Error: Missing environment variables.")) w).

End Script.
End GraphragApp.

(** ** verify_setup.py *)

Module VerifySetup.
Section Script.

Variable env : Env.

Definition count_of (a : Cypher.Answer) : nat :=
  match a with
  | Cypher.CountRecord c => c
  | _ => 0
  end.

Definition verify : M unit :=
  print (py "Verifying Setup...") ;;
  if all_set env then
    try_except
      (driver_open env ;;
       emit VerifyConnectivity ;;
       match verify_connectivity env with
       | Ok _ => ret tt
       | Raise e => raise e
       end ;;
       print (py "SUCCESS: Connected to Neo4j.") ;;
       count <- run Cypher.CountNodes ;;
       print (py "SUCCESS: Found " ++ str_of_nat (count_of count)
              ++ py " nodes in the database.") ;;
       links <- run Cypher.CountReferences ;;
       print (py "SUCCESS: Found " ++ str_of_nat (count_of links)
              ++ py " REFERENCES relationships.") ;;
       emit DriverClose)
      (fun e => print (py "FAILED: Connection error: " ++ e))
  else
    print (py "FAILED: Missing environment variables.").

Definition script (w : World) : World := snd (verify w).

End Script.
End VerifySetup.

(** ** The reference-linking pass in the words of the specification *)

Module Spec.

Definition STD : pystr := [Re.ch_S; Re.ch_T; Re.ch_D].

(** No whitespace, or one whitespace character. *)
Definition optional_whitespace (ws : pystr) : Prop :=
  ws = [] \/ exists c, ws = [c] /\ Re.is_space c = true.

(** One or more digits. *)
Definition digit_sequence (ds : pystr) : Prop :=
  ds <> [] /\ Forall (fun c => Re.is_digit c = true) ds.

(** The digit sequence ends where [post] starts. *)
Definition ends_digits (post : pystr) : Prop :=
  match post with
  | [] => True
  | c :: _ => Re.is_digit c = false
  end.

(** [content] has a substring "STD", optional whitespace, digits, and
    [code_num] is the digit sequence of it. *)
Definition cites (content code_num : pystr) : Prop :=
  exists pre ws post,
    content = pre ++ STD ++ ws ++ code_num ++ post
    /\ optional_whitespace ws
    /\ digit_sequence code_num
    /\ ends_digits post.

(** [needle] occurs in [s] as a substring. *)
Definition substring (needle s : pystr) : Prop :=
  exists a b, s = a ++ needle ++ b.

(** The standard_code, a single space, and the title, a missing title
    being the empty string. *)
Definition embedding_text (doc : rds_documents.row) : pystr :=
  rds_documents.standard_code doc ++ [32%N]
  ++ match rds_documents.title doc with
     | Some title => title
     | None => []
     end.

(** The node of a document row that carries [vector]. *)
Definition standard_node (doc : rds_documents.row) (vector : list float) : Node :=
  StandardDocument (rds_documents.doc_id doc) (rds_documents.standard_code doc)
    (rds_documents.title doc) (rds_documents.total_pages doc)
    (rds_documents.extraction_date doc) vector.

End Spec.

(** ** What a completed phase of the ingestion leaves

    The graph and the events of each phase of [ingest.py], as functions
    of the rows read and of the vectors the embedding model returned. *)

Module Ingested.

Definition setup (g : Graph) : Outcome Graph :=
  match Cypher.create_constraint (L_CADFile, "file_id"%string) g with
  | Raise e => Raise e
  | Ok g1 =>
      match Cypher.create_constraint (L_StandardDocument, "doc_id"%string) g1 with
      | Raise e => Raise e
      | Ok g2 =>
          match Cypher.create_constraint (L_Section, "section_id"%string) g2 with
          | Raise e => Raise e
          | Ok g3 =>
              Ok (Cypher.create_vector_index Ingest.standard_embeddings
                    (Cypher.drop_index "standard_embeddings" g3))
          end
      end
  end.

Definition setup_events : list Event :=
  [ Print (py "Setting up constraints locally...");
    Run (Cypher.CreateConstraint (L_CADFile, "file_id"%string));
    Run (Cypher.CreateConstraint (L_StandardDocument, "doc_id"%string));
    Run (Cypher.CreateConstraint (L_Section, "section_id"%string));
    Run (Cypher.DropIndex "standard_embeddings");
    Run (Cypher.CreateVectorIndex Ingest.standard_embeddings) ].

Definition clear_events : list Event :=
  [ Print (py "Clearing existing database..."); Run Cypher.DetachDeleteAll ].

Definition cad (files : list cad_files.row)
    (notes : list cad_engineering_notes.row)
    (materials : list cad_material_properties.row) (g : Graph) : Graph :=
  fold_left (fun g r => Cypher.merge_material r g) materials
    (fold_left (fun g r => Cypher.create_note r g) notes
       (fold_left (fun g r => Cypher.merge_cad_file r g) files g)).

Definition cad_events (files : list cad_files.row)
    (notes : list cad_engineering_notes.row)
    (materials : list cad_material_properties.row) : list Event :=
  [Print (py "Ingesting CAD data..."); SqlSelect "cad_files"]
  ++ map (fun r => Run (Cypher.MergeCADFile r)) files
  ++ [SqlSelect "cad_engineering_notes"]
  ++ map (fun r => Run (Cypher.CreateNote r)) notes
  ++ [SqlSelect "cad_material_properties"]
  ++ map (fun r => Run (Cypher.MergeMaterial r)) materials
  ++ [Print (py "Ingested " ++ str_of_nat (List.length files) ++ py " CAD files.")].

(** The documents, each with the vector returned for it. *)
Definition rds (docs : list (rds_documents.row * list float)) (g : Graph) : Graph :=
  fold_left (fun g dv => Cypher.merge_standard (fst dv) (snd dv) g) docs g.

Definition rds_loop_events (docs : list (rds_documents.row * list float))
  : list Event :=
  flat_map
    (fun dv => [EmbedQuery (Ingest.text_to_embed (fst dv));
                Run (Cypher.MergeStandard (fst dv) (snd dv))])
    docs.

Definition rds_events (docs : list (rds_documents.row * list float))
  : list Event :=
  [Print (py "Ingesting RDS data..."); SqlSelect "rds_documents"]
  ++ rds_loop_events docs
  ++ [Print (py "Ingested " ++ str_of_nat (List.length docs) ++ py " RDS documents.")].

(** The pairs (note id, extracted digits) of the linking pass, in the
    order of its two nested loops. *)
Definition citations (g : Graph) : list (Key * pystr) :=
  flat_map
    (fun note => map (fun code_num => (fst note, code_num)) (Re.findall (snd note)))
    (Cypher.fetch_notes g).

Definition link_step (st : Graph * nat) (c : Key * pystr) : Graph * nat :=
  let (g', n) := Cypher.link_references (fst c) (snd c) (fst st) in
  (g', if Nat.ltb 0 n then snd st + 1 else snd st).

(** The graph after the pass, and the value of its counter. *)
Definition links (g : Graph) : Graph * nat :=
  fold_left link_step (citations g) (g, 0).

Definition link_events (g : Graph) : list Event :=
  [Print (py "Creating relationships between Notes and Standards...");
   Run Cypher.FetchNotes]
  ++ map (fun c => Run (Cypher.LinkReferences (fst c) (snd c))) (citations g)
  ++ [Print (py "Created " ++ str_of_nat (snd (links g))
             ++ py " links between Notes and Standards.")].

End Ingested.

(** The vectors the embedding model returns for the documents. *)
Definition embedded (env : Env) (docs : list rds_documents.row)
    (vs : list (list float)) : Prop :=
  Forall2 (fun d v => embed_query env (Ingest.text_to_embed d) = Ok v) docs vs.

(** The graph and the events of a whole ingestion in which nothing
    raised: [g1] is the graph after the set-up, [docs] the documents
    with their vectors. *)
Module Completed.

Definition loaded (g1 : Graph) (files : list cad_files.row)
    (notes : list cad_engineering_notes.row)
    (materials : list cad_material_properties.row)
    (docs : list (rds_documents.row * list float)) : Graph :=
  Ingested.rds docs
    (Ingested.cad files notes materials (Cypher.detach_delete_all g1)).

Definition graph (g1 : Graph) (files : list cad_files.row)
    (notes : list cad_engineering_notes.row)
    (materials : list cad_material_properties.row)
    (docs : list (rds_documents.row * list float)) : Graph :=
  fst (Ingested.links (loaded g1 files notes materials docs)).

Definition events (g1 : Graph) (files : list cad_files.row)
    (notes : list cad_engineering_notes.row)
    (materials : list cad_material_properties.row)
    (docs : list (rds_documents.row * list float)) : list Event :=
  Ingested.setup_events
  ++ Ingested.clear_events
  ++ Ingested.cad_events files notes materials
  ++ Ingested.rds_events docs
  ++ Ingested.link_events (loaded g1 files notes materials docs)
  ++ [Print (py "Ingestion complete!")].

End Completed.

(** The ingestion ran to its end. *)
Definition completes (env : Env) (w : World) : Prop :=
  fst (Ingest.ingestion env w) = Ok tt.

(** ** Sample data *)

Module Sample.

Definition file1 : cad_files.row :=
  {| cad_files.file_id := KInt 1;
     cad_files.file_name := VText (py "bracket.step");
     cad_files.file_type := VText (py "STEP");
     cad_files.part_number := VText (py "P-100");
     cad_files.revision := VNull;
     cad_files.file_size_bytes := VInt 2048;
     cad_files.extraction_status := VText (py "ok") |}.

Definition note1 : cad_engineering_notes.row :=
  {| cad_engineering_notes.id := KInt 10;
     cad_engineering_notes.file_id := KInt 1;
     cad_engineering_notes.note_type := VText (py "general");
     cad_engineering_notes.note_code := VNull;
     cad_engineering_notes.note_value := py "Bolt per STD 12" |}.

(** A note of a file that is not in [cad_files]. *)
Definition orphan_note : cad_engineering_notes.row :=
  {| cad_engineering_notes.id := KInt 11;
     cad_engineering_notes.file_id := KInt 99;
     cad_engineering_notes.note_type := VNull;
     cad_engineering_notes.note_code := VNull;
     cad_engineering_notes.note_value := py "See STD12" |}.

(** A second row with the id of [note1]. *)
Definition note1_again : cad_engineering_notes.row :=
  {| cad_engineering_notes.id := KInt 10;
     cad_engineering_notes.file_id := KInt 1;
     cad_engineering_notes.note_type := VNull;
     cad_engineering_notes.note_code := VNull;
     cad_engineering_notes.note_value := py "Washer per STD 12" |}.

Definition steel : cad_material_properties.row :=
  {| cad_material_properties.file_id := KInt 1;
     cad_material_properties.material_name := KText (py "steel");
     cad_material_properties.material_standard := VText (py "EN 10025");
     cad_material_properties.density := VInt 7850 |}.

Definition steel_again : cad_material_properties.row :=
  {| cad_material_properties.file_id := KInt 1;
     cad_material_properties.material_name := KText (py "steel");
     cad_material_properties.material_standard := VNull;
     cad_material_properties.density := VInt 7800 |}.

Definition std12 : rds_documents.row :=
  {| rds_documents.doc_id := KInt 100;
     rds_documents.standard_code := py "STD 12";
     rds_documents.title := Some (py "Bolts");
     rds_documents.total_pages := VInt 12;
     rds_documents.extraction_date := VNull |}.

(** A standard that [note1] does not cite, and without a title. *)
Definition std1234 : rds_documents.row :=
  {| rds_documents.doc_id := KInt 101;
     rds_documents.standard_code := py "STD 1234";
     rds_documents.title := None;
     rds_documents.total_pages := VNull;
     rds_documents.extraction_date := VNull |}.

Definition vector_of (text : pystr) : list float :=
  if PyStr.eqb text (py "STD 12 Bolts") then [1%float; 0%float]
  else [0%float; 1%float].

Definition variables (name : string) : option pystr :=
  if String.eqb name "NEO4J_URI" then Some (py "bolt://localhost:7687")
  else if String.eqb name "NEO4J_USERNAME" then Some (py "neo4j")
  else if String.eqb name "NEO4J_PASSWORD" then Some (py "secret")
  else None.

Definition env : Env :=
  {| getenv := variables;
     argv := [py "graphrag_app.py"; py "which"; py "standard?"];
     select_cad_files := Ok [file1];
     select_cad_engineering_notes := Ok [note1; orphan_note];
     select_cad_material_properties := Ok [steel; steel_again];
     select_rds_documents := Ok [std12; std1234];
     embed_query := fun text => Ok (vector_of text);
     rag_search := fun _ => Ok (py "STD 12 applies.");
     verify_connectivity := Ok tt |}.

(** The same, with the password not set. *)
Definition env_without_password : Env :=
  {| getenv := fun name =>
                 if String.eqb name "NEO4J_PASSWORD" then None else variables name;
     argv := argv env;
     select_cad_files := select_cad_files env;
     select_cad_engineering_notes := select_cad_engineering_notes env;
     select_cad_material_properties := select_cad_material_properties env;
     select_rds_documents := select_rds_documents env;
     embed_query := embed_query env;
     rag_search := rag_search env;
     verify_connectivity := verify_connectivity env |}.

(** The same, with the chat model unreachable. *)
Definition env_chat_down : Env :=
  {| getenv := variables;
     argv := argv env;
     select_cad_files := select_cad_files env;
     select_cad_engineering_notes := select_cad_engineering_notes env;
     select_cad_material_properties := select_cad_material_properties env;
     select_rds_documents := select_rds_documents env;
     embed_query := embed_query env;
     rag_search := fun _ => Raise (py "connection refused");
     verify_connectivity := verify_connectivity env |}.

(** The same, with the embedding model unreachable. *)
Definition env_embedder_down : Env :=
  {| getenv := variables;
     argv := argv env;
     select_cad_files := select_cad_files env;
     select_cad_engineering_notes := select_cad_engineering_notes env;
     select_cad_material_properties := select_cad_material_properties env;
     select_rds_documents := select_rds_documents env;
     embed_query := fun _ => Raise (py "connection refused");
     rag_search := rag_search env;
     verify_connectivity := verify_connectivity env |}.

(** The same, with two note rows of one id. *)
Definition env_repeated_note : Env :=
  {| getenv := variables;
     argv := argv env;
     select_cad_files := select_cad_files env;
     select_cad_engineering_notes := Ok [note1; note1_again];
     select_cad_material_properties := select_cad_material_properties env;
     select_rds_documents := select_rds_documents env;
     embed_query := embed_query env;
     rag_search := rag_search env;
     verify_connectivity := verify_connectivity env |}.

(** The same, with an embedding model that returns other vectors. *)
Definition env_other_vectors : Env :=
  {| getenv := variables;
     argv := argv env;
     select_cad_files := select_cad_files env;
     select_cad_engineering_notes := select_cad_engineering_notes env;
     select_cad_material_properties := select_cad_material_properties env;
     select_rds_documents := select_rds_documents env;
     embed_query := fun _ => Ok [0.5%float];
     rag_search := rag_search env;
     verify_connectivity := verify_connectivity env |}.

Definition world : World := {| db := empty_graph; trace := [] |}.

(** The world a completed ingestion of [env] leaves. *)
Definition ingested : World := snd (Ingest.main env world).

(** The rows of [env] loaded and not yet linked. *)
Definition loaded : World :=
  {| db := Completed.loaded empty_graph [file1] [note1; orphan_note]
             [steel; steel_again]
             [(std12, vector_of (py "STD 12 Bolts"));
              (std1234, vector_of (py "STD 1234 "))];
     trace := [] |}.

End Sample.

(** ** Graph data, apart from the schema and up to the vectors *)

(** The node with its embedding replaced by [h] of it. *)
Definition map_embedding (h : list float -> list float) (n : Node) : Node :=
  match n with
  | StandardDocument k code title pages date v =>
      StandardDocument k code title pages date (h v)
  | _ => n
  end.

(** The nodes and edges of a graph, without its constraints and
    indexes, the embeddings seen through [h]. *)
Definition data (h : list float -> list float) (g : Graph) : Graph :=
  {| nodes := map (map_embedding h) (nodes g);
     edges := edges g;
     constraints := [];
     indexes := [] |}.

Definition no_vector (v : list float) : list float := [].

(** A pattern that does not look at the embedding. *)
Definition blind (p : Node -> bool) : Prop :=
  forall h n, p (map_embedding h n) = p n.

(** Two environments give the same rows. *)
Definition same_sources (env env' : Env) : Prop :=
  select_cad_files env = select_cad_files env'
  /\ select_cad_engineering_notes env = select_cad_engineering_notes env'
  /\ select_cad_material_properties env = select_cad_material_properties env'
  /\ select_rds_documents env = select_rds_documents env'.

(** No two nodes carry the same value of the constrained property. *)
Definition unique (c : Constraint) (g : Graph) : Prop :=
  Cypher.has_duplicate (Cypher.constrained_keys c (nodes g)) = false.

(** ** The phases of an ingestion run *)

Inductive Phase := Setup | Clear | LoadCad | LoadStandards | Link | Close.

(** The events a phase may produce; every phase may print. *)
Definition in_phase (p : Phase) (e : Event) : bool :=
  match e with
  | Print _ => true
  | Run q =>
      match p, q with
      | Setup, Cypher.CreateConstraint _
      | Setup, Cypher.DropIndex _
      | Setup, Cypher.CreateVectorIndex _ => true
      | Clear, Cypher.DetachDeleteAll => true
      | LoadCad, Cypher.MergeCADFile _
      | LoadCad, Cypher.CreateNote _
      | LoadCad, Cypher.MergeMaterial _ => true
      | LoadStandards, Cypher.MergeStandard _ _ => true
      | Link, Cypher.FetchNotes
      | Link, Cypher.LinkReferences _ _ => true
      | _, _ => false
      end
  | SqlSelect table =>
      match p with
      | LoadCad =>
          String.eqb table "cad_files"
          || String.eqb table "cad_engineering_notes"
          || String.eqb table "cad_material_properties"
      | LoadStandards => String.eqb table "rds_documents"
      | _ => false
      end
  | EmbedQuery _ =>
      match p with
      | LoadStandards => true
      | _ => false
      end
  | DriverClose =>
      match p with
      | Close => true
      | _ => false
      end
  | _ => false
  end.

(** [evs] splits into consecutive parts, one per phase of [ps] in
    order, each (possibly empty) part holding events of its phase
    only. *)
Fixpoint staged (ps : list Phase) (evs : list Event) : Prop :=
  match ps with
  | [] => evs = []
  | p :: ps' =>
      exists here later,
        evs = here ++ later
        /\ forallb (in_phase p) here = true
        /\ staged ps' later
  end.

Definition phase_order : list Phase :=
  [Setup; Clear; LoadCad; LoadStandards; Link; Close].

(** Whatever its outcome, [m] adds to the trace events of phase [p]. *)
Definition within {A} (p : Phase) (m : M A) : Prop :=
  forall w, exists evs,
    trace (snd (m w)) = trace w ++ evs /\ forallb (in_phase p) evs = true.

(** Whatever its outcome, [m] adds to the trace events staged as [ps]. *)
Definition through {A} (ps : list Phase) (m : M A) : Prop :=
  forall w, exists evs,
    trace (snd (m w)) = trace w ++ evs /\ staged ps evs.

(** ** Labels and the shape of the edges *)

Definition label_of (n : Node) : Label :=
  match n with
  | CADFile _ _ _ _ _ _ _ => L_CADFile
  | EngineeringNote _ _ _ _ => L_EngineeringNote
  | Material _ _ _ => L_Material
  | StandardDocument _ _ _ _ _ _ => L_StandardDocument
  end.

Definition has_label (l : Label) (n : Node) : bool := label_eqb (label_of n) l.

(** The labels at the two ends of a relationship, as the patterns of
    the statements that write it have them. *)
Definition endpoints (t : RelType) : Label * Label :=
  match t with
  | HAS_NOTE => (L_CADFile, L_EngineeringNote)
  | HAS_MATERIAL => (L_CADFile, L_Material)
  | REFERENCES => (L_EngineeringNote, L_StandardDocument)
  end.

(** Both ends of [e] are nodes of [ns], with the labels of its type. *)
Definition edge_ok (ns : list Node) (e : Edge) : bool :=
  let '(s, t, d) := e in
  match nth_error ns s, nth_error ns d with
  | Some a, Some b =>
      has_label (fst (endpoints t)) a && has_label (snd (endpoints t)) b
  | _, _ => false
  end.

Definition well_formed (g : Graph) : bool :=
  forallb (edge_ok (nodes g)) (edges g).

(** The node the note statement creates for a row. *)
Definition note_of (r : cad_engineering_notes.row) : Node :=
  EngineeringNote (cad_engineering_notes.id r) (cad_engineering_notes.note_type r)
    (cad_engineering_notes.note_code r) (cad_engineering_notes.note_value r).

(** [DROP INDEX name IF EXISTS] on a list of indexes. *)
Definition other_index (name : string) (ix : VectorIndex) : bool :=
  negb (String.eqb (ix_name ix) name).

(** More environments for the sample rows. *)
Module Failing.

(** The table [cad_files] cannot be read. *)
Definition env_no_cad_table : Env :=
  {| getenv := Sample.variables;
     argv := argv Sample.env;
     select_cad_files := Raise (py "no such table: cad_files");
     select_cad_engineering_notes := select_cad_engineering_notes Sample.env;
     select_cad_material_properties := select_cad_material_properties Sample.env;
     select_rds_documents := select_rds_documents Sample.env;
     embed_query := embed_query Sample.env;
     rag_search := rag_search Sample.env;
     verify_connectivity := verify_connectivity Sample.env |}.

(** The embedding model answers for the first document and fails on
    the second. *)
Definition env_second_embedding_fails : Env :=
  {| getenv := Sample.variables;
     argv := argv Sample.env;
     select_cad_files := select_cad_files Sample.env;
     select_cad_engineering_notes := select_cad_engineering_notes Sample.env;
     select_cad_material_properties := select_cad_material_properties Sample.env;
     select_rds_documents := select_rds_documents Sample.env;
     embed_query := fun text =>
                      if PyStr.eqb text (py "STD 12 Bolts")
                      then Ok (Sample.vector_of text)
                      else Raise (py "model timed out");
     rag_search := rag_search Sample.env;
     verify_connectivity := verify_connectivity Sample.env |}.

(** The graph database cannot be reached. *)
Definition env_database_down : Env :=
  {| getenv := Sample.variables;
     argv := argv Sample.env;
     select_cad_files := select_cad_files Sample.env;
     select_cad_engineering_notes := select_cad_engineering_notes Sample.env;
     select_cad_material_properties := select_cad_material_properties Sample.env;
     select_rds_documents := select_rds_documents Sample.env;
     embed_query := embed_query Sample.env;
     rag_search := rag_search Sample.env;
     verify_connectivity := Raise (py "ServiceUnavailable") |}.

End Failing.

(** The sample with a second row for file 1, of another revision. *)
Module Revised.

Definition file1_revised : cad_files.row :=
  {| cad_files.file_id := KInt 1;
     cad_files.file_name := VText (py "bracket.step");
     cad_files.file_type := VText (py "STEP");
     cad_files.part_number := VText (py "P-100");
     cad_files.revision := VText (py "B");
     cad_files.file_size_bytes := VInt 4096;
     cad_files.extraction_status := VText (py "ok") |}.

Definition env : Env :=
  {| getenv := Sample.variables;
     argv := argv Sample.env;
     select_cad_files := Ok [Sample.file1; file1_revised];
     select_cad_engineering_notes := select_cad_engineering_notes Sample.env;
     select_cad_material_properties := select_cad_material_properties Sample.env;
     select_rds_documents := select_rds_documents Sample.env;
     embed_query := embed_query Sample.env;
     rag_search := rag_search Sample.env;
     verify_connectivity := verify_connectivity Sample.env |}.

End Revised.

(** ** The references the linking pass may write *)

(** [i] is a note and [j] a standard whose code contains digits that
    the content of a note with the note_id of [i] cites. *)
Definition cited_reference (ns : list Node) (i j : NodeId) : Prop :=
  exists note_id type number content i' type' number' content' code_num
         doc_id standard_code title pages date embedding,
    nth_error ns i = Some (EngineeringNote note_id type number content)
    /\ nth_error ns i' = Some (EngineeringNote note_id type' number' content')
    /\ Spec.cites content' code_num
    /\ nth_error ns j
       = Some (StandardDocument doc_id standard_code title pages date embedding)
    /\ Spec.substring code_num standard_code.

(** Two notes with one note_id, of which the first alone cites a
    standard. *)
Module Shared.

Definition graph : Graph :=
  {| nodes := [CADFile (KInt 1) VNull VNull VNull VNull VNull VNull;
               EngineeringNote (KInt 10) VNull VNull (py "Bolt per STD 12");
               EngineeringNote (KInt 10) VNull VNull (py "Deburr all edges");
               StandardDocument (KInt 100) (py "STD 12") None VNull VNull []];
     edges := [(0, HAS_NOTE, 1); (0, HAS_NOTE, 2)];
     constraints := [];
     indexes := [] |}.

Definition world : World := {| db := graph; trace := [] |}.

End Shared.

(** ** Sound graphs *)

(** [ns'] has at every position of [ns] a node of the same label. *)
Definition extends (ns ns' : list Node) : Prop :=
  forall i n, nth_error ns i = Some n ->
              exists n', nth_error ns' i = Some n' /\ label_of n' = label_of n.

(** Every edge joins two nodes of the graph that have the labels of its
    type, and no edge occurs twice. *)
Definition sound (g : Graph) : Prop :=
  well_formed g = true /\ NoDup (edges g).

(** * Properties *)

Ltac split_all := repeat match goal with |- _ /\ _ => split end.

(** ** Strings *)

Lemma pystr_eqb_eq (a b : pystr) : PyStr.eqb a b = true <-> a = b.
Proof.
  revert b; induction a as [|x a IH]; intros [|y b]; simpl; split;
    try congruence; try reflexivity.
  - intros H. apply andb_true_iff in H as [Hx Hab].
    apply N.eqb_eq in Hx. apply IH in Hab. congruence.
  - intros H. injection H as -> ->.
    rewrite N.eqb_refl. simpl. apply IH. reflexivity.
Qed.

Lemma key_eqb_eq (a b : Key) : key_eqb a b = true <-> a = b.
Proof.
  destruct a as [x|x], b as [y|y]; simpl; split; try congruence.
  - intros H. apply Z.eqb_eq in H. congruence.
  - intros H. injection H as ->. apply Z.eqb_refl.
  - intros H. apply pystr_eqb_eq in H. congruence.
  - intros H. injection H as ->. apply pystr_eqb_eq. reflexivity.
Qed.

Lemma key_eqb_refl (k : Key) : key_eqb k k = true.
Proof. apply key_eqb_eq. reflexivity. Qed.

Lemma startswith_spec (s needle : pystr) :
  startswith s needle = true <-> exists b, s = needle ++ b.
Proof.
  revert s; induction needle as [|n needle IH]; intros s; simpl.
  - split; [intros _; exists s; reflexivity | intros _; destruct s; reflexivity].
  - destruct s as [|c s].
    + split; [discriminate | intros [b Hb]; discriminate].
    + simpl. rewrite andb_true_iff, N.eqb_eq, IH. split.
      * intros [-> [b ->]]. exists b. reflexivity.
      * intros [b Hb]. injection Hb as -> ->. split; [reflexivity | exists b; reflexivity].
Qed.

Lemma contains_spec (s needle : pystr) :
  contains s needle = true <-> Spec.substring needle s.
Proof.
  unfold Spec.substring.
  induction s as [|c s IH].
  - cbn [contains]. rewrite orb_false_r, startswith_spec. split.
    + intros [b Hb]. exists [], b. exact Hb.
    + intros [a [b Hab]]. destruct a; [exists b; exact Hab | discriminate].
  - cbn [contains]. rewrite orb_true_iff, startswith_spec, IH. split.
    + intros [[b Hb] | [a [b Hab]]].
      * exists [], b. exact Hb.
      * exists (c :: a), b. rewrite Hab. reflexivity.
    + intros [a [b Hab]]. destruct a as [|x a].
      * left. exists b. exact Hab.
      * right. injection Hab as _ Hab. exists a, b. exact Hab.
Qed.

(** ** The pattern *)

Lemma digit_not_S (c : char) : Re.is_digit c = true -> c <> Re.ch_S.
Proof. intros H ->. vm_compute in H. discriminate. Qed.

Lemma space_not_S (c : char) : Re.is_space c = true -> c <> Re.ch_S.
Proof. intros H ->. vm_compute in H. discriminate. Qed.

Lemma digit_not_space (c : char) : Re.is_digit c = true -> Re.is_space c = false.
Proof.
  unfold Re.is_digit, Re.is_space. intros H.
  apply andb_true_iff in H as [H1 H2].
  apply N.leb_le in H1. apply N.leb_le in H2.
  repeat match goal with
         | |- context [(?a <=? ?b)%N] => destruct (N.leb_spec a b); try lia
         | |- context [(?a =? ?b)%N] => destruct (N.eqb_spec a b); try lia
         end; reflexivity.
Qed.

Lemma span_digits_sound (s ds rest : pystr) :
  Re.span_digits s = (ds, rest) ->
  s = ds ++ rest
  /\ Forall (fun c => Re.is_digit c = true) ds
  /\ Spec.ends_digits rest.
Proof.
  revert ds rest; induction s as [|c s IH]; intros ds rest; simpl.
  - intros H. injection H as <- <-. repeat split. constructor.
  - destruct (Re.is_digit c) eqn:Hc.
    + destruct (Re.span_digits s) as [ds' rest'].
      intros H. injection H as <- <-.
      destruct (IH ds' rest' eq_refl) as (-> & Hds & Hend).
      repeat split; [constructor; assumption | assumption].
    + intros H. injection H as <- <-. repeat split; [constructor | exact Hc].
Qed.

Lemma span_digits_complete (ds post : pystr) :
  Forall (fun c => Re.is_digit c = true) ds ->
  Spec.ends_digits post ->
  Re.span_digits (ds ++ post) = (ds, post).
Proof.
  intros Hds Hpost. induction Hds as [|c ds Hc _ IH]; cbn [Re.span_digits app].
  - destruct post as [|c post]; [reflexivity|].
    cbn [Re.span_digits]. cbn [Spec.ends_digits] in Hpost. rewrite Hpost. reflexivity.
  - rewrite Hc, IH. reflexivity.
Qed.

Lemma digits1_sound (s ds : pystr) (n : nat) :
  Re.digits1 s = Some (ds, n) ->
  exists post,
    s = ds ++ post /\ Spec.digit_sequence ds /\ Spec.ends_digits post
    /\ n = List.length ds.
Proof.
  unfold Re.digits1. destruct (Re.span_digits s) as [ds' rest] eqn:Hspan.
  apply span_digits_sound in Hspan as (-> & Hds & Hend).
  destruct ds' as [|c ds']; [discriminate|].
  intros H. injection H as <- <-.
  exists rest. repeat split; [discriminate | assumption | assumption].
Qed.

Lemma digits1_complete (ds post : pystr) :
  Spec.digit_sequence ds ->
  Spec.ends_digits post ->
  Re.digits1 (ds ++ post) = Some (ds, List.length ds).
Proof.
  intros [Hne Hds] Hpost. unfold Re.digits1.
  rewrite (span_digits_complete _ _ Hds Hpost).
  destruct ds; [contradiction | reflexivity].
Qed.

Lemma digits1_space (c : char) (s : pystr) :
  Re.is_space c = true -> Re.digits1 (c :: s) = None.
Proof.
  intros Hc. unfold Re.digits1. simpl.
  destruct (Re.is_digit c) eqn:Hd; [|reflexivity].
  apply digit_not_space in Hd. congruence.
Qed.


Lemma match_here_sound (s ds : pystr) (n : nat) :
  Re.match_here s = Some (ds, n) ->
  exists ws post,
    s = Spec.STD ++ ws ++ ds ++ post
    /\ Spec.optional_whitespace ws
    /\ Spec.digit_sequence ds
    /\ Spec.ends_digits post
    /\ n = 3 + List.length ws + List.length ds.
Proof.
  destruct s as [|c1 [|c2 [|c3 r]]]; try discriminate.
  unfold Re.match_here.
  destruct ((c1 =? Re.ch_S)%N && (c2 =? Re.ch_T)%N && (c3 =? Re.ch_D)%N) eqn:Hstd;
    [|discriminate].
  apply andb_true_iff in Hstd as [Hstd H3].
  apply andb_true_iff in Hstd as [H1 H2].
  apply N.eqb_eq in H1, H2, H3. subst c1 c2 c3.
  assert (Hplain : forall m,
             match Re.digits1 r with
             | Some (ds0, n0) => Some (ds0, 3 + n0)
             | None => None
             end = Some (ds, m) ->
             exists ws post,
               Re.ch_S :: Re.ch_T :: Re.ch_D :: r = Spec.STD ++ ws ++ ds ++ post
               /\ Spec.optional_whitespace ws /\ Spec.digit_sequence ds
               /\ Spec.ends_digits post
               /\ m = 3 + List.length ws + List.length ds).
  { intros m. destruct (Re.digits1 r) as [[ds0 n0]|] eqn:Hd; [|discriminate].
    intros H. injection H as -> <-.
    apply digits1_sound in Hd as (post & -> & Hds & Hend & ->).
    exists [], post. split_all; try assumption; try reflexivity.
    left; reflexivity. }
  destruct r as [|c r'].
  - apply Hplain.
  - destruct (Re.is_space c) eqn:Hc; [|apply Hplain].
    destruct (Re.digits1 r') as [[ds0 n0]|] eqn:Hd.
    + intros H. injection H as -> <-.
      apply digits1_sound in Hd as (post & -> & Hds & Hend & ->).
      exists [c], post. split_all; try assumption; try reflexivity.
      right. exists c. split; [reflexivity | assumption].
    + rewrite (digits1_space c r' Hc). discriminate.
Qed.

Lemma match_here_complete (ws ds post : pystr) :
  Spec.optional_whitespace ws ->
  Spec.digit_sequence ds ->
  Spec.ends_digits post ->
  Re.match_here (Spec.STD ++ ws ++ ds ++ post)
  = Some (ds, 3 + List.length ws + List.length ds).
Proof.
  intros Hws Hds Hend.
  pose proof (digits1_complete ds post Hds Hend) as Hd.
  destruct Hws as [-> | [c [-> Hc]]].
  - destruct Hds as [Hne Hall].
    destruct ds as [|d ds]; [contradiction|].
    assert (Hsp : Re.is_space d = false).
    { apply digit_not_space. inversion Hall; assumption. }
    cbn [Spec.STD app Re.match_here]. cbn [app] in Hd.
    rewrite !N.eqb_refl. cbn [andb].
    rewrite Hsp, Hd. reflexivity.
  - cbn [Spec.STD app Re.match_here].
    rewrite !N.eqb_refl. cbn [andb].
    rewrite Hc, Hd. reflexivity.
Qed.

(** A match starts with the letter S and holds no other S. *)
Lemma match_here_tail_no_S (c : char) (s ds : pystr) (n : nat) :
  Re.match_here (c :: s) = Some (ds, n) ->
  c = Re.ch_S /\ Forall (fun x => x <> Re.ch_S) (firstn (pred n) s).
Proof.
  intros H. apply match_here_sound in H as (ws & post & Hs & Hws & [_ Hds] & _ & ->).
  cbn [Spec.STD app] in Hs. injection Hs as -> ->. split; [reflexivity|].
  assert (Hn : pred (3 + List.length ws + List.length ds)
               = 2 + List.length ws + List.length ds) by lia.
  rewrite Hn.
  assert (Hsplit : Re.ch_T :: Re.ch_D :: ws ++ ds ++ post
                   = (Re.ch_T :: Re.ch_D :: ws ++ ds) ++ post).
  { cbn [app]. rewrite <- app_assoc. reflexivity. }
  rewrite Hsplit, firstn_app.
  assert (Hlen : List.length (Re.ch_T :: Re.ch_D :: ws ++ ds)
                 = 2 + List.length ws + List.length ds).
  { cbn [List.length]. rewrite length_app. lia. }
  rewrite <- Hlen, firstn_all, Nat.sub_diag. cbn [firstn]. rewrite app_nil_r.
  repeat constructor; try (intros E; vm_compute in E; discriminate).
  apply Forall_app. split.
  - destruct Hws as [-> | [x [-> Hx]]]; repeat constructor.
    apply space_not_S. assumption.
  - eapply Forall_impl; [|exact Hds]. intros a Ha. apply digit_not_S. exact Ha.
Qed.

Lemma scan_sound (s : pystr) : forall (k : nat) (ds : pystr),
  In ds (Re.scan k s) -> Spec.cites s ds.
Proof.
  induction s as [|c s IH]; intros k ds; [intros []|].
  assert (Hshift : Spec.cites s ds -> Spec.cites (c :: s) ds).
  { intros (pre & ws & post & -> & H). exists (c :: pre), ws, post.
    split; [reflexivity | exact H]. }
  cbn [Re.scan]. destruct k as [|k].
  - destruct (Re.match_here (c :: s)) as [[ds0 n]|] eqn:Hm.
    + intros [<- | Hin].
      * apply match_here_sound in Hm as (ws & post & Hs & Hws & Hds & Hend & _).
        exists [], ws, post. split_all; assumption.
      * apply Hshift. eapply IH. exact Hin.
    + intros Hin. apply Hshift. eapply IH. exact Hin.
  - intros Hin. apply Hshift. eapply IH. exact Hin.
Qed.

Lemma scan_complete (s : pystr) : forall (k : nat) (ds : pystr),
  Forall (fun x => x <> Re.ch_S) (firstn k s) ->
  Spec.cites s ds -> In ds (Re.scan k s).
Proof.
  induction s as [|c s IH]; intros k ds Hskip (pre & ws & post & Hs & Hws & Hds & Hend).
  - destruct pre; discriminate.
  - assert (Htail : forall pre', pre = c :: pre' -> Spec.cites s ds).
    { intros pre' ->. injection Hs as ->. exists pre', ws, post.
      split_all; try assumption; reflexivity. }
    cbn [Re.scan]. destruct k as [|k].
    + destruct pre as [|c' pre'].
      * cbn [app] in Hs. rewrite Hs.
        rewrite (match_here_complete ws ds post Hws Hds Hend).
        left. reflexivity.
      * injection Hs as <- Hs.
        destruct (Re.match_here (c :: s)) as [[ds0 n]|] eqn:Hm.
        -- right. apply IH.
           ++ apply (match_here_tail_no_S _ _ _ _ Hm).
           ++ apply (Htail pre'). reflexivity.
        -- apply IH; [constructor | apply (Htail pre'); reflexivity].
    + cbn [firstn] in Hskip. inversion Hskip as [|? ? Hc Hrest]; subst.
      destruct pre as [|c' pre'].
      * cbn [Spec.STD app] in Hs. injection Hs as Hc' _. congruence.
      * injection Hs as <- Hs. apply IH; [exact Hrest|].
        apply (Htail pre'). reflexivity.
Qed.

(** [re.findall] returns exactly the digit sequences of the occurrences
    of the pattern. *)
Lemma findall_spec (content code_num : pystr) :
  In code_num (Re.findall content) <-> Spec.cites content code_num.
Proof.
  unfold Re.findall. split.
  - apply scan_sound.
  - apply scan_complete. constructor.
Qed.

(** ** Processes *)

Arguments py : simpl never.
Arguments str_of_nat : simpl never.

Lemma bind_ok {A B} (m : M A) (k : A -> M B) (w w' : World) (a : A) :
  m w = (Ok a, w') -> bind m k w = k a w'.
Proof. unfold bind. intros ->. reflexivity. Qed.

Lemma bind_inv_ok {A B} (m : M A) (k : A -> M B) (w w' : World) (b : B) :
  bind m k w = (Ok b, w') ->
  exists a w1, m w = (Ok a, w1) /\ k a w1 = (Ok b, w').
Proof.
  unfold bind. destruct (m w) as [[a|e] w1]; [|discriminate].
  intros H. exists a, w1. split; [reflexivity | exact H].
Qed.

Lemma world_eta (w : World) : {| db := db w; trace := trace w |} = w.
Proof. destruct w; reflexivity. Qed.

Lemma run_exec (q : Cypher.Stmt) (w : World) :
  run q w =
  match Cypher.exec q (db w) with
  | Ok (g, a) => (Ok a, {| db := g; trace := trace w ++ [Run q] |})
  | Raise e => (Raise e, {| db := db w; trace := trace w ++ [Run q] |})
  end.
Proof.
  unfold run, log. cbn [db trace].
  destruct (Cypher.exec q (db w)) as [[g a]|e]; reflexivity.
Qed.

(** A loop of statements that cannot fail. *)
Lemma for_each_run {A} (mk : A -> Cypher.Stmt) (f : A -> Graph -> Graph)
    (xs : list A) :
  (forall x g, exists a, Cypher.exec (mk x) g = Ok (f x g, a)) ->
  forall w,
    for_each xs (fun x => run (mk x) ;; ret tt) w
    = (Ok tt, {| db := fold_left (fun g x => f x g) xs (db w);
                 trace := trace w ++ map (fun x => Run (mk x)) xs |}).
Proof.
  intros Hexec. induction xs as [|x xs IH]; intros w.
  - cbn [for_each fold_left map]. rewrite app_nil_r, world_eta. reflexivity.
  - cbn [for_each fold_left map].
    destruct (Hexec x (db w)) as [a Ha].
    unfold bind at 1. unfold bind at 1. rewrite run_exec, Ha.
    unfold ret at 1. rewrite IH. cbn [db trace].
    rewrite <- app_assoc. reflexivity.
Qed.

(** Two nested loops over one counter are one loop over the pairs. *)
Lemma for_fold_nested {A B S} (inner : A -> list B) (body : A -> S -> B -> M S)
    (xs : list A) : forall (s : S) (w : World),
  for_fold xs s (fun s x => for_fold (inner x) s (body x)) w
  = for_fold (flat_map (fun x => map (fun y => (x, y)) (inner x)) xs) s
      (fun s xy => body (fst xy) s (snd xy)) w.
Proof.
  assert (Happ : forall (x : A) (ys : list B) (rest : list (A * B)) s w,
             for_fold (map (fun y => (x, y)) ys ++ rest) s
               (fun s xy => body (fst xy) s (snd xy)) w
             = bind (for_fold ys s (body x))
                 (fun s' => for_fold rest s' (fun s xy => body (fst xy) s (snd xy))) w).
  { intros x ys rest. induction ys as [|y ys IH]; intros s w.
    - reflexivity.
    - cbn [map app for_fold fst snd]. unfold bind.
      destruct (body x s y w) as [[s'|e] w']; [|reflexivity].
      rewrite IH. reflexivity. }
  induction xs as [|x xs IH]; intros s w.
  - reflexivity.
  - cbn [for_fold flat_map]. rewrite Happ. unfold bind.
    destruct (for_fold (inner x) s (body x) w) as [[s'|e] w']; [|reflexivity].
    apply IH.
Qed.

(** ** The phases of the ingestion *)

Lemma create_constraint_data (c : Constraint) (g g' : Graph) :
  Cypher.create_constraint c g = Ok g' ->
  nodes g' = nodes g /\ edges g' = edges g.
Proof.
  unfold Cypher.create_constraint.
  destruct (Cypher.has_constraint c g); [intros H; injection H as <-; split; reflexivity|].
  destruct (Cypher.has_duplicate _); [discriminate|].
  intros H; injection H as <-. split; reflexivity.
Qed.

Lemma setup_constraints_spec (w : World) :
  match Ingested.setup (db w) with
  | Ok g =>
      Ingest.setup_constraints w
      = (Ok tt, {| db := g; trace := trace w ++ Ingested.setup_events |})
  | Raise e =>
      exists w', Ingest.setup_constraints w = (Raise e, w')
                 /\ nodes (db w') = nodes (db w) /\ edges (db w') = edges (db w)
  end.
Proof.
  unfold Ingested.setup, Ingest.setup_constraints, Ingested.setup_events.
  unfold bind, print, emit, try_except, ret, log. cbn [db trace].
  rewrite !run_exec. cbn [db trace Cypher.exec].
  destruct (Cypher.create_constraint _ (db w)) as [g1|e] eqn:H1;
    [|eexists; split_all; reflexivity].
  apply create_constraint_data in H1 as [N1 E1].
  rewrite !run_exec. cbn [db trace Cypher.exec].
  destruct (Cypher.create_constraint _ g1) as [g2|e] eqn:H2;
    [|eexists; split_all; [reflexivity | exact N1 | exact E1]].
  apply create_constraint_data in H2 as [N2 E2].
  rewrite !run_exec. cbn [db trace Cypher.exec].
  destruct (Cypher.create_constraint _ g2) as [g3|e] eqn:H3;
    [|eexists; split_all; [reflexivity | cbn [db]; congruence | cbn [db]; congruence]].
  rewrite !run_exec. cbn [db trace Cypher.exec].
  rewrite !run_exec. cbn [db trace Cypher.exec].
  repeat rewrite <- app_assoc. reflexivity.
Qed.

Lemma clear_database_spec (w : World) :
  Ingest.clear_database w
  = (Ok tt, {| db := Cypher.detach_delete_all (db w);
               trace := trace w ++ Ingested.clear_events |}).
Proof.
  unfold Ingest.clear_database, Ingested.clear_events.
  unfold bind, print, emit, ret, log. cbn [db trace].
  rewrite run_exec. cbn [db trace Cypher.exec].
  rewrite <- app_assoc. reflexivity.
Qed.

Lemma select_ok {A} (table : string) (rows : list A) (w : World) :
  Ingest.select table (Ok rows) w
  = (Ok rows, {| db := db w; trace := trace w ++ [SqlSelect table] |}).
Proof. reflexivity. Qed.

Lemma select_raise {A} (table : string) (e : Exn) (w : World) :
  Ingest.select table (@Raise (list A) e) w
  = (Raise e, {| db := db w; trace := trace w ++ [SqlSelect table] |}).
Proof. reflexivity. Qed.

Lemma ingest_cad_data_spec (env : Env) (w : World)
    (files : list cad_files.row) (notes : list cad_engineering_notes.row)
    (materials : list cad_material_properties.row) :
  select_cad_files env = Ok files ->
  select_cad_engineering_notes env = Ok notes ->
  select_cad_material_properties env = Ok materials ->
  Ingest.ingest_cad_data env w
  = (Ok tt, {| db := Ingested.cad files notes materials (db w);
               trace := trace w ++ Ingested.cad_events files notes materials |}).
Proof.
  intros Hf Hn Hm.
  unfold Ingest.ingest_cad_data, Ingested.cad, Ingested.cad_events.
  rewrite Hf, Hn, Hm.
  unfold bind at 1. unfold print at 1, emit at 1.
  unfold bind at 1. rewrite select_ok.
  unfold bind at 1.
  rewrite (for_each_run Cypher.MergeCADFile Cypher.merge_cad_file)
    by (intros; eexists; reflexivity).
  unfold bind at 1. rewrite select_ok.
  unfold bind at 1.
  rewrite (for_each_run Cypher.CreateNote Cypher.create_note)
    by (intros; eexists; reflexivity).
  unfold bind at 1. rewrite select_ok.
  unfold bind at 1.
  rewrite (for_each_run Cypher.MergeMaterial Cypher.merge_material)
    by (intros; eexists; reflexivity).
  unfold print, emit, log. cbn [db trace].
  repeat rewrite <- app_assoc. reflexivity.
Qed.

Lemma ingest_cad_data_inv (env : Env) (w w' : World) :
  Ingest.ingest_cad_data env w = (Ok tt, w') ->
  exists files notes materials,
    select_cad_files env = Ok files
    /\ select_cad_engineering_notes env = Ok notes
    /\ select_cad_material_properties env = Ok materials.
Proof.
  unfold Ingest.ingest_cad_data.
  unfold bind at 1. unfold print at 1, emit at 1.
  unfold bind at 1.
  destruct (select_cad_files env) as [files|e]; [|rewrite select_raise; discriminate].
  rewrite select_ok.
  unfold bind at 1.
  rewrite (for_each_run Cypher.MergeCADFile Cypher.merge_cad_file)
    by (intros; eexists; reflexivity).
  unfold bind at 1.
  destruct (select_cad_engineering_notes env) as [notes|e];
    [|rewrite select_raise; discriminate].
  rewrite select_ok.
  unfold bind at 1.
  rewrite (for_each_run Cypher.CreateNote Cypher.create_note)
    by (intros; eexists; reflexivity).
  unfold bind at 1.
  destruct (select_cad_material_properties env) as [materials|e];
    [|rewrite select_raise; discriminate].
  intros _. exists files, notes, materials. split_all; reflexivity.
Qed.


Lemma embedded_length (env : Env) docs vs :
  embedded env docs vs -> List.length (combine docs vs) = List.length docs.
Proof.
  intros H. induction H; cbn [combine List.length]; congruence.
Qed.

Lemma rds_loop_spec (env : Env) (docs : list rds_documents.row) :
  forall (vs : list (list float)) (w : World),
    embedded env docs vs ->
    for_each docs
      (fun doc =>
         embedding <- Ingest.embed env (Ingest.text_to_embed doc) ;;
         run (Cypher.MergeStandard doc embedding) ;;
         ret tt) w
    = (Ok tt, {| db := Ingested.rds (combine docs vs) (db w);
                 trace := trace w ++ Ingested.rds_loop_events (combine docs vs) |}).
Proof.
  induction docs as [|d docs IH]; intros vs w H; inversion H as [|? v ? vs' Hv Hrest]; subst.
  - cbn. rewrite app_nil_r, world_eta. reflexivity.
  - cbn [for_each combine]. unfold bind at 1. unfold bind at 1.
    unfold Ingest.embed at 1. unfold bind at 1. unfold emit at 1.
    rewrite Hv. unfold ret at 1. unfold bind at 1.
    rewrite run_exec. cbn [Cypher.exec db trace log]. unfold ret at 1.
    rewrite (IH vs' _ Hrest). cbn [db trace].
    unfold Ingested.rds, Ingested.rds_loop_events.
    cbn [fold_left flat_map fst snd app].
    repeat rewrite <- app_assoc. reflexivity.
Qed.

Lemma rds_loop_inv (env : Env) (docs : list rds_documents.row) :
  forall (w w' : World),
    for_each docs
      (fun doc =>
         embedding <- Ingest.embed env (Ingest.text_to_embed doc) ;;
         run (Cypher.MergeStandard doc embedding) ;;
         ret tt) w = (Ok tt, w') ->
    exists vs, embedded env docs vs.
Proof.
  induction docs as [|d docs IH]; intros w w'.
  - intros _. exists []. constructor.
  - cbn [for_each]. unfold bind at 1. unfold bind at 1.
    unfold Ingest.embed at 1. unfold bind at 1. unfold emit at 1.
    destruct (embed_query env (Ingest.text_to_embed d)) as [v|e] eqn:Hv;
      [|discriminate].
    unfold ret at 1. unfold bind at 1.
    rewrite run_exec. cbn [Cypher.exec db trace log]. unfold ret at 1.
    intros H. apply IH in H as [vs Hvs].
    exists (v :: vs). constructor; assumption.
Qed.

Lemma ingest_rds_data_spec (env : Env) (w : World)
    (docs : list rds_documents.row) (vs : list (list float)) :
  select_rds_documents env = Ok docs ->
  embedded env docs vs ->
  Ingest.ingest_rds_data env w
  = (Ok tt, {| db := Ingested.rds (combine docs vs) (db w);
               trace := trace w ++ Ingested.rds_events (combine docs vs) |}).
Proof.
  intros Hd Hvs.
  unfold Ingest.ingest_rds_data, Ingested.rds_events.
  rewrite Hd.
  unfold bind at 1. unfold print at 1, emit at 1.
  unfold bind at 1. rewrite select_ok.
  unfold bind at 1.
  rewrite (rds_loop_spec env docs vs _ Hvs).
  unfold print, emit, log. cbn [db trace].
  rewrite (embedded_length env docs vs Hvs).
  repeat rewrite <- app_assoc. reflexivity.
Qed.

Lemma ingest_rds_data_inv (env : Env) (w w' : World) :
  Ingest.ingest_rds_data env w = (Ok tt, w') ->
  exists docs vs, select_rds_documents env = Ok docs /\ embedded env docs vs.
Proof.
  unfold Ingest.ingest_rds_data.
  unfold bind at 1. unfold print at 1, emit at 1.
  unfold bind at 1.
  destruct (select_rds_documents env) as [docs|e]; [|rewrite select_raise; discriminate].
  rewrite select_ok.
  unfold bind at 1.
  match goal with
  | |- context [for_each docs ?body ?w0] =>
      destruct (for_each docs body w0) as [[[]|e] w1] eqn:Hloop
  end; [|discriminate].
  intros _. apply rds_loop_inv in Hloop as [vs Hvs].
  exists docs, vs. split; [reflexivity | assumption].
Qed.

Lemma for_fold_map {A B S} (h : A -> B) (body : S -> B -> M S) (xs : list A) :
  forall (s : S) (w : World),
    for_fold xs s (fun s x => body s (h x)) w = for_fold (map h xs) s body w.
Proof.
  induction xs as [|x xs IH]; intros s w; [reflexivity|].
  cbn [for_fold map]. unfold bind.
  destruct (body s (h x) w) as [[s'|e] w']; [apply IH | reflexivity].
Qed.

Lemma citations_flat (notes : list (Key * pystr)) :
  map (fun xy : (Key * pystr) * pystr => (fst (fst xy), snd xy))
    (flat_map (fun note => map (fun y => (note, y)) (Re.findall (snd note))) notes)
  = flat_map
      (fun note => map (fun code_num => (fst note, code_num)) (Re.findall (snd note)))
      notes.
Proof.
  induction notes as [|note notes IH]; [reflexivity|].
  cbn [flat_map]. rewrite map_app, IH, map_map. reflexivity.
Qed.

Lemma link_loop_spec (cs : list (Key * pystr)) : forall (n : nat) (w : World),
  for_fold cs n
    (fun count c =>
       res <- run (Cypher.LinkReferences (fst c) (snd c)) ;;
       ret (if Ingest.positive_count res then count + 1 else count)) w
  = (Ok (snd (fold_left Ingested.link_step cs (db w, n))),
     {| db := fst (fold_left Ingested.link_step cs (db w, n));
        trace := trace w
                 ++ map (fun c => Run (Cypher.LinkReferences (fst c) (snd c))) cs |}).
Proof.
  induction cs as [|c cs IH]; intros n w.
  - cbn. rewrite app_nil_r, world_eta. reflexivity.
  - cbn [for_fold fold_left map].
    assert (Hst : Ingested.link_step (db w, n) c
                  = (fst (Cypher.link_references (fst c) (snd c) (db w)),
                     if Nat.ltb 0 (snd (Cypher.link_references (fst c) (snd c) (db w)))
                     then n + 1 else n)).
    { unfold Ingested.link_step. cbn [fst snd].
      destruct (Cypher.link_references (fst c) (snd c) (db w)); reflexivity. }
    rewrite Hst. clear Hst.
    unfold bind at 1. unfold bind at 1.
    rewrite run_exec. cbn [Cypher.exec].
    destruct (Cypher.link_references (fst c) (snd c) (db w)) as [g' k].
    unfold ret at 1. rewrite IH. cbn [db trace fst snd Ingest.positive_count].
    rewrite <- app_assoc. reflexivity.
Qed.

Lemma create_relationships_spec (w : World) :
  Ingest.create_relationships w
  = (Ok tt, {| db := fst (Ingested.links (db w));
               trace := trace w ++ Ingested.link_events (db w) |}).
Proof.
  unfold Ingest.create_relationships, Ingested.link_events, Ingested.links.
  unfold bind at 1. unfold print at 1, emit at 1.
  unfold bind at 1. rewrite run_exec. cbn [Cypher.exec db trace log Ingest.records].
  unfold bind at 1.
  rewrite for_fold_nested.
  rewrite (for_fold_map
             (fun xy : (Key * pystr) * pystr => (fst (fst xy), snd xy))
             (fun count c =>
                res <- run (Cypher.LinkReferences (fst c) (snd c)) ;;
                ret (if Ingest.positive_count res then count + 1 else count))).
  rewrite citations_flat. fold (Ingested.citations (db w)).
  rewrite link_loop_spec. cbn [db trace].
  unfold print, emit, log. cbn [db trace].
  repeat rewrite <- app_assoc. reflexivity.
Qed.

(** ** The whole ingestion *)

Lemma ingestion_spec (env : Env) (w : World) (g1 : Graph)
    (files : list cad_files.row) (notes : list cad_engineering_notes.row)
    (materials : list cad_material_properties.row)
    (docs : list rds_documents.row) (vs : list (list float)) :
  Ingested.setup (db w) = Ok g1 ->
  select_cad_files env = Ok files ->
  select_cad_engineering_notes env = Ok notes ->
  select_cad_material_properties env = Ok materials ->
  select_rds_documents env = Ok docs ->
  embedded env docs vs ->
  Ingest.ingestion env w
  = (Ok tt,
     {| db := Completed.graph g1 files notes materials (combine docs vs);
        trace := trace w
                 ++ Completed.events g1 files notes materials (combine docs vs) |}).
Proof.
  intros Hs Hf Hn Hm Hd Hv.
  unfold Ingest.ingestion.
  pose proof (setup_constraints_spec w) as H1. rewrite Hs in H1.
  rewrite (bind_ok _ _ _ _ _ H1).
  rewrite (bind_ok _ _ _ _ _ (clear_database_spec _)).
  rewrite (bind_ok _ _ _ _ _ (ingest_cad_data_spec env _ files notes materials Hf Hn Hm)).
  rewrite (bind_ok _ _ _ _ _ (ingest_rds_data_spec env _ docs vs Hd Hv)).
  rewrite (bind_ok _ _ _ _ _ (create_relationships_spec _)).
  unfold print, emit, log. cbn [db trace].
  unfold Completed.graph, Completed.events, Completed.loaded.
  repeat rewrite <- app_assoc. reflexivity.
Qed.

Lemma ingestion_inv (env : Env) (w w' : World) :
  Ingest.ingestion env w = (Ok tt, w') ->
  exists g1 files notes materials docs vs,
    Ingested.setup (db w) = Ok g1
    /\ select_cad_files env = Ok files
    /\ select_cad_engineering_notes env = Ok notes
    /\ select_cad_material_properties env = Ok materials
    /\ select_rds_documents env = Ok docs
    /\ embedded env docs vs.
Proof.
  unfold Ingest.ingestion. intros H.
  apply bind_inv_ok in H as ([] & w1 & H1 & H).
  apply bind_inv_ok in H as ([] & w2 & H2 & H).
  apply bind_inv_ok in H as ([] & w3 & H3 & H).
  apply bind_inv_ok in H as ([] & w4 & H4 & H).
  pose proof (setup_constraints_spec w) as Hs.
  destruct (Ingested.setup (db w)) as [g1|e].
  - apply ingest_cad_data_inv in H3 as (files & notes & materials & Hf & Hn & Hm).
    apply ingest_rds_data_inv in H4 as (docs & vs & Hd & Hv).
    exists g1, files, notes, materials, docs, vs. split_all; auto.
  - destruct Hs as (w0 & Hs & _). congruence.
Qed.

(** [main] never raises: it ends with the driver closed, after the
    message of the exception if there was one. *)
Lemma main_unfold (env : Env) (w : World) :
  Ingest.main env w
  = match Ingest.ingestion env w with
    | (Ok _, w') => (Ok tt, {| db := db w'; trace := trace w' ++ [DriverClose] |})
    | (Raise e, w') =>
        (Ok tt, {| db := db w';
                   trace := trace w'
                            ++ [Print (py "An error occurred: " ++ e); DriverClose] |})
    end.
Proof.
  unfold Ingest.main, try_finally, try_except.
  destruct (Ingest.ingestion env w) as [[[]|e] w'].
  - reflexivity.
  - unfold print, emit, log. cbn [db trace]. rewrite <- app_assoc. reflexivity.
Qed.

(** ** Matching and merging *)

Lemma positions_from_spec (p : Node -> bool) (ns : list Node) :
  forall (b i : nat),
    In i (Cypher.positions_from b p ns)
    <-> b <= i /\ exists n, nth_error ns (i - b) = Some n /\ p n = true.
Proof.
  induction ns as [|n ns IH]; intros b i; cbn [Cypher.positions_from].
  - split; [intros [] | intros [_ [n [H _]]]]. destruct (i - b); discriminate.
  - assert (Htail : In i (Cypher.positions_from (S b) p ns)
                    <-> S b <= i /\ exists n', nth_error (n :: ns) (i - b) = Some n'
                                              /\ p n' = true).
    { rewrite IH. split.
      - intros [Hle (n' & Hn & Hp)]. split; [exact Hle|]. exists n'.
        replace (i - b) with (S (i - S b)) by lia. split; assumption.
      - intros [Hle (n' & Hn & Hp)]. split; [exact Hle|]. exists n'.
        replace (i - b) with (S (i - S b)) in Hn by lia. split; assumption. }
    destruct (p n) eqn:Hpn.
    + cbn [In]. rewrite Htail. split.
      * intros [<- | [Hle H]].
        -- split; [lia|]. exists n. rewrite Nat.sub_diag. split; [reflexivity | exact Hpn].
        -- split; [lia | exact H].
      * intros [Hle H]. destruct (Nat.eq_dec b i) as [-> | Hne]; [left; reflexivity|].
        right. split; [lia | exact H].
    + rewrite Htail. split.
      * intros [Hle H]. split; [lia | exact H].
      * intros [Hle (n' & Hn & Hp)]. split.
        -- destruct (Nat.eq_dec b i) as [-> | Hne]; [|lia].
           rewrite Nat.sub_diag in Hn. cbn in Hn. congruence.
        -- exists n'. split; assumption.
Qed.

Lemma match_nodes_spec (p : Node -> bool) (g : Graph) (i : NodeId) :
  In i (Cypher.match_nodes p g)
  <-> exists n, nth_error (nodes g) i = Some n /\ p n = true.
Proof.
  unfold Cypher.match_nodes. rewrite positions_from_spec, Nat.sub_0_r.
  split; [intros [_ H]; exact H | intros H; split; [lia | exact H]].
Qed.

Lemma in_pairs (xs ys : list NodeId) (x y : NodeId) :
  In (x, y) (Cypher.pairs xs ys) <-> In x xs /\ In y ys.
Proof.
  unfold Cypher.pairs. rewrite in_flat_map. split.
  - intros (x' & Hx & Hin). apply in_map_iff in Hin as (y' & Heq & Hy).
    injection Heq as -> ->. split; assumption.
  - intros [Hx Hy]. exists x. split; [exact Hx|]. apply in_map. exact Hy.
Qed.

Lemma edge_eqb_eq (a b : Edge) : edge_eqb a b = true <-> a = b.
Proof.
  destruct a as [[s1 t1] d1], b as [[s2 t2] d2]. cbn [edge_eqb].
  rewrite !andb_true_iff, !Nat.eqb_eq. split.
  - intros [[-> Ht] ->]. destruct t1, t2; try discriminate; reflexivity.
  - intros H. injection H as -> -> ->. split_all; try reflexivity.
    destruct t2; reflexivity.
Qed.

Lemma merge_edge_nodes (e : Edge) (g : Graph) :
  nodes (Cypher.merge_edge e g) = nodes g.
Proof. unfold Cypher.merge_edge. destruct (existsb _ _); reflexivity. Qed.

Lemma merge_edge_in (e : Edge) (g : Graph) : In e (edges (Cypher.merge_edge e g)).
Proof.
  unfold Cypher.merge_edge. destruct (existsb (edge_eqb e) (edges g)) eqn:H.
  - apply existsb_exists in H as (e' & Hin & Heq).
    apply edge_eqb_eq in Heq. subst e'. exact Hin.
  - cbn. apply in_or_app. right. left. reflexivity.
Qed.

Lemma merge_edge_incl (e : Edge) (g : Graph) :
  incl (edges g) (edges (Cypher.merge_edge e g)).
Proof.
  unfold Cypher.merge_edge. destruct (existsb _ _).
  - apply incl_refl.
  - cbn. apply incl_appl, incl_refl.
Qed.

Lemma merge_edges_nodes (t : RelType) (rows : list (NodeId * NodeId)) :
  forall g, nodes (Cypher.merge_edges t rows g) = nodes g.
Proof.
  unfold Cypher.merge_edges.
  induction rows as [|r rows IH]; intros g; cbn [fold_left]; [reflexivity|].
  rewrite IH. apply merge_edge_nodes.
Qed.

Lemma merge_edges_incl (t : RelType) (rows : list (NodeId * NodeId)) :
  forall g, incl (edges g) (edges (Cypher.merge_edges t rows g)).
Proof.
  unfold Cypher.merge_edges.
  induction rows as [|r rows IH]; intros g; cbn [fold_left]; [apply incl_refl|].
  eapply incl_tran; [apply merge_edge_incl | apply IH].
Qed.

Lemma merge_edges_in (t : RelType) (rows : list (NodeId * NodeId)) :
  forall g x y, In (x, y) rows -> In (x, t, y) (edges (Cypher.merge_edges t rows g)).
Proof.
  induction rows as [|r rows IH]; intros g x y; [intros []|].
  intros [-> | Hin].
  - unfold Cypher.merge_edges. cbn [fold_left fst snd].
    apply (merge_edges_incl t rows). apply merge_edge_in.
  - unfold Cypher.merge_edges. cbn [fold_left]. apply IH. exact Hin.
Qed.

(** ** The linking pass *)

Lemma link_references_nodes (k : Key) (code : pystr) (g : Graph) :
  nodes (fst (Cypher.link_references k code g)) = nodes g.
Proof. apply merge_edges_nodes. Qed.

Lemma link_rows_nodes (k : Key) (code : pystr) (g g' : Graph) :
  nodes g' = nodes g -> Cypher.link_rows k code g' = Cypher.link_rows k code g.
Proof.
  intros H. unfold Cypher.link_rows, Cypher.match_nodes. rewrite H. reflexivity.
Qed.

Lemma link_step_fst (st : Graph * nat) (c : Key * pystr) :
  fst (Ingested.link_step st c)
  = fst (Cypher.link_references (fst c) (snd c) (fst st)).
Proof.
  unfold Ingested.link_step.
  destruct (Cypher.link_references (fst c) (snd c) (fst st)); reflexivity.
Qed.

Lemma link_fold_nodes (cs : list (Key * pystr)) : forall st,
  nodes (fst (fold_left Ingested.link_step cs st)) = nodes (fst st).
Proof.
  induction cs as [|c cs IH]; intros st; cbn [fold_left]; [reflexivity|].
  rewrite IH, link_step_fst. apply link_references_nodes.
Qed.

Lemma link_fold_incl (cs : list (Key * pystr)) : forall st,
  incl (edges (fst st)) (edges (fst (fold_left Ingested.link_step cs st))).
Proof.
  induction cs as [|c cs IH]; intros st; cbn [fold_left]; [apply incl_refl|].
  eapply incl_tran; [|apply IH]. rewrite link_step_fst.
  apply merge_edges_incl.
Qed.

Lemma link_fold_in (cs : list (Key * pystr)) : forall st k code x y,
  In (k, code) cs ->
  In (x, y) (Cypher.link_rows k code (fst st)) ->
  In (x, REFERENCES, y) (edges (fst (fold_left Ingested.link_step cs st))).
Proof.
  induction cs as [|c cs IH]; intros st k code x y; [intros []|].
  cbn [fold_left]. intros [-> | Hin] Hrow.
  - apply (link_fold_incl cs). rewrite link_step_fst. cbn [fst snd].
    apply merge_edges_in. exact Hrow.
  - apply (IH _ k code); [exact Hin|].
    rewrite (link_rows_nodes k code (fst st)); [exact Hrow|].
    rewrite link_step_fst. apply link_references_nodes.
Qed.

Lemma links_nodes (g : Graph) : nodes (fst (Ingested.links g)) = nodes g.
Proof. unfold Ingested.links. apply link_fold_nodes. Qed.

Lemma fetch_notes_in (g : Graph) (i : NodeId) (k : Key) (ty num : Value)
    (content : pystr) :
  nth_error (nodes g) i = Some (EngineeringNote k ty num content) ->
  In (k, content) (Cypher.fetch_notes g).
Proof.
  intros H. unfold Cypher.fetch_notes. apply in_flat_map.
  exists (EngineeringNote k ty num content). split.
  - eapply nth_error_In. exact H.
  - left. reflexivity.
Qed.

Lemma citations_in (g : Graph) (k : Key) (content code_num : pystr) :
  In (k, content) (Cypher.fetch_notes g) ->
  In code_num (Re.findall content) ->
  In (k, code_num) (Ingested.citations g).
Proof.
  intros Hn Hc. unfold Ingested.citations. apply in_flat_map.
  exists (k, content). split; [exact Hn|].
  cbn [fst snd]. apply in_map. exact Hc.
Qed.

(** Every citation of a note is linked to every standard whose code
    contains the digits. *)
Lemma links_complete (g : Graph) (i j : NodeId) (k : Key) (ty num : Value)
    (content code_num : pystr) (s : Node) :
  nth_error (nodes g) i = Some (EngineeringNote k ty num content) ->
  In code_num (Re.findall content) ->
  nth_error (nodes g) j = Some s ->
  Cypher.code_contains code_num s = true ->
  In (i, REFERENCES, j) (edges (fst (Ingested.links g))).
Proof.
  intros Hi Hc Hj Hs. unfold Ingested.links.
  apply (link_fold_in _ (g, 0) k code_num).
  - eapply citations_in; [eapply fetch_notes_in; exact Hi | exact Hc].
  - cbn [fst]. unfold Cypher.link_rows. apply in_pairs. split.
    + apply match_nodes_spec. eexists. split; [exact Hi|].
      cbn. apply key_eqb_refl.
    + apply match_nodes_spec. eexists. split; [exact Hj | exact Hs].
Qed.

(** C1.  For every EngineeringNote of the graph, the linking pass
    extracts every occurrence in its content of "STD", optional
    whitespace and one or more digits, and for each extracted digit
    sequence it leaves a REFERENCES edge from the note to every
    StandardDocument whose standard_code has the digits as a substring.
    The pass always returns and leaves the nodes as they were. *)
Theorem linking_pass_links_every_citation (w : World) :
  exists w',
    Ingest.create_relationships w = (Ok tt, w')
    /\ nodes (db w') = nodes (db w)
    /\ forall i note_id note_type note_number content code_num,
         nth_error (nodes (db w)) i
         = Some (EngineeringNote note_id note_type note_number content) ->
         Spec.cites content code_num ->
         In code_num (Re.findall content)
         /\ forall j doc_id standard_code title total_pages timestamp embedding,
              nth_error (nodes (db w)) j
              = Some (StandardDocument doc_id standard_code title total_pages
                        timestamp embedding) ->
              Spec.substring code_num standard_code ->
              In (i, REFERENCES, j) (edges (db w')).
Proof.
  eexists. split; [apply create_relationships_spec|]. cbn [db].
  split; [apply links_nodes|].
  intros i k ty num content code_num Hi Hcites.
  apply findall_spec in Hcites. split; [exact Hcites|].
  intros j d code title pages ts emb Hj Hsub.
  eapply links_complete; [exact Hi | exact Hcites | exact Hj |].
  cbn. apply contains_spec. exact Hsub.
Qed.

(** The note of the sample cites "12" and is linked to "STD 1234". *)
Lemma linking_pass_witness :
  In (1, REFERENCES, 4)
     (edges (db (snd (Ingest.create_relationships Sample.loaded)))).
Proof.
  destruct (linking_pass_links_every_citation Sample.loaded)
    as (w' & Hrun & _ & Hlinks).
  rewrite Hrun. cbn [snd].
  refine (proj2 (Hlinks 1 (KInt 10) (VText (py "general")) VNull
                   (py "Bolt per STD 12") (py "12") _ _)
            4 (KInt 101) (py "STD 1234") None VNull VNull
            (Sample.vector_of (py "STD 1234 ")) _ _).
  - vm_compute. reflexivity.
  - exists (py "Bolt per "), [32%N], []. split_all.
    + vm_compute. reflexivity.
    + right. exists 32%N. split; reflexivity.
    + split; [vm_compute; discriminate | vm_compute; repeat constructor].
    + exact I.
  - vm_compute. reflexivity.
  - exists (py "STD "), (py "34"). vm_compute. reflexivity.
Defined.

(** C7.  A note whose content is "Bolt per STD 12" cites the digits
    "12" only; "12" is a proper substring of the code "STD 1234" of a
    standard the note does not name, and the ingestion links the note to
    that standard as well as to "STD 12". *)
Theorem short_code_links_unrelated_standard :
  let g := db Sample.ingested in
  nth_error (nodes g) 1
  = Some (EngineeringNote (KInt 10) (VText (py "general")) VNull
            (py "Bolt per STD 12"))
  /\ Re.findall (py "Bolt per STD 12") = [py "12"]
  /\ nth_error (nodes g) 3
     = Some (StandardDocument (KInt 100) (py "STD 12") (Some (py "Bolts"))
               (VInt 12) VNull (Sample.vector_of (py "STD 12 Bolts")))
  /\ nth_error (nodes g) 4
     = Some (StandardDocument (KInt 101) (py "STD 1234") None VNull VNull
               (Sample.vector_of (py "STD 1234 ")))
  /\ contains (py "STD 1234") (py "12") = true
  /\ PyStr.eqb (py "12") (py "1234") = false
  /\ In (1, REFERENCES, 3) (edges g)
  /\ In (1, REFERENCES, 4) (edges g).
Proof.
  cbv zeta. split_all; try (vm_compute; reflexivity).
  - vm_compute. right. right. left. reflexivity.
  - vm_compute. right. right. right. left. reflexivity.
Qed.

(** ** Notes and their files *)

Lemma create_note_fold (note : Node) (cs : list NodeId) : forall g,
  let g' :=
    fold_left
      (fun g c => Cypher.add_edge (c, HAS_NOTE, List.length (nodes g))
                    (Cypher.add_node note g)) cs g in
  nodes g' = nodes g ++ map (fun _ => note) cs
  /\ edges g'
     = edges g
       ++ map (fun cn => (fst cn, HAS_NOTE, snd cn))
            (combine cs (seq (List.length (nodes g)) (List.length cs)))
  /\ constraints g' = constraints g
  /\ indexes g' = indexes g.
Proof.
  induction cs as [|c cs IH]; intros g; cbn [fold_left].
  - cbn. rewrite !app_nil_r. split_all; reflexivity.
  - specialize (IH (Cypher.add_edge (c, HAS_NOTE, List.length (nodes g))
                      (Cypher.add_node note g))).
    cbv zeta in IH. destruct IH as (Hn & He & Hc & Hi).
    cbn [Cypher.add_edge Cypher.add_node with_edges with_nodes nodes edges
           constraints indexes] in Hn, He, Hc, Hi.
    rewrite length_app in He. cbn [List.length] in He.
    rewrite Nat.add_1_r in He.
    cbv zeta. rewrite Hn, He, Hc, Hi. cbn [map combine seq List.length fst snd].
    rewrite <- !app_assoc. split_all; reflexivity.
Qed.

(** C10.  The statement that ingests a note row never raises.  It
    creates one EngineeringNote per CADFile node carrying the file_id of
    the row, each attached by one HAS_NOTE edge to that CADFile, and
    nothing else; for a row whose file_id no CADFile node carries, it
    leaves the graph as it was. *)
Theorem note_is_attached_to_its_file_or_skipped
    (r : cad_engineering_notes.row) (w : World) :
  let fid := cad_engineering_notes.file_id r in
  let files := Cypher.match_nodes (Cypher.is_cad_file fid) (db w) in
  let note :=
    EngineeringNote (cad_engineering_notes.id r)
      (cad_engineering_notes.note_type r) (cad_engineering_notes.note_code r)
      (cad_engineering_notes.note_value r) in
  exists g',
    run (Cypher.CreateNote r) w
    = (Ok Cypher.NoRecords,
       {| db := g'; trace := trace w ++ [Run (Cypher.CreateNote r)] |})
    /\ nodes g' = nodes (db w) ++ map (fun _ => note) files
    /\ edges g'
       = edges (db w)
         ++ map (fun cn => (fst cn, HAS_NOTE, snd cn))
              (combine files
                 (seq (List.length (nodes (db w))) (List.length files)))
    /\ (forall c, In c files <->
          exists name type part rev size status,
            nth_error (nodes (db w)) c
            = Some (CADFile fid name type part rev size status))
    /\ ((forall k name type part rev size status,
           In (CADFile k name type part rev size status) (nodes (db w)) ->
           k <> fid) ->
        g' = db w).
Proof.
  cbv zeta.
  set (fid := cad_engineering_notes.file_id r).
  set (files := Cypher.match_nodes (Cypher.is_cad_file fid) (db w)).
  exists (Cypher.create_note r (db w)).
  pose proof (create_note_fold
                (EngineeringNote (cad_engineering_notes.id r)
                   (cad_engineering_notes.note_type r)
                   (cad_engineering_notes.note_code r)
                   (cad_engineering_notes.note_value r))
                files (db w)) as H.
  cbv zeta in H. fold (Cypher.create_note r (db w)) in H.
  destruct H as (Hn & He & Hc & Hi).
  assert (Hfiles : forall c, In c files <->
            exists name type part rev size status,
              nth_error (nodes (db w)) c
              = Some (CADFile fid name type part rev size status)).
  { intros c. unfold files. rewrite match_nodes_spec. split.
    - intros (n & Hnth & Hp). destruct n; try discriminate.
      cbn in Hp. apply key_eqb_eq in Hp. subst file_id.
      repeat eexists. exact Hnth.
    - intros (a1 & a2 & a3 & a4 & a5 & a6 & Hnth). eexists. split; [exact Hnth|].
      cbn. apply key_eqb_refl. }
  split_all.
  - rewrite run_exec. reflexivity.
  - exact Hn.
  - exact He.
  - exact Hfiles.
  - intros Hnone.
    assert (Hempty : files = []).
    { destruct files as [|c rest] eqn:E; [reflexivity|]. exfalso.
      destruct (proj1 (Hfiles c) (or_introl eq_refl))
        as (a1 & a2 & a3 & a4 & a5 & a6 & Hnth).
      apply nth_error_In in Hnth. apply Hnone in Hnth. congruence. }
    unfold Cypher.create_note. fold fid. fold files. rewrite Hempty. reflexivity.
Qed.

(** The note of file 99, which is not among the files of the sample, leaves
    the graph as it is. *)
Lemma note_without_file_witness :
  db (snd (run (Cypher.CreateNote Sample.orphan_note) Sample.loaded))
  = db Sample.loaded.
Proof.
  destruct (note_is_attached_to_its_file_or_skipped Sample.orphan_note Sample.loaded)
    as (g' & Hrun & _ & _ & _ & Hskip).
  rewrite Hrun. cbn [snd db]. apply Hskip.
  intros k name type part rev size status Hin Hk.
  vm_compute in Hin, Hk. subst k.
  repeat (destruct Hin as [Hin | Hin]; [discriminate Hin|]).
  exact Hin.
Defined.

(** ** Standards and their embeddings *)

Lemma nth_error_combine_intro {A B} (xs : list A) (ys : list B) :
  forall i x y,
    nth_error xs i = Some x -> nth_error ys i = Some y ->
    nth_error (combine xs ys) i = Some (x, y).
Proof.
  revert ys. induction xs as [|x0 xs IH]; intros [|y0 ys] [|i] x y Hx Hy;
    try discriminate.
  - cbn in *. congruence.
  - cbn in *. apply IH; assumption.
Qed.

Lemma nth_error_combine_elim {A B} (xs : list A) (ys : list B) :
  forall i x y,
    nth_error (combine xs ys) i = Some (x, y) ->
    nth_error xs i = Some x /\ nth_error ys i = Some y.
Proof.
  revert ys. induction xs as [|x0 xs IH]; intros [|y0 ys] [|i] x y H;
    try discriminate.
  - cbn in *. injection H as -> ->. split; reflexivity.
  - cbn in *. apply IH. exact H.
Qed.

Lemma text_to_embed_spec (doc : rds_documents.row) :
  Ingest.text_to_embed doc = Spec.embedding_text doc.
Proof.
  unfold Ingest.text_to_embed, Spec.embedding_text.
  destruct (rds_documents.title doc) as [[|c t]|]; reflexivity.
Qed.

Lemma merge_node_in (p : Node -> bool) (new : Node) (g : Graph) :
  In new (nodes (Cypher.merge_node p new g)).
Proof.
  unfold Cypher.merge_node. destruct (existsb p (nodes g)) eqn:H.
  - apply existsb_exists in H as (n & Hin & Hp).
    cbn. apply in_map_iff. exists n. rewrite Hp. split; [reflexivity | exact Hin].
  - cbn. apply in_or_app. right. left. reflexivity.
Qed.

Lemma merge_node_keeps (p : Node -> bool) (new n : Node) (g : Graph) :
  In n (nodes g) -> p n = false -> In n (nodes (Cypher.merge_node p new g)).
Proof.
  intros Hin Hp. unfold Cypher.merge_node. destruct (existsb p (nodes g)).
  - cbn. apply in_map_iff. exists n. rewrite Hp. split; [reflexivity | exact Hin].
  - cbn. apply in_or_app. left. exact Hin.
Qed.

(** The vector of a row stays on its node unless a later row has the
    same doc_id. *)
Lemma rds_last_writer (dvs : list (rds_documents.row * list float)) :
  forall (g : Graph) (i : nat) (d : rds_documents.row) (v : list float),
    nth_error dvs i = Some (d, v) ->
    (forall i' d' v', i < i' -> nth_error dvs i' = Some (d', v') ->
                      rds_documents.doc_id d' <> rds_documents.doc_id d) ->
    In (Spec.standard_node d v) (nodes (Ingested.rds dvs g)).
Proof.
  assert (Hkeep : forall dvs g n k,
             In n (nodes g) ->
             Cypher.is_standard k n = true ->
             (forall d' v', In (d', v') dvs -> rds_documents.doc_id d' <> k) ->
             In n (nodes (Ingested.rds dvs g))).
  { clear. induction dvs as [|[d' v'] dvs IH]; intros g n k Hin Hk Hother.
    - exact Hin.
    - unfold Ingested.rds. cbn [fold_left fst snd].
      apply (IH _ n k).
      + apply merge_node_keeps; [exact Hin|].
        destruct n; try discriminate. cbn in Hk |- *.
        apply key_eqb_eq in Hk. subst doc_id.
        destruct (key_eqb k (rds_documents.doc_id d')) eqn:E; [|reflexivity].
        apply key_eqb_eq in E. exfalso.
        apply (Hother d' v'); [left; reflexivity | congruence].
      + exact Hk.
      + intros d2 v2 H2. apply (Hother d2 v2). right. exact H2. }
  induction dvs as [|[d0 v0] dvs IH]; intros g i d v Hnth Hlater.
  - destruct i; discriminate.
  - destruct i as [|i].
    + cbn in Hnth. injection Hnth as -> ->.
      unfold Ingested.rds. cbn [fold_left fst snd].
      apply (Hkeep dvs _ _ (rds_documents.doc_id d)).
      * apply merge_node_in.
      * cbn. apply key_eqb_refl.
      * intros d' v' Hin. apply In_nth_error in Hin as [i' Hi'].
        apply (Hlater (S i') d' v'); [lia | exact Hi'].
    + unfold Ingested.rds. cbn [fold_left]. apply (IH _ i d v).
      * exact Hnth.
      * intros i' d' v' Hlt Hi'. apply (Hlater (S i') d' v'); [lia | exact Hi'].
Qed.

(** C9.  When the standards phase completes, the documents were read
    and, row by row in order, the text submitted to the embedding model
    was the standard_code, one space and the title (the empty string for
    a missing title), and the vector returned was passed to the statement
    that writes the row; the node of every row carries that vector in the
    end, unless a later row has the same doc_id. *)
Theorem embedded_text_and_stored_vector (env : Env) (w w' : World) :
  Ingest.ingest_rds_data env w = (Ok tt, w') ->
  exists docs vs,
    select_rds_documents env = Ok docs
    /\ Forall2 (fun d v => embed_query env (Spec.embedding_text d) = Ok v) docs vs
    /\ trace w'
       = trace w
         ++ [Print (py "Ingesting RDS data..."); SqlSelect "rds_documents"]
         ++ flat_map
              (fun dv => [EmbedQuery (Spec.embedding_text (fst dv));
                          Run (Cypher.MergeStandard (fst dv) (snd dv))])
              (combine docs vs)
         ++ [Print (py "Ingested " ++ str_of_nat (List.length docs)
                    ++ py " RDS documents.")]
    /\ forall i d v,
         nth_error docs i = Some d ->
         nth_error vs i = Some v ->
         (forall i' d', i < i' -> nth_error docs i' = Some d' ->
                        rds_documents.doc_id d' <> rds_documents.doc_id d) ->
         In (Spec.standard_node d v) (nodes (db w')).
Proof.
  intros Hrun.
  destruct (ingest_rds_data_inv env w w' Hrun) as (docs & vs & Hd & Hv).
  rewrite (ingest_rds_data_spec env w docs vs Hd Hv) in Hrun.
  injection Hrun as <-.
  exists docs, vs. split_all.
  - exact Hd.
  - eapply Forall2_impl; [|exact Hv].
    intros d v H. cbn beta in H. rewrite <- text_to_embed_spec. exact H.
  - cbn [trace]. unfold Ingested.rds_events, Ingested.rds_loop_events.
    rewrite (embedded_length env docs vs Hv).
    do 2 f_equal. f_equal.
    apply flat_map_ext. intros dv. rewrite text_to_embed_spec. reflexivity.
  - cbn [db]. intros i d v Hi Hvi Hlater.
    apply (rds_last_writer (combine docs vs) _ i).
    + apply nth_error_combine_intro; assumption.
    + intros i' d' v' Hlt Hi'. apply (Hlater i' d' Hlt).
      apply (nth_error_combine_elim _ _ _ _ _ Hi').
Qed.

(** The vector returned for "STD 1234 " is on the node of the second row
    of the sample. *)
Lemma embedded_text_witness :
  In (Spec.standard_node Sample.std1234 (Sample.vector_of (py "STD 1234 ")))
     (nodes (db (snd (Ingest.ingest_rds_data Sample.env Sample.world)))).
Proof.
  assert (Hrun : Ingest.ingest_rds_data Sample.env Sample.world
                 = (Ok tt, snd (Ingest.ingest_rds_data Sample.env Sample.world))).
  { vm_compute. reflexivity. }
  destruct (embedded_text_and_stored_vector Sample.env Sample.world _ Hrun)
    as (docs & vs & Hd & Hv & _ & Hnode).
  cbn in Hd. injection Hd as <-.
  inversion Hv as [|d1 v1 ds1 vs1 H1 Hv1]; subst.
  inversion Hv1 as [|d2 v2 ds2 vs2 H2 Hv2]; subst.
  inversion Hv2; subst.
  cbn in H2. injection H2 as <-.
  apply (Hnode 1).
  - reflexivity.
  - reflexivity.
  - intros [|[|[|i']]] d' Hlt Hi'; try lia; discriminate.
Defined.

(** ** The environment check *)

Lemma all_set_false (env : Env) :
  truthy (getenv env "NEO4J_URI") = false
  \/ truthy (getenv env "NEO4J_USERNAME") = false
  \/ truthy (getenv env "NEO4J_PASSWORD") = false ->
  all_set env = false.
Proof.
  unfold all_set. intros [H | [H | H]]; rewrite H.
  - reflexivity.
  - apply andb_false_iff. left. apply andb_false_r.
  - apply andb_false_r.
Qed.

(** C6.  When one of NEO4J_URI, NEO4J_USERNAME, NEO4J_PASSWORD is
    missing (not set, or empty), each of the three scripts prints its
    message and stops: the ingestion and query scripts exit with status
    1, the verification returns; the graph is untouched and no event
    reaches the graph database, the embedding service or the chat
    model. *)
Theorem missing_variable_stops_before_any_service (env : Env) (w : World) :
  truthy (getenv env "NEO4J_URI") = false
  \/ truthy (getenv env "NEO4J_USERNAME") = false
  \/ truthy (getenv env "NEO4J_PASSWORD") = false ->
  let ingest_events :=
    [Print (py "Error: Missing environment variables. Please check your .env file.");
     Exit 1] in
  let query_events :=
    [Print (py "Error: Missing environment variables."); Exit 1] in
  let verify_events :=
    [Print (py "Verifying Setup...");
     Print (py "FAILED: Missing environment variables.")] in
  Ingest.script env w = {| db := db w; trace := trace w ++ ingest_events |}
  /\ GraphragApp.script env w = {| db := db w; trace := trace w ++ query_events |}
  /\ VerifySetup.script env w = {| db := db w; trace := trace w ++ verify_events |}
  /\ existsb contacts_service (ingest_events ++ query_events ++ verify_events) = false.
Proof.
  intros H. apply all_set_false in H. cbv zeta.
  unfold Ingest.script, GraphragApp.script, VerifySetup.script, VerifySetup.verify.
  rewrite H. unfold bind, print, emit, log. cbn [db trace snd].
  rewrite <- !app_assoc. split_all; reflexivity.
Qed.

(** Without the password the ingestion script prints its message and
    exits. *)
Lemma missing_variable_witness :
  trace (Ingest.script Sample.env_without_password Sample.world)
  = [Print (py "Error: Missing environment variables. Please check your .env file.");
     Exit 1].
Proof.
  destruct (missing_variable_stops_before_any_service
              Sample.env_without_password Sample.world) as (H & _).
  - right. right. vm_compute. reflexivity.
  - rewrite H. reflexivity.
Defined.

(** ** The query script *)

(** C8, as stated, fails.  With a question on the command line, the chat model unreachable
    and all variables set, no answer is printed; with a question and the
    password missing, no query runs. *)
Lemma query_without_answer :
  1 < List.length (argv Sample.env_chat_down)
  /\ (forall answer,
        ~ In (Print (py "Answer: " ++ answer))
             (trace (GraphragApp.script Sample.env_chat_down Sample.world)))
  /\ 1 < List.length (argv Sample.env_without_password)
  /\ (forall question,
        ~ In (RagSearch question)
             (trace (GraphragApp.script Sample.env_without_password Sample.world))).
Proof.
  split_all.
  - vm_compute. lia.
  - intros answer H. vm_compute in H.
    repeat (destruct H as [H | H]; [discriminate H|]). exact H.
  - vm_compute. lia.
  - intros question H. vm_compute in H.
    repeat (destruct H as [H | H]; [discriminate H|]). exact H.
Qed.

(** C8, amended.  With the three variables set, the query script
    creates its clients and then: given at least one argument after the
    script name, it joins them with single spaces into the question,
    prints the question, invokes the chain on it, and prints the answer
    if the chain returns one, or the traceback and an error message if it
    raises; given no argument, it prints the usage message and runs no
    query. *)
Theorem query_script_behaviour (env : Env) (w : World) :
  all_set env = true ->
  let startup :=
    [DriverOpen (env_value env "NEO4J_URI") (env_value env "NEO4J_USERNAME")
       (env_value env "NEO4J_PASSWORD");
     EmbedderInit "nomic-embed-text-v2-moe:latest";
     RetrieverInit "standard_embeddings";
     ChatModelInit "llama3.2:latest"] in
  let question := join [32%N] (tl (argv env)) in
  db (GraphragApp.script env w) = db w
  /\ (1 < List.length (argv env) ->
      trace (GraphragApp.script env w)
      = trace w ++ startup
        ++ [Print (10%N :: py "Question: " ++ question); RagSearch question]
        ++ match rag_search env question with
           | Ok answer => [Print (py "Answer: " ++ answer)]
           | Raise e => [PrintTraceback e; Print (py "Error processing query: " ++ e)]
           end)
  /\ (List.length (argv env) <= 1 ->
      trace (GraphragApp.script env w)
      = trace w ++ startup
        ++ [Print (py "Usage: python graphrag_app.py 'Your question here'")]).
Proof.
  intros Hset. cbv zeta.
  unfold GraphragApp.script, GraphragApp.main. rewrite Hset.
  destruct (Nat.ltb 1 (List.length (argv env))) eqn:Hargs.
  - apply Nat.ltb_lt in Hargs.
    unfold GraphragApp.query_graph, GraphragApp.newline, driver_open, embedding_model.
    unfold bind, try_except, print, emit, raise, log. cbn [db trace].
    change (py " ") with [32%N].
    destruct (rag_search env (join [32%N] (tl (argv env)))) as [answer|e];
      cbn [snd db trace]; split_all; try reflexivity; try lia;
      intros _; rewrite <- ?app_assoc; reflexivity.
  - apply Nat.ltb_ge in Hargs.
    unfold driver_open, embedding_model, bind, print, emit, log. cbn [snd db trace].
    split_all; try reflexivity; try lia.
    intros _. rewrite <- ?app_assoc. reflexivity.
Qed.

(** The query script on the sample, with the question "which standard?". *)
Lemma query_script_witness :
  trace (GraphragApp.script Sample.env Sample.world)
  = [DriverOpen (py "bolt://localhost:7687") (py "neo4j") (py "secret");
     EmbedderInit "nomic-embed-text-v2-moe:latest";
     RetrieverInit "standard_embeddings";
     ChatModelInit "llama3.2:latest";
     Print (10%N :: py "Question: which standard?");
     RagSearch (py "which standard?");
     Print (py "Answer: STD 12 applies.")].
Proof.
  destruct (query_script_behaviour Sample.env Sample.world) as (_ & H & _).
  - vm_compute. reflexivity.
  - rewrite H.
    + vm_compute. reflexivity.
    + vm_compute. lia.
Defined.

(** ** Data of the graph and schema *)

Lemma fold_left_commute {G G' X} (F : G -> G') (step : G -> X -> G)
    (step' : G' -> X -> G') (xs : list X) :
  (forall g x, F (step g x) = step' (F g) x) ->
  forall g, F (fold_left step xs g) = fold_left step' xs (F g).
Proof.
  intros H. induction xs as [|x xs IH]; intros g; cbn [fold_left]; [reflexivity|].
  rewrite IH, H. reflexivity.
Qed.


Lemma blind_is_cad_file k : blind (Cypher.is_cad_file k).
Proof. intros h []; reflexivity. Qed.

Lemma blind_is_note_with_id k : blind (Cypher.is_note_with_id k).
Proof. intros h []; reflexivity. Qed.

Lemma blind_is_material k : blind (Cypher.is_material k).
Proof. intros h []; reflexivity. Qed.

Lemma blind_is_standard k : blind (Cypher.is_standard k).
Proof. intros h []; reflexivity. Qed.

Lemma blind_code_contains c : blind (Cypher.code_contains c).
Proof. intros h []; reflexivity. Qed.

Lemma positions_from_blind (p : Node -> bool) (h : list float -> list float) :
  blind p ->
  forall ns b,
    Cypher.positions_from b p (map (map_embedding h) ns)
    = Cypher.positions_from b p ns.
Proof.
  intros Hp. induction ns as [|n ns IH]; intros b; cbn [map Cypher.positions_from].
  - reflexivity.
  - rewrite Hp, !IH. reflexivity.
Qed.

Lemma match_nodes_data (p : Node -> bool) (h : list float -> list float) (g : Graph) :
  blind p -> Cypher.match_nodes p (data h g) = Cypher.match_nodes p g.
Proof. intros Hp. apply positions_from_blind. exact Hp. Qed.

Lemma existsb_blind (p : Node -> bool) (h : list float -> list float) (ns : list Node) :
  blind p -> existsb p (map (map_embedding h) ns) = existsb p ns.
Proof.
  intros Hp. induction ns as [|n ns IH]; cbn [map existsb]; [reflexivity|].
  rewrite Hp, IH. reflexivity.
Qed.

Lemma merge_node_data (p : Node -> bool) (new : Node)
    (h : list float -> list float) (g : Graph) :
  blind p ->
  data h (Cypher.merge_node p new g)
  = Cypher.merge_node p (map_embedding h new) (data h g).
Proof.
  intros Hp. unfold Cypher.merge_node. cbn [data nodes].
  rewrite (existsb_blind p h (nodes g) Hp).
  destruct (existsb p (nodes g)).
  - unfold data, Cypher.set_where, with_nodes. cbn [nodes edges]. f_equal.
    rewrite !map_map. apply map_ext. intros n. rewrite Hp.
    destruct (p n); reflexivity.
  - unfold data, Cypher.add_node, with_nodes. cbn [nodes edges]. f_equal.
    apply map_app.
Qed.

Lemma merge_cad_file_data r h g :
  data h (Cypher.merge_cad_file r g) = Cypher.merge_cad_file r (data h g).
Proof.
  unfold Cypher.merge_cad_file. rewrite merge_node_data; [reflexivity|].
  apply blind_is_cad_file.
Qed.

Lemma merge_standard_data r v h g :
  data h (Cypher.merge_standard r v g) = Cypher.merge_standard r (h v) (data h g).
Proof.
  unfold Cypher.merge_standard. rewrite merge_node_data; [reflexivity|].
  apply blind_is_standard.
Qed.

Lemma create_note_data r h g :
  data h (Cypher.create_note r g) = Cypher.create_note r (data h g).
Proof.
  unfold Cypher.create_note.
  rewrite (match_nodes_data _ h g (blind_is_cad_file _)).
  apply fold_left_commute. intros g0 c.
  unfold data, Cypher.add_edge, Cypher.add_node, with_edges, with_nodes.
  cbn [nodes edges]. rewrite length_map, map_app. reflexivity.
Qed.

Lemma merge_edge_data e h g :
  data h (Cypher.merge_edge e g) = Cypher.merge_edge e (data h g).
Proof.
  unfold Cypher.merge_edge. cbn [data edges].
  destruct (existsb (edge_eqb e) (edges g)); reflexivity.
Qed.

Lemma merge_edges_data t rows h g :
  data h (Cypher.merge_edges t rows g) = Cypher.merge_edges t rows (data h g).
Proof.
  unfold Cypher.merge_edges. apply fold_left_commute.
  intros g0 row. apply merge_edge_data.
Qed.

Lemma merge_material_data r h g :
  data h (Cypher.merge_material r g) = Cypher.merge_material r (data h g).
Proof.
  unfold Cypher.merge_material.
  rewrite (match_nodes_data _ h g (blind_is_cad_file _)).
  destruct (Cypher.match_nodes _ g) as [|c cs]; [reflexivity|].
  match goal with
  | |- context [Cypher.merge_node ?p ?new (data h g)] =>
      assert (H1 : data h (Cypher.merge_node p new g)
                   = Cypher.merge_node p new (data h g))
        by (apply merge_node_data, blind_is_material)
  end.
  rewrite <- H1.
  rewrite (match_nodes_data _ h _ (blind_is_material _)).
  apply merge_edges_data.
Qed.

Lemma link_references_data k code h g :
  data h (fst (Cypher.link_references k code g))
  = fst (Cypher.link_references k code (data h g))
  /\ snd (Cypher.link_references k code g)
     = snd (Cypher.link_references k code (data h g)).
Proof.
  unfold Cypher.link_references, Cypher.link_rows. cbn [fst snd].
  rewrite (match_nodes_data _ h g (blind_is_note_with_id _)).
  rewrite (match_nodes_data _ h g (blind_code_contains _)).
  split; [apply merge_edges_data | reflexivity].
Qed.

Lemma fetch_notes_data h g : Cypher.fetch_notes (data h g) = Cypher.fetch_notes g.
Proof.
  unfold Cypher.fetch_notes. cbn [data nodes].
  induction (nodes g) as [|n ns IH]; [reflexivity|].
  cbn [map flat_map]. rewrite IH. destruct n; reflexivity.
Qed.

Lemma detach_delete_all_data h g : data h (Cypher.detach_delete_all g) = empty_graph.
Proof. reflexivity. Qed.

Lemma cad_data files notes materials h g :
  data h (Ingested.cad files notes materials g)
  = Ingested.cad files notes materials (data h g).
Proof.
  unfold Ingested.cad.
  rewrite (fold_left_commute (data h) _
             (fun g r => Cypher.merge_material r g))
    by (intros; apply merge_material_data).
  rewrite (fold_left_commute (data h) _
             (fun g r => Cypher.create_note r g))
    by (intros; apply create_note_data).
  rewrite (fold_left_commute (data h) _
             (fun g r => Cypher.merge_cad_file r g))
    by (intros; apply merge_cad_file_data).
  reflexivity.
Qed.

Lemma rds_data docs h : forall g,
  data h (Ingested.rds docs g)
  = Ingested.rds (map (fun dv => (fst dv, h (snd dv))) docs) (data h g).
Proof.
  unfold Ingested.rds. induction docs as [|[d v] docs IH]; intros g.
  - reflexivity.
  - cbn [map fold_left fst snd]. rewrite IH, merge_standard_data. reflexivity.
Qed.

Lemma citations_data h g : Ingested.citations (data h g) = Ingested.citations g.
Proof. unfold Ingested.citations. rewrite fetch_notes_data. reflexivity. Qed.

Lemma link_fold_data h cs : forall st,
  data h (fst (fold_left Ingested.link_step cs st))
  = fst (fold_left Ingested.link_step cs (data h (fst st), snd st))
  /\ snd (fold_left Ingested.link_step cs st)
     = snd (fold_left Ingested.link_step cs (data h (fst st), snd st)).
Proof.
  induction cs as [|c cs IH]; intros st; cbn [fold_left].
  - split; reflexivity.
  - assert (Hstep : Ingested.link_step (data h (fst st), snd st) c
                    = (data h (fst (Ingested.link_step st c)),
                       snd (Ingested.link_step st c))).
    { unfold Ingested.link_step. cbn [fst snd].
      destruct (link_references_data (fst c) (snd c) h (fst st)) as [H1 H2].
      destruct (Cypher.link_references (fst c) (snd c) (fst st)) as [g1 n1].
      destruct (Cypher.link_references (fst c) (snd c) (data h (fst st))) as [g2 n2].
      cbn [fst snd] in *. subst. reflexivity. }
    rewrite Hstep. apply IH.
Qed.

Lemma links_data h g :
  data h (fst (Ingested.links g)) = fst (Ingested.links (data h g))
  /\ snd (Ingested.links g) = snd (Ingested.links (data h g)).
Proof.
  unfold Ingested.links. rewrite citations_data.
  apply (link_fold_data h _ (g, 0)).
Qed.

(** The data of a completed ingestion is that of the ingestion of the
    same rows into the empty graph. *)
Lemma completed_graph_data h g1 files notes materials docs :
  data h (Completed.graph g1 files notes materials docs)
  = Completed.graph empty_graph files notes materials
      (map (fun dv => (fst dv, h (snd dv))) docs).
Proof.
  unfold Completed.graph, Completed.loaded.
  rewrite (proj1 (links_data h _)), rds_data, cad_data.
  reflexivity.
Qed.

Lemma data_counts h g :
  node_count (data h g) = node_count g /\ edge_count (data h g) = edge_count g.
Proof.
  unfold node_count, edge_count, data. cbn [nodes edges].
  rewrite length_map. split; reflexivity.
Qed.

Lemma map_embedding_id (n : Node) : map_embedding (fun v => v) n = n.
Proof. destruct n; reflexivity. Qed.

Lemma data_id_nodes g : nodes (data (fun v => v) g) = nodes g.
Proof.
  cbn [data nodes]. rewrite (map_ext _ (fun n => n) map_embedding_id).
  apply map_id.
Qed.

Lemma combine_no_vector (docs : list rds_documents.row) :
  forall vs : list (list float),
    List.length vs = List.length docs ->
    map (fun dv => (fst dv, no_vector (snd dv))) (combine docs vs)
    = map (fun d => (d, [])) docs.
Proof.
  induction docs as [|d docs IH]; intros [|v vs] H; try discriminate.
  - reflexivity.
  - cbn [combine map fst snd]. rewrite IH; [reflexivity|].
    cbn in H. lia.
Qed.

(** ** The schema through an ingestion *)

Lemma merge_edges_constraints t rows : forall g,
  constraints (Cypher.merge_edges t rows g) = constraints g.
Proof.
  unfold Cypher.merge_edges. induction rows as [|r rows IH]; intros g;
    cbn [fold_left]; [reflexivity|].
  rewrite IH. unfold Cypher.merge_edge. destruct (existsb _ _); reflexivity.
Qed.

Lemma merge_node_constraints p new g :
  constraints (Cypher.merge_node p new g) = constraints g.
Proof. unfold Cypher.merge_node. destruct (existsb _ _); reflexivity. Qed.

Lemma create_note_constraints r g :
  constraints (Cypher.create_note r g) = constraints g.
Proof.
  unfold Cypher.create_note.
  match goal with
  | |- constraints (fold_left _ ?cs g) = _ =>
      destruct (create_note_fold
                  (EngineeringNote (cad_engineering_notes.id r)
                     (cad_engineering_notes.note_type r)
                     (cad_engineering_notes.note_code r)
                     (cad_engineering_notes.note_value r)) cs g)
        as (_ & _ & H & _)
  end.
  exact H.
Qed.

Lemma merge_material_constraints r g :
  constraints (Cypher.merge_material r g) = constraints g.
Proof.
  unfold Cypher.merge_material. destruct (Cypher.match_nodes _ g); [reflexivity|].
  rewrite merge_edges_constraints. apply merge_node_constraints.
Qed.

Lemma fold_left_invariant {G X} (f : G -> X -> G) (P : G -> Prop) (xs : list X) :
  (forall g x, P g -> P (f g x)) -> forall g, P g -> P (fold_left f xs g).
Proof.
  intros H. induction xs as [|x xs IH]; intros g Hg; cbn [fold_left]; auto.
Qed.

Lemma cad_constraints files notes materials g :
  constraints (Ingested.cad files notes materials g) = constraints g.
Proof.
  unfold Ingested.cad.
  apply (fold_left_invariant _ (fun g' => constraints g' = constraints g)).
  { intros g' r H. rewrite merge_material_constraints. exact H. }
  apply (fold_left_invariant _ (fun g' => constraints g' = constraints g)).
  { intros g' r H. rewrite create_note_constraints. exact H. }
  apply (fold_left_invariant _ (fun g' => constraints g' = constraints g)).
  { intros g' r H. unfold Cypher.merge_cad_file.
    rewrite merge_node_constraints. exact H. }
  reflexivity.
Qed.

Lemma rds_constraints docs g :
  constraints (Ingested.rds docs g) = constraints g.
Proof.
  unfold Ingested.rds.
  apply (fold_left_invariant _ (fun g' => constraints g' = constraints g));
    [|reflexivity].
  intros g' r H. unfold Cypher.merge_standard.
  rewrite merge_node_constraints. exact H.
Qed.

Lemma links_constraints g :
  constraints (fst (Ingested.links g)) = constraints g.
Proof.
  unfold Ingested.links.
  apply (fold_left_invariant _
           (fun st : Graph * nat => constraints (fst st) = constraints g));
    [|reflexivity].
  intros st c H. rewrite link_step_fst. unfold Cypher.link_references.
  cbn [fst]. rewrite merge_edges_constraints. exact H.
Qed.

Lemma completed_graph_constraints g1 files notes materials docs :
  constraints (Completed.graph g1 files notes materials docs) = constraints g1.
Proof.
  unfold Completed.graph, Completed.loaded.
  rewrite links_constraints, rds_constraints, cad_constraints. reflexivity.
Qed.

Lemma constraint_eqb_refl (c : Constraint) : constraint_eqb c c = true.
Proof.
  unfold constraint_eqb. rewrite String.eqb_refl.
  destruct (fst c); reflexivity.
Qed.

Lemma create_constraint_has (c : Constraint) (g g' : Graph) :
  Cypher.create_constraint c g = Ok g' ->
  Cypher.has_constraint c g' = true
  /\ forall c', Cypher.has_constraint c' g = true ->
                Cypher.has_constraint c' g' = true.
Proof.
  unfold Cypher.create_constraint.
  destruct (Cypher.has_constraint c g) eqn:Hc.
  - intros H. injection H as <-. split; [exact Hc | auto].
  - destruct (Cypher.has_duplicate _); [discriminate|].
    intros H. injection H as <-. unfold Cypher.has_constraint. cbn [constraints].
    split.
    + rewrite existsb_app. cbn. rewrite constraint_eqb_refl.
      apply orb_true_iff. right. reflexivity.
    + intros c' H. rewrite existsb_app. unfold Cypher.has_constraint in H.
      rewrite H. reflexivity.
Qed.

Lemma create_constraint_present (c : Constraint) (g : Graph) :
  Cypher.has_constraint c g = true -> Cypher.create_constraint c g = Ok g.
Proof. unfold Cypher.create_constraint. intros ->. reflexivity. Qed.

(** After the set-up the three constraints of the script are there. *)
Lemma setup_has_constraints (g g1 : Graph) :
  Ingested.setup g = Ok g1 ->
  Cypher.has_constraint (L_CADFile, "file_id"%string) g1 = true
  /\ Cypher.has_constraint (L_StandardDocument, "doc_id"%string) g1 = true
  /\ Cypher.has_constraint (L_Section, "section_id"%string) g1 = true.
Proof.
  unfold Ingested.setup.
  destruct (Cypher.create_constraint _ g) as [ga|] eqn:Ha; [|discriminate].
  destruct (Cypher.create_constraint _ ga) as [gb|] eqn:Hb; [|discriminate].
  destruct (Cypher.create_constraint _ gb) as [gc|] eqn:Hc; [|discriminate].
  intros H. injection H as <-.
  apply create_constraint_has in Ha as [Ha _].
  apply create_constraint_has in Hb as [Hb Hb'].
  apply create_constraint_has in Hc as [Hc Hc'].
  assert (Hix : forall c, Cypher.has_constraint c gc = true ->
                          Cypher.has_constraint c
                            (Cypher.create_vector_index Ingest.standard_embeddings
                               (Cypher.drop_index "standard_embeddings" gc)) = true).
  { intros c H. unfold Cypher.has_constraint, Cypher.create_vector_index.
    destruct (existsb _ (indexes _)); exact H. }
  split_all; apply Hix; auto.
Qed.

(** With the three constraints present the set-up succeeds. *)
Lemma setup_with_constraints (g : Graph) :
  Cypher.has_constraint (L_CADFile, "file_id"%string) g = true ->
  Cypher.has_constraint (L_StandardDocument, "doc_id"%string) g = true ->
  Cypher.has_constraint (L_Section, "section_id"%string) g = true ->
  exists g1, Ingested.setup g = Ok g1.
Proof.
  intros Ha Hb Hc. unfold Ingested.setup.
  rewrite (create_constraint_present _ _ Ha).
  rewrite (create_constraint_present _ _ Hb).
  rewrite (create_constraint_present _ _ Hc).
  eexists. reflexivity.
Qed.

(** ** Completed runs *)

Lemma completed_run (env : Env) (w : World) :
  completes env w ->
  exists g1 files notes materials docs vs,
    Ingested.setup (db w) = Ok g1
    /\ select_cad_files env = Ok files
    /\ select_cad_engineering_notes env = Ok notes
    /\ select_cad_material_properties env = Ok materials
    /\ select_rds_documents env = Ok docs
    /\ embedded env docs vs
    /\ Ingest.main env w
       = (Ok tt,
          {| db := Completed.graph g1 files notes materials (combine docs vs);
             trace := trace w
                      ++ Completed.events g1 files notes materials (combine docs vs)
                      ++ [DriverClose] |}).
Proof.
  unfold completes. intros H.
  destruct (Ingest.ingestion env w) as [r w'] eqn:Hrun. cbn [fst] in H. subst r.
  destruct (ingestion_inv env w w' Hrun)
    as (g1 & files & notes & materials & docs & vs & Hs & Hf & Hn & Hm & Hd & Hv).
  exists g1, files, notes, materials, docs, vs. split_all; try assumption.
  rewrite main_unfold.
  rewrite (ingestion_spec env w g1 files notes materials docs vs Hs Hf Hn Hm Hd Hv).
  cbn [db trace]. rewrite <- app_assoc. reflexivity.
Qed.

Lemma completes_intro (env : Env) (w : World) (g1 : Graph)
    (files : list cad_files.row) (notes : list cad_engineering_notes.row)
    (materials : list cad_material_properties.row)
    (docs : list rds_documents.row) (vs : list (list float)) :
  Ingested.setup (db w) = Ok g1 ->
  select_cad_files env = Ok files ->
  select_cad_engineering_notes env = Ok notes ->
  select_cad_material_properties env = Ok materials ->
  select_rds_documents env = Ok docs ->
  embedded env docs vs ->
  completes env w.
Proof.
  intros Hs Hf Hn Hm Hd Hv. unfold completes.
  rewrite (ingestion_spec env w g1 files notes materials docs vs Hs Hf Hn Hm Hd Hv).
  reflexivity.
Qed.

(** After a completed run, a run in the same environment completes. *)
Lemma rerun_completes (env : Env) (w : World) :
  completes env w -> completes env (snd (Ingest.main env w)).
Proof.
  intros H.
  destruct (completed_run env w H)
    as (g1 & files & notes & materials & docs & vs
        & Hs & Hf & Hn & Hm & Hd & Hv & Hmain).
  rewrite Hmain. cbn [snd].
  destruct (setup_has_constraints _ _ Hs) as (Ha & Hb & Hc).
  destruct (setup_with_constraints
              (Completed.graph g1 files notes materials (combine docs vs)))
    as [g2 Hs2].
  - unfold Cypher.has_constraint. rewrite completed_graph_constraints. exact Ha.
  - unfold Cypher.has_constraint. rewrite completed_graph_constraints. exact Hb.
  - unfold Cypher.has_constraint. rewrite completed_graph_constraints. exact Hc.
  - eapply completes_intro; eauto.
Qed.

Lemma embedded_vectors_length (env : Env) docs vs :
  embedded env docs vs -> List.length vs = List.length docs.
Proof. intros H. symmetry. eapply Forall2_length. exact H. Qed.

(** The node and edge counts of a completed run are those of the rows
    ingested into the empty graph without vectors. *)
Lemma completed_counts g1 files notes materials
    (docs : list rds_documents.row) (vs : list (list float)) :
  List.length vs = List.length docs ->
  let g := Completed.graph g1 files notes materials (combine docs vs) in
  let g0 := Completed.graph empty_graph files notes materials
              (map (fun d => (d, [])) docs) in
  node_count g = node_count g0 /\ edge_count g = edge_count g0.
Proof.
  intros Hlen. cbv zeta.
  rewrite <- (combine_no_vector docs vs Hlen).
  rewrite <- (completed_graph_data no_vector g1).
  destruct (data_counts no_vector
              (Completed.graph g1 files notes materials (combine docs vs)))
    as [Hn He].
  split; congruence.
Qed.

(** C2.  After a completed ingestion, a second ingestion of the same
    rows (whatever the embedding model then returns) that completes
    leaves the same number of nodes and the same number of edges; and
    in an unchanged environment the second ingestion does complete. *)
Theorem full_reload_is_idempotent (env env' : Env) (w : World) :
  same_sources env env' ->
  completes env w ->
  let w1 := snd (Ingest.main env w) in
  completes env w1
  /\ (completes env' w1 ->
      let w2 := snd (Ingest.main env' w1) in
      node_count (db w2) = node_count (db w1)
      /\ edge_count (db w2) = edge_count (db w1)).
Proof.
  intros (Sf & Sn & Sm & Sd) H1. cbv zeta.
  split; [apply rerun_completes; exact H1|].
  intros H2.
  destruct (completed_run env w H1)
    as (g1 & files & notes & materials & docs & vs
        & _ & Hf & Hn & Hm & Hd & Hv & Hmain).
  destruct (completed_run env' _ H2)
    as (g1' & files' & notes' & materials' & docs' & vs'
        & _ & Hf' & Hn' & Hm' & Hd' & Hv' & Hmain').
  rewrite Hmain'. rewrite Hmain. cbn [snd db].
  assert (files' = files) by congruence.
  assert (notes' = notes) by congruence.
  assert (materials' = materials) by congruence.
  assert (docs' = docs) by congruence.
  subst files' notes' materials' docs'.
  destruct (completed_counts g1 files notes materials docs vs
              (embedded_vectors_length env docs vs Hv)) as [N1 E1].
  destruct (completed_counts g1' files notes materials docs vs'
              (embedded_vectors_length env' docs vs' Hv')) as [N2 E2].
  split; congruence.
Qed.

(** A second ingestion of the sample by another embedding model leaves as
    many nodes and edges as the first. *)
Lemma full_reload_witness :
  let w1 := snd (Ingest.main Sample.env Sample.world) in
  let w2 := snd (Ingest.main Sample.env_other_vectors w1) in
  node_count (db w2) = node_count (db w1)
  /\ edge_count (db w2) = edge_count (db w1).
Proof.
  cbv zeta.
  destruct (full_reload_is_idempotent Sample.env Sample.env_other_vectors Sample.world)
    as [_ H].
  - unfold same_sources. split_all; reflexivity.
  - vm_compute. reflexivity.
  - apply H. vm_compute. reflexivity.
Defined.

(** ** Uniqueness of the merge keys *)

Lemma key_eqb_sym (a b : Key) : key_eqb a b = key_eqb b a.
Proof.
  destruct (key_eqb a b) eqn:E.
  - apply key_eqb_eq in E. subst. symmetry. apply key_eqb_refl.
  - destruct (key_eqb b a) eqn:E'; [|reflexivity].
    apply key_eqb_eq in E'. subst. rewrite key_eqb_refl in E. discriminate.
Qed.

Lemma constrained_keys_app c (a b : list Node) :
  Cypher.constrained_keys c (a ++ b)
  = Cypher.constrained_keys c a ++ Cypher.constrained_keys c b.
Proof.
  induction a as [|n a IH]; [reflexivity|].
  cbn [app Cypher.constrained_keys]. rewrite IH.
  destruct (Cypher.constrained_key c n); reflexivity.
Qed.

Lemma has_duplicate_snoc (ks : list Key) (k : Key) :
  Cypher.has_duplicate (ks ++ [k])
  = Cypher.has_duplicate ks || existsb (key_eqb k) ks.
Proof.
  induction ks as [|k0 ks IH]; [reflexivity|].
  cbn [app Cypher.has_duplicate existsb]. rewrite IH, existsb_app. cbn [existsb].
  rewrite orb_false_r, (key_eqb_sym k k0).
  destruct (existsb (key_eqb k0) ks), (key_eqb k0 k), (Cypher.has_duplicate ks),
    (existsb (key_eqb k) ks); reflexivity.
Qed.

Lemma constrained_keys_absent c (k : Key) (ns : list Node) :
  (forall n k', In n ns -> Cypher.constrained_key c n = Some k' ->
                key_eqb k k' = false) ->
  existsb (key_eqb k) (Cypher.constrained_keys c ns) = false.
Proof.
  induction ns as [|n ns IH]; intros H; [reflexivity|].
  cbn [Cypher.constrained_keys].
  destruct (Cypher.constrained_key c n) as [k'|] eqn:E.
  - cbn [existsb]. rewrite (H n k' (or_introl eq_refl) E).
    apply IH. intros n0 k0 Hin. apply H. right. exact Hin.
  - apply IH. intros n0 k0 Hin. apply H. right. exact Hin.
Qed.

(** A [MERGE] on the key keeps the key unique: [p] selects the nodes
    that carry the key of [new]. *)
Lemma merge_node_unique c (p : Node -> bool) (new : Node) (g : Graph) :
  (forall n, p n = true -> Cypher.constrained_key c n = Cypher.constrained_key c new) ->
  (forall n k k', Cypher.constrained_key c new = Some k ->
                  Cypher.constrained_key c n = Some k' ->
                  key_eqb k k' = true -> p n = true) ->
  unique c g -> unique c (Cypher.merge_node p new g).
Proof.
  intros Hsame Hkey Hu. unfold unique, Cypher.merge_node in *.
  destruct (existsb p (nodes g)) eqn:Hex.
  - cbn [Cypher.set_where with_nodes nodes].
    assert (Hk : Cypher.constrained_keys c
                   (map (fun n => if p n then new else n) (nodes g))
                 = Cypher.constrained_keys c (nodes g)).
    { clear Hu Hex. induction (nodes g) as [|n ns IH]; [reflexivity|].
      cbn [map Cypher.constrained_keys]. rewrite IH.
      destruct (p n) eqn:Hp; [|reflexivity].
      rewrite (Hsame n Hp). reflexivity. }
    rewrite Hk. exact Hu.
  - cbn [Cypher.add_node with_nodes nodes]. rewrite constrained_keys_app.
    cbn [Cypher.constrained_keys].
    destruct (Cypher.constrained_key c new) as [k|] eqn:E.
    + rewrite has_duplicate_snoc, Hu. cbn [orb].
      apply constrained_keys_absent. intros n k' Hin Hn.
      destruct (key_eqb k k') eqn:Heq; [|reflexivity].
      assert (Hp : p n = true) by (eapply Hkey; eauto).
      assert (Hex' : existsb p (nodes g) = true).
      { apply existsb_exists. exists n. split; assumption. }
      congruence.
    + rewrite app_nil_r. exact Hu.
Qed.

Lemma merge_cad_file_unique c r g :
  unique c g -> unique c (Cypher.merge_cad_file r g).
Proof.
  apply merge_node_unique.
  - intros [] Hp; try discriminate. cbn in Hp. apply key_eqb_eq in Hp. subst.
    reflexivity.
  - intros n k k' Hnew Hn Heq. apply key_eqb_eq in Heq. subst k'.
    destruct c as [[] prop]; try discriminate.
    cbn in Hnew. destruct (String.eqb prop "file_id") eqn:Hprop; [|discriminate].
    injection Hnew as <-.
    destruct n; try discriminate. cbn in Hn. rewrite Hprop in Hn.
    injection Hn as ->. cbn. apply key_eqb_refl.
Qed.

Lemma merge_standard_unique c r v g :
  unique c g -> unique c (Cypher.merge_standard r v g).
Proof.
  apply merge_node_unique.
  - intros [] Hp; try discriminate. cbn in Hp. apply key_eqb_eq in Hp. subst.
    reflexivity.
  - intros n k k' Hnew Hn Heq. apply key_eqb_eq in Heq. subst k'.
    destruct c as [[] prop]; try discriminate.
    cbn in Hnew. destruct (String.eqb prop "doc_id") eqn:Hprop; [|discriminate].
    injection Hnew as <-.
    destruct n; try discriminate. cbn in Hn. rewrite Hprop in Hn.
    injection Hn as ->. cbn. apply key_eqb_refl.
Qed.

Lemma merge_material_unique c r g :
  unique c g -> unique c (Cypher.merge_material r g).
Proof.
  intros Hu. unfold Cypher.merge_material.
  destruct (Cypher.match_nodes _ g) as [|c0 cs0]; [exact Hu|].
  unfold unique. rewrite merge_edges_nodes. revert Hu.
  apply merge_node_unique.
  - intros [] Hp; try discriminate. cbn in Hp. apply key_eqb_eq in Hp. subst.
    reflexivity.
  - intros n k k' Hnew Hn Heq. apply key_eqb_eq in Heq. subst k'.
    destruct c as [[] prop]; try discriminate.
    cbn in Hnew. destruct (String.eqb prop "name") eqn:Hprop; [|discriminate].
    injection Hnew as <-.
    destruct n; try discriminate. cbn in Hn. rewrite Hprop in Hn.
    injection Hn as ->. cbn. apply key_eqb_refl.
Qed.

Lemma create_note_unique c r g :
  fst c <> L_EngineeringNote ->
  unique c g -> unique c (Cypher.create_note r g).
Proof.
  intros Hc Hu. unfold unique, Cypher.create_note.
  match goal with
  | |- context [fold_left _ ?cs g] =>
      destruct (create_note_fold
                  (EngineeringNote (cad_engineering_notes.id r)
                     (cad_engineering_notes.note_type r)
                     (cad_engineering_notes.note_code r)
                     (cad_engineering_notes.note_value r)) cs g)
        as (Hn & _);
      rewrite Hn; generalize cs
  end.
  intros cs. rewrite constrained_keys_app.
  assert (Hnone : Cypher.constrained_keys c
                    (map (fun _ : NodeId =>
                            EngineeringNote (cad_engineering_notes.id r)
                              (cad_engineering_notes.note_type r)
                              (cad_engineering_notes.note_code r)
                              (cad_engineering_notes.note_value r)) cs) = []).
  { induction cs as [|x cs IH]; [reflexivity|].
    cbn [map Cypher.constrained_keys]. rewrite IH.
    destruct c as [[] prop]; try reflexivity. contradiction Hc. reflexivity. }
  rewrite Hnone, app_nil_r. exact Hu.
Qed.

(** After a completed ingestion every key the script merges on is
    unique. *)
Lemma completed_graph_unique c g1 files notes materials docs :
  fst c <> L_EngineeringNote ->
  unique c (Completed.graph g1 files notes materials docs).
Proof.
  intros Hc. unfold Completed.graph, Completed.loaded.
  unfold unique. rewrite links_nodes. fold (unique c (Ingested.rds docs
    (Ingested.cad files notes materials (Cypher.detach_delete_all g1)))).
  unfold Ingested.rds, Ingested.cad.
  apply fold_left_invariant; [intros; apply merge_standard_unique; assumption|].
  apply fold_left_invariant; [intros; apply merge_material_unique; assumption|].
  apply fold_left_invariant; [intros; apply create_note_unique; assumption|].
  apply fold_left_invariant; [intros; apply merge_cad_file_unique; assumption|].
  reflexivity.
Qed.

(** Uniqueness, position by position. *)
Lemma unique_positions c (g : Graph) :
  unique c g ->
  forall i j ni nj k,
    nth_error (nodes g) i = Some ni -> nth_error (nodes g) j = Some nj ->
    Cypher.constrained_key c ni = Some k ->
    Cypher.constrained_key c nj = Some k ->
    i = j.
Proof.
  unfold unique. generalize (nodes g) as ns. clear g.
  assert (Habsent : forall ns k n,
             existsb (key_eqb k) (Cypher.constrained_keys c ns) = false ->
             In n ns -> Cypher.constrained_key c n = Some k -> False).
  { induction ns as [|n0 ns IH]; intros k n Hex Hin Hn; [destruct Hin|].
    destruct Hin as [-> | Hin].
    - cbn [Cypher.constrained_keys] in Hex. rewrite Hn in Hex.
      cbn [existsb] in Hex. rewrite key_eqb_refl in Hex. discriminate.
    - cbn [Cypher.constrained_keys] in Hex.
      destruct (Cypher.constrained_key c n0).
      + cbn [existsb] in Hex. apply orb_false_iff in Hex as [_ Hex]. eauto.
      + eauto. }
  induction ns as [|n ns IH]; intros Hu i j ni nj k Hi Hj Hki Hkj.
  - destruct i; discriminate.
  - cbn [Cypher.constrained_keys] in Hu.
    assert (Hu' : Cypher.has_duplicate (Cypher.constrained_keys c ns) = false).
    { destruct (Cypher.constrained_key c n); [|exact Hu].
      cbn [Cypher.has_duplicate] in Hu. apply orb_false_iff in Hu as [_ Hu].
      exact Hu. }
    destruct i as [|i], j as [|j].
    + reflexivity.
    + exfalso. cbn in Hi, Hj. injection Hi as ->. rewrite Hki in Hu.
      cbn [Cypher.has_duplicate] in Hu. apply orb_false_iff in Hu as [Hex _].
      apply nth_error_In in Hj. eapply Habsent; eauto.
    + exfalso. cbn in Hi, Hj. injection Hj as ->. rewrite Hkj in Hu.
      cbn [Cypher.has_duplicate] in Hu. apply orb_false_iff in Hu as [Hex _].
      apply nth_error_In in Hi. eapply Habsent; eauto.
    + f_equal. cbn in Hi, Hj. eapply IH; eauto.
Qed.

Lemma create_constraint_other (c c' : Constraint) (g g' : Graph) :
  Cypher.create_constraint c g = Ok g' ->
  constraint_eqb c' c = false ->
  Cypher.has_constraint c' g' = Cypher.has_constraint c' g.
Proof.
  unfold Cypher.create_constraint.
  destruct (Cypher.has_constraint c g); [intros H; injection H as <-; reflexivity|].
  destruct (Cypher.has_duplicate _); [discriminate|].
  intros H Hne. injection H as <-. unfold Cypher.has_constraint. cbn [constraints].
  rewrite existsb_app. cbn [existsb]. rewrite Hne, !orb_false_r. reflexivity.
Qed.

(** The set-up adds no constraint on the note_id of the notes. *)
Lemma setup_leaves_note_id (g g1 : Graph) :
  Ingested.setup g = Ok g1 ->
  Cypher.has_constraint (L_EngineeringNote, "note_id"%string) g1
  = Cypher.has_constraint (L_EngineeringNote, "note_id"%string) g.
Proof.
  unfold Ingested.setup.
  destruct (Cypher.create_constraint _ g) as [ga|] eqn:Ha; [|discriminate].
  destruct (Cypher.create_constraint _ ga) as [gb|] eqn:Hb; [|discriminate].
  destruct (Cypher.create_constraint _ gb) as [gc|] eqn:Hc; [|discriminate].
  intros H. injection H as <-.
  apply (create_constraint_other _ (L_EngineeringNote, "note_id"%string)) in Ha;
    [|reflexivity].
  apply (create_constraint_other _ (L_EngineeringNote, "note_id"%string)) in Hb;
    [|reflexivity].
  apply (create_constraint_other _ (L_EngineeringNote, "note_id"%string)) in Hc;
    [|reflexivity].
  rewrite <- Ha, <- Hb, <- Hc.
  unfold Cypher.has_constraint, Cypher.create_vector_index.
  destruct (existsb _ (indexes _)); reflexivity.
Qed.

(** C4, as stated, fails.  After an ingestion of two note rows with one id, the graph has two
    notes with that note_id, and no uniqueness constraint on note_id. *)
Lemma note_id_is_not_constrained :
  let g := db (snd (Ingest.main Sample.env_repeated_note Sample.world)) in
  completes Sample.env_repeated_note Sample.world
  /\ Cypher.has_constraint (L_EngineeringNote, "note_id"%string) g = false
  /\ nth_error (nodes g) 1
     = Some (EngineeringNote (KInt 10) (VText (py "general")) VNull
               (py "Bolt per STD 12"))
  /\ nth_error (nodes g) 2
     = Some (EngineeringNote (KInt 10) VNull VNull (py "Washer per STD 12")).
Proof. cbv zeta. split_all; vm_compute; reflexivity. Qed.

(** C4, amended.  A completed ingestion leaves uniqueness constraints
    on CADFile.file_id, StandardDocument.doc_id and Section.section_id,
    and adds none on the note_id of EngineeringNote; no two CADFile nodes
    have the same file_id, no two StandardDocument nodes the same doc_id,
    and no two Material nodes the same name. *)
Theorem merge_keys_are_unique (env : Env) (w : World) :
  completes env w ->
  let g := db (snd (Ingest.main env w)) in
  Cypher.has_constraint (L_CADFile, "file_id"%string) g = true
  /\ Cypher.has_constraint (L_StandardDocument, "doc_id"%string) g = true
  /\ Cypher.has_constraint (L_Section, "section_id"%string) g = true
  /\ Cypher.has_constraint (L_EngineeringNote, "note_id"%string) g
     = Cypher.has_constraint (L_EngineeringNote, "note_id"%string) (db w)
  /\ (forall i j file_id a1 a2 a3 a4 a5 a6 b1 b2 b3 b4 b5 b6,
        nth_error (nodes g) i = Some (CADFile file_id a1 a2 a3 a4 a5 a6) ->
        nth_error (nodes g) j = Some (CADFile file_id b1 b2 b3 b4 b5 b6) ->
        i = j)
  /\ (forall i j doc_id a1 a2 a3 a4 a5 b1 b2 b3 b4 b5,
        nth_error (nodes g) i = Some (StandardDocument doc_id a1 a2 a3 a4 a5) ->
        nth_error (nodes g) j = Some (StandardDocument doc_id b1 b2 b3 b4 b5) ->
        i = j)
  /\ (forall i j name a1 a2 b1 b2,
        nth_error (nodes g) i = Some (Material name a1 a2) ->
        nth_error (nodes g) j = Some (Material name b1 b2) ->
        i = j).
Proof.
  intros H. cbv zeta.
  destruct (completed_run env w H)
    as (g1 & files & notes & materials & docs & vs
        & Hs & _ & _ & _ & _ & _ & Hmain).
  rewrite Hmain. cbn [snd db].
  destruct (setup_has_constraints _ _ Hs) as (Ha & Hb & Hc).
  pose proof (setup_leaves_note_id _ _ Hs) as Hnote.
  unfold Cypher.has_constraint in *. rewrite completed_graph_constraints.
  split_all; try assumption.
  - intros i j k a1 a2 a3 a4 a5 a6 b1 b2 b3 b4 b5 b6 Hi Hj.
    eapply (unique_positions (L_CADFile, "file_id"%string));
      [apply completed_graph_unique; discriminate | exact Hi | exact Hj
      | reflexivity | reflexivity].
  - intros i j k a1 a2 a3 a4 a5 b1 b2 b3 b4 b5 Hi Hj.
    eapply (unique_positions (L_StandardDocument, "doc_id"%string));
      [apply completed_graph_unique; discriminate | exact Hi | exact Hj
      | reflexivity | reflexivity].
  - intros i j k a1 a2 b1 b2 Hi Hj.
    eapply (unique_positions (L_Material, "name"%string));
      [apply completed_graph_unique; discriminate | exact Hi | exact Hj
      | reflexivity | reflexivity].
Qed.

(** The constraints after the ingestion of the sample. *)
Lemma merge_keys_witness :
  Cypher.has_constraint (L_CADFile, "file_id"%string) (db Sample.ingested) = true
  /\ Cypher.has_constraint (L_EngineeringNote, "note_id"%string) (db Sample.ingested)
     = false.
Proof.
  destruct (merge_keys_are_unique Sample.env Sample.world)
    as (H1 & _ & _ & H2 & _).
  - vm_compute. reflexivity.
  - split; [exact H1 | exact H2].
Defined.

(** ** The order of the phases *)

Lemma staged_nil (ps : list Phase) : staged ps [].
Proof.
  induction ps as [|p ps IH]; [reflexivity|].
  exists [], []. split_all; [reflexivity | reflexivity | exact IH].
Qed.

Lemma within_ret {A} p (a : A) : within p (ret a).
Proof. intros w. exists []. cbn. rewrite app_nil_r. split; reflexivity. Qed.

Lemma within_raise {A} p e : within p (@raise A e).
Proof. intros w. exists []. cbn. rewrite app_nil_r. split; reflexivity. Qed.

Lemma within_emit p e : in_phase p e = true -> within p (emit e).
Proof.
  intros H w. exists [e]. cbn. split; [reflexivity|]. rewrite H. reflexivity.
Qed.

Lemma within_print p s : within p (print s).
Proof. apply within_emit. reflexivity. Qed.

Lemma within_run p q : in_phase p (Run q) = true -> within p (run q).
Proof.
  intros H w. exists [Run q]. rewrite run_exec.
  split; [|cbn [forallb]; rewrite H; reflexivity].
  destruct (Cypher.exec q (db w)) as [[g a]|e]; reflexivity.
Qed.

Lemma within_bind {A B} p (m : M A) (k : A -> M B) :
  within p m -> (forall a, within p (k a)) -> within p (bind m k).
Proof.
  intros Hm Hk w. destruct (Hm w) as (e1 & H1 & F1). unfold bind.
  destruct (m w) as [[a|e] w1]; cbn [snd] in H1.
  - destruct (Hk a w1) as (e2 & H2 & F2). exists (e1 ++ e2).
    rewrite H2, H1, app_assoc, forallb_app, F1, F2. split; reflexivity.
  - exists e1. split; [exact H1 | exact F1].
Qed.

Lemma within_try_except {A} p (m : M A) (handler : Exn -> M A) :
  within p m -> (forall e, within p (handler e)) -> within p (try_except m handler).
Proof.
  intros Hm Hh w. destruct (Hm w) as (e1 & H1 & F1). unfold try_except.
  destruct (m w) as [[a|e] w1]; cbn [snd] in H1.
  - exists e1. split; [exact H1 | exact F1].
  - destruct (Hh e w1) as (e2 & H2 & F2). exists (e1 ++ e2).
    rewrite H2, H1, app_assoc, forallb_app, F1, F2. split; reflexivity.
Qed.

Lemma within_for_each {A} p (xs : list A) (body : A -> M unit) :
  (forall x, within p (body x)) -> within p (for_each xs body).
Proof.
  intros H. induction xs as [|x xs IH]; cbn [for_each].
  - apply within_ret.
  - apply within_bind; [apply H | intros _; exact IH].
Qed.

Lemma within_for_fold {A S} p (xs : list A) (body : S -> A -> M S) :
  (forall s x, within p (body s x)) -> forall s, within p (for_fold xs s body).
Proof.
  intros H. induction xs as [|x xs IH]; intros s; cbn [for_fold].
  - apply within_ret.
  - apply within_bind; [apply H | intros s'; apply IH].
Qed.

Lemma within_select {A} p table (rows : Outcome (list A)) :
  in_phase p (SqlSelect table) = true -> within p (Ingest.select table rows).
Proof.
  intros H. unfold Ingest.select. apply within_bind.
  - apply within_emit. exact H.
  - intros _. destruct rows; [apply within_ret | apply within_raise].
Qed.

Lemma through_last {A} p (m : M A) : within p m -> through [p] m.
Proof.
  intros H w. destruct (H w) as (evs & Ht & F). exists evs. split; [exact Ht|].
  exists evs, []. rewrite app_nil_r. split_all; [reflexivity | exact F | reflexivity].
Qed.

Lemma through_bind {A B} p ps (m : M A) (k : A -> M B) :
  within p m -> (forall a, through ps (k a)) -> through (p :: ps) (bind m k).
Proof.
  intros Hm Hk w. destruct (Hm w) as (e1 & H1 & F1). unfold bind.
  destruct (m w) as [[a|e] w1]; cbn [snd] in H1.
  - destruct (Hk a w1) as (e2 & H2 & S2). exists (e1 ++ e2).
    rewrite H2, H1, app_assoc. split; [reflexivity|].
    exists e1, e2. split_all; [reflexivity | exact F1 | exact S2].
  - exists e1. split; [exact H1|].
    exists e1, []. rewrite app_nil_r.
    split_all; [reflexivity | exact F1 | apply staged_nil].
Qed.

Lemma within_setup_constraints : within Setup Ingest.setup_constraints.
Proof.
  unfold Ingest.setup_constraints.
  repeat first
    [ apply within_bind; [|intros ?]
    | apply within_try_except; [|intros ?]
    | apply within_print
    | apply within_ret
    | apply within_run; reflexivity ].
Qed.

Lemma within_clear_database : within Clear Ingest.clear_database.
Proof.
  unfold Ingest.clear_database.
  repeat first
    [ apply within_bind; [|intros ?]
    | apply within_print
    | apply within_ret
    | apply within_run; reflexivity ].
Qed.

Lemma within_ingest_cad_data env : within LoadCad (Ingest.ingest_cad_data env).
Proof.
  unfold Ingest.ingest_cad_data.
  repeat first
    [ apply within_select; reflexivity
    | apply within_print
    | apply within_for_each; intros ?
    | apply within_bind; [|intros ?]
    | apply within_ret
    | apply within_run; reflexivity ].
Qed.

Lemma within_ingest_rds_data env : within LoadStandards (Ingest.ingest_rds_data env).
Proof.
  unfold Ingest.ingest_rds_data, Ingest.embed.
  repeat first
    [ apply within_select; reflexivity
    | apply within_emit; reflexivity
    | apply within_print
    | apply within_for_each; intros ?
    | apply within_bind; [|intros ?]
    | apply within_ret
    | apply within_raise
    | apply within_run; reflexivity
    | match goal with |- within _ (match ?x with _ => _ end) => destruct x end ].
Qed.

Lemma within_create_relationships : within Link Ingest.create_relationships.
Proof.
  unfold Ingest.create_relationships.
  repeat first
    [ apply within_bind; [|intros ?]
    | apply within_for_fold; intros ? ?
    | apply within_print
    | apply within_ret
    | apply within_run; reflexivity ].
Qed.

Lemma through_ingestion env : through phase_order (Ingest.ingestion env).
Proof.
  unfold Ingest.ingestion, phase_order.
  apply through_bind; [apply within_setup_constraints | intros _].
  apply through_bind; [apply within_clear_database | intros _].
  apply through_bind; [apply within_ingest_cad_data | intros _].
  apply through_bind; [apply within_ingest_rds_data | intros _].
  apply through_bind; [apply within_create_relationships | intros _].
  apply through_last. apply within_print.
Qed.

Lemma staged_append_last (ps : list Phase) (p : Phase) :
  forall evs tail,
    staged (ps ++ [p]) evs ->
    forallb (in_phase p) tail = true ->
    staged (ps ++ [p]) (evs ++ tail).
Proof.
  induction ps as [|p0 ps IH]; intros evs tail Hs Ht.
  - cbn [app staged] in *. destruct Hs as (here & later & -> & F & ->).
    exists (here ++ tail), []. rewrite !app_nil_r, forallb_app, F, Ht.
    split_all; reflexivity.
  - cbn [app staged] in *. destruct Hs as (here & later & -> & F & Hl).
    exists here, (later ++ tail). rewrite app_assoc.
    split_all; [reflexivity | exact F | apply IH; assumption].
Qed.

Lemma through_main env : through phase_order (Ingest.main env).
Proof.
  intros w. rewrite main_unfold.
  destruct (through_ingestion env w) as (evs & Ht & Hs).
  destruct (Ingest.ingestion env w) as [[[]|e] w']; cbn [snd] in Ht; cbn [snd trace].
  - exists (evs ++ [DriverClose]). rewrite Ht, app_assoc. split; [reflexivity|].
    apply (staged_append_last [Setup; Clear; LoadCad; LoadStandards; Link] Close);
      [exact Hs | reflexivity].
  - exists (evs ++ [Print (py "An error occurred: " ++ e); DriverClose]).
    rewrite Ht, app_assoc. split; [reflexivity|].
    apply (staged_append_last [Setup; Clear; LoadCad; LoadStandards; Link] Close);
      [exact Hs | reflexivity].
Qed.

Lemma staged_in (ps : list Phase) : forall evs e,
  staged ps evs -> In e evs -> exists p, in_phase p e = true.
Proof.
  induction ps as [|p ps IH]; intros evs e Hs Hin.
  - cbn in Hs. subst. destruct Hin.
  - destruct Hs as (here & later & -> & F & Hl).
    apply in_app_or in Hin as [Hin | Hin].
    + exists p. rewrite forallb_forall in F. apply F. exact Hin.
    + eapply IH; eassumption.
Qed.

Lemma map_pair_id {A B} (xs : list (A * B)) :
  map (fun dv => (fst dv, snd dv)) xs = xs.
Proof.
  induction xs as [|[a b] xs IH]; [reflexivity|].
  cbn [map fst snd]. rewrite IH. reflexivity.
Qed.

Lemma link_events_data h g : Ingested.link_events (data h g) = Ingested.link_events g.
Proof.
  unfold Ingested.link_events.
  rewrite citations_data, <- (proj2 (links_data h g)). reflexivity.
Qed.

(** Nothing of the graph before the run is left in the loaded graph. *)
Lemma loaded_from_empty g1 files notes materials docs :
  data (fun v => v) (Completed.loaded g1 files notes materials docs)
  = data (fun v => v) (Completed.loaded empty_graph files notes materials docs).
Proof.
  unfold Completed.loaded. rewrite !rds_data, !cad_data. reflexivity.
Qed.

Lemma completed_from_empty g1 files notes materials docs :
  nodes (Completed.graph g1 files notes materials docs)
  = nodes (Completed.graph empty_graph files notes materials docs)
  /\ edges (Completed.graph g1 files notes materials docs)
     = edges (Completed.graph empty_graph files notes materials docs).
Proof.
  pose proof (completed_graph_data (fun v => v) g1 files notes materials docs) as H.
  cbn beta in H. rewrite map_pair_id in H.
  split.
  - rewrite <- (data_id_nodes (Completed.graph g1 _ _ _ _)), H. reflexivity.
  - change (edges (Completed.graph g1 files notes materials docs))
      with (edges (data (fun v => v) (Completed.graph g1 files notes materials docs))).
    rewrite H. reflexivity.
Qed.

(** C3.  In every run of the ingestion the events come phase after
    phase in the order set-up (the constraints, then the drop and the
    creation of the vector index), deletion of all graph data, CAD data,
    standards data, linking pass, close; a phase that raises ends the
    run.  In a run that completes, the events are exactly those of the
    five phases in that order, run in full, and the nodes and edges left
    are those the same rows give in an empty graph: nothing of the graph
    before the run is kept. *)
Theorem ingestion_phases_in_order (env : Env) (w : World) :
  (exists evs,
      trace (snd (Ingest.main env w)) = trace w ++ evs
      /\ staged phase_order evs)
  /\ (completes env w ->
      exists files notes materials docs vs,
        select_cad_files env = Ok files
        /\ select_cad_engineering_notes env = Ok notes
        /\ select_cad_material_properties env = Ok materials
        /\ select_rds_documents env = Ok docs
        /\ embedded env docs vs
        /\ trace (snd (Ingest.main env w))
           = trace w
             ++ Ingested.setup_events
             ++ Ingested.clear_events
             ++ Ingested.cad_events files notes materials
             ++ Ingested.rds_events (combine docs vs)
             ++ Ingested.link_events
                  (Completed.loaded empty_graph files notes materials
                     (combine docs vs))
             ++ [Print (py "Ingestion complete!"); DriverClose]
        /\ nodes (db (snd (Ingest.main env w)))
           = nodes (Completed.graph empty_graph files notes materials
                      (combine docs vs))
        /\ edges (db (snd (Ingest.main env w)))
           = edges (Completed.graph empty_graph files notes materials
                      (combine docs vs))).
Proof.
  split; [apply through_main|].
  intros H.
  destruct (completed_run env w H)
    as (g1 & files & notes & materials & docs & vs
        & _ & Hf & Hn & Hm & Hd & Hv & Hmain).
  exists files, notes, materials, docs, vs.
  rewrite Hmain. cbn [snd db trace].
  destruct (completed_from_empty g1 files notes materials (combine docs vs))
    as [Hnodes Hedges].
  split_all; try assumption.
  unfold Completed.events.
  rewrite <- (link_events_data (fun v => v)
                (Completed.loaded g1 files notes materials (combine docs vs))).
  rewrite loaded_from_empty, link_events_data.
  rewrite <- !app_assoc. reflexivity.
Qed.

(** A second ingestion of the sample leaves the four edges of the first. *)
Lemma ingestion_phases_witness :
  edges (db (snd (Ingest.main Sample.env Sample.ingested)))
  = [(0, HAS_NOTE, 1); (0, HAS_MATERIAL, 2); (1, REFERENCES, 3); (1, REFERENCES, 4)].
Proof.
  destruct (ingestion_phases_in_order Sample.env Sample.ingested) as [_ H].
  destruct H as (files & notes & materials & docs & vs
                 & Hf & Hn & Hm & Hd & Hv & _ & _ & He).
  - vm_compute. reflexivity.
  - rewrite He.
    cbn in Hf, Hn, Hm, Hd.
    injection Hf as <-. injection Hn as <-. injection Hm as <-. injection Hd as <-.
    inversion Hv as [|d1 v1 ds1 vs1 H1 Hv1]; subst.
    inversion Hv1 as [|d2 v2 ds2 vs2 H2 Hv2]; subst.
    inversion Hv2; subst.
    cbn in H1, H2. injection H1 as <-. injection H2 as <-.
    vm_compute. reflexivity.
Defined.

(** ** Exceptions during the ingestion *)

(** C5, as stated, fails.  With the embedding model unreachable the ingestion raises, and no
    traceback is printed. *)
Lemma ingestion_error_without_traceback :
  fst (Ingest.ingestion Sample.env_embedder_down Sample.world)
  = Raise (py "connection refused")
  /\ forall x,
       ~ In (PrintTraceback x)
            (trace (snd (Ingest.main Sample.env_embedder_down Sample.world))).
Proof.
  split.
  - vm_compute. reflexivity.
  - intros x H. vm_compute in H.
    repeat (destruct H as [H | H]; [discriminate H|]). exact H.
Qed.

(** C5, amended.  An exception raised during the ingestion is caught
    by [main]: the run stops where the exception was raised, the line "An
    error occurred: " followed by the text of the exception is printed,
    without a traceback, and the driver is closed; [main] itself returns
    normally. *)
Theorem ingestion_error_is_reported (env : Env) (w w' : World) (e : Exn) :
  Ingest.ingestion env w = (Raise e, w') ->
  Ingest.main env w
  = (Ok tt,
     {| db := db w';
        trace := trace w'
                 ++ [Print (py "An error occurred: " ++ e); DriverClose] |})
  /\ forall x,
       In (PrintTraceback x) (trace (snd (Ingest.main env w))) ->
       In (PrintTraceback x) (trace w).
Proof.
  intros H. split.
  - rewrite main_unfold, H. reflexivity.
  - intros x Hin.
    destruct (through_main env w) as (evs & Ht & Hs).
    rewrite Ht in Hin. apply in_app_or in Hin as [Hin | Hin]; [exact Hin|].
    destruct (staged_in _ _ _ Hs Hin) as [p Hp].
    destruct p; discriminate.
Qed.

(** With the embedding model unreachable, the run ends with the message
    and the closing of the driver. *)
Lemma ingestion_error_witness :
  exists events,
    trace (snd (Ingest.main Sample.env_embedder_down Sample.world))
    = events ++ [Print (py "An error occurred: connection refused"); DriverClose].
Proof.
  destruct (ingestion_error_is_reported Sample.env_embedder_down Sample.world
              (snd (Ingest.ingestion Sample.env_embedder_down Sample.world))
              (py "connection refused")) as [H _].
  - vm_compute. reflexivity.
  - rewrite H. cbn [snd trace]. eexists. reflexivity.
Defined.

(** * Further properties of the scripts *)

(** ** The set-up *)

Lemma setup_constraints_inv (w w' : World) :
  Ingest.setup_constraints w = (Ok tt, w') ->
  Ingested.setup (db w) = Ok (db w')
  /\ trace w' = trace w ++ Ingested.setup_events.
Proof.
  intros H. pose proof (setup_constraints_spec w) as Hs.
  destruct (Ingested.setup (db w)) as [g1|e].
  - rewrite Hs in H. injection H as <-. split; reflexivity.
  - destruct Hs as (w0 & Hs & _). congruence.
Qed.

Lemma create_constraint_indexes (c : Constraint) (g g' : Graph) :
  Cypher.create_constraint c g = Ok g' -> indexes g' = indexes g.
Proof.
  unfold Cypher.create_constraint.
  destruct (Cypher.has_constraint c g); [intros H; injection H as <-; reflexivity|].
  destruct (Cypher.has_duplicate _); [discriminate|].
  intros H; injection H as <-. reflexivity.
Qed.

Lemma no_index_after_drop (name : string) (ixs : list VectorIndex) :
  existsb (fun ix => String.eqb (ix_name ix) name) (filter (other_index name) ixs)
  = false.
Proof.
  induction ixs as [|ix ixs IH]; [reflexivity|].
  cbn [filter]. unfold other_index at 1.
  destruct (String.eqb (ix_name ix) name) eqn:E; cbn [negb]; [exact IH|].
  cbn [existsb]. rewrite E, IH. reflexivity.
Qed.

Lemma filter_idempotent {A} (f : A -> bool) (xs : list A) :
  filter f (filter f xs) = filter f xs.
Proof.
  induction xs as [|x xs IH]; [reflexivity|].
  cbn [filter]. destruct (f x) eqn:E; [|exact IH].
  cbn [filter]. rewrite E, IH. reflexivity.
Qed.

(** The indexes after a successful set-up. *)
Lemma setup_indexes (g g1 : Graph) :
  Ingested.setup g = Ok g1 ->
  indexes g1
  = filter (other_index "standard_embeddings") (indexes g)
    ++ [Ingest.standard_embeddings]
  /\ nodes g1 = nodes g /\ edges g1 = edges g.
Proof.
  unfold Ingested.setup.
  destruct (Cypher.create_constraint _ g) as [ga|] eqn:Ha; [|discriminate].
  destruct (Cypher.create_constraint _ ga) as [gb|] eqn:Hb; [|discriminate].
  destruct (Cypher.create_constraint _ gb) as [gc|] eqn:Hc; [|discriminate].
  intros H. injection H as <-.
  pose proof (create_constraint_indexes _ _ _ Ha) as Ia.
  pose proof (create_constraint_indexes _ _ _ Hb) as Ib.
  pose proof (create_constraint_indexes _ _ _ Hc) as Ic.
  apply create_constraint_data in Ha as [Na Ea].
  apply create_constraint_data in Hb as [Nb Eb].
  apply create_constraint_data in Hc as [Nc Ec].
  assert (Hdrop : indexes (Cypher.drop_index "standard_embeddings" gc)
                  = filter (other_index "standard_embeddings") (indexes gc))
    by reflexivity.
  unfold Cypher.create_vector_index.
  change (ix_name Ingest.standard_embeddings) with "standard_embeddings"%string.
  rewrite Hdrop, (no_index_after_drop "standard_embeddings" (indexes gc)).
  cbn [nodes edges indexes]. rewrite ?Hdrop.
  change (nodes (Cypher.drop_index "standard_embeddings" gc)) with (nodes gc).
  change (edges (Cypher.drop_index "standard_embeddings" gc)) with (edges gc).
  split_all; congruence.
Qed.



Lemma graph_ext (a b : Graph) :
  nodes a = nodes b -> edges a = edges b ->
  constraints a = constraints b -> indexes a = indexes b -> a = b.
Proof. destruct a, b. cbn. intros -> -> -> ->. reflexivity. Qed.

Lemma setup_fixpoint (g g1 : Graph) :
  Ingested.setup g = Ok g1 -> Ingested.setup g1 = Ok g1.
Proof.
  intros H.
  destruct (setup_has_constraints _ _ H) as (Ha & Hb & Hc).
  destruct (setup_indexes _ _ H) as (Hi & _ & _).
  unfold Ingested.setup.
  rewrite (create_constraint_present _ _ Ha).
  rewrite (create_constraint_present _ _ Hb).
  rewrite (create_constraint_present _ _ Hc).
  f_equal. apply graph_ext; try reflexivity.
  - unfold Cypher.create_vector_index. destruct (existsb _ _); reflexivity.
  - unfold Cypher.create_vector_index. destruct (existsb _ _); reflexivity.
  - unfold Cypher.create_vector_index. destruct (existsb _ _); reflexivity.
  - assert (Hdrop : indexes (Cypher.drop_index "standard_embeddings" g1)
                    = filter (other_index "standard_embeddings") (indexes g1))
      by reflexivity.
    unfold Cypher.create_vector_index.
    change (ix_name Ingest.standard_embeddings) with "standard_embeddings"%string.
    rewrite Hdrop, no_index_after_drop. cbn [indexes]. rewrite ?Hdrop, Hi.
    rewrite filter_app, filter_idempotent. cbn. rewrite app_nil_r. reflexivity.
Qed.

(** X2.  The set-up is idempotent: after a set-up that succeeded, a
    second one succeeds as well and leaves the graph, its constraints and
    its indexes as the first left them. *)
Theorem setup_is_idempotent (w w' : World) :
  Ingest.setup_constraints w = (Ok tt, w') ->
  exists w'',
    Ingest.setup_constraints w' = (Ok tt, w'') /\ db w'' = db w'.
Proof.
  intros H. apply setup_constraints_inv in H as [H _].
  apply setup_fixpoint in H.
  pose proof (setup_constraints_spec w') as Hs. rewrite H in Hs.
  eexists. split; [exact Hs | reflexivity].
Qed.

Lemma setup_is_idempotent_witness :
  db (snd (Ingest.setup_constraints (snd (Ingest.setup_constraints Sample.ingested))))
  = db (snd (Ingest.setup_constraints Sample.ingested)).
Proof.
  destruct (setup_is_idempotent Sample.ingested
              (snd (Ingest.setup_constraints Sample.ingested)))
    as (w'' & Hrun & Hdb).
  - vm_compute. reflexivity.
  - rewrite Hrun. exact Hdb.
Defined.

(** Two nodes with one value of the constrained property are a
    duplicate. *)
Lemma duplicate_positions c (ns : list Node) (i j : nat) (ni nj : Node) (k : Key) :
  nth_error ns i = Some ni -> nth_error ns j = Some nj ->
  Cypher.constrained_key c ni = Some k -> Cypher.constrained_key c nj = Some k ->
  i <> j ->
  Cypher.has_duplicate (Cypher.constrained_keys c ns) = true.
Proof.
  intros Hi Hj Hki Hkj Hne.
  destruct (Cypher.has_duplicate (Cypher.constrained_keys c ns)) eqn:E;
    [reflexivity|].
  exfalso. apply Hne.
  apply (unique_positions c {| nodes := ns; edges := []; constraints := [];
                               indexes := [] |} E i j ni nj k); assumption.
Qed.

(** X3.  The set-up runs before the graph is cleared: when the graph
    holds two CADFile nodes with one file_id and no uniqueness constraint
    on it yet, the first statement of the set-up is refused, the run
    stops there with the message of the error, the driver is closed, and
    the graph is left exactly as it was, nothing deleted or reloaded. *)
Theorem failed_setup_keeps_the_graph (env : Env) (w : World) (i j : nat)
    (k : Key) (a1 a2 a3 a4 a5 a6 b1 b2 b3 b4 b5 b6 : Value) :
  Cypher.has_constraint (L_CADFile, "file_id"%string) (db w) = false ->
  nth_error (nodes (db w)) i = Some (CADFile k a1 a2 a3 a4 a5 a6) ->
  nth_error (nodes (db w)) j = Some (CADFile k b1 b2 b3 b4 b5 b6) ->
  i <> j ->
  Ingest.main env w
  = (Ok tt,
     {| db := db w;
        trace := trace w
                 ++ [Print (py "Setting up constraints locally...");
                     Run (Cypher.CreateConstraint (L_CADFile, "file_id"%string));
                     Print (py "An error occurred: " ++ py "ConstraintCreationFailed");
                     DriverClose] |}).
Proof.
  intros Hc Hi Hj Hne.
  assert (Hdup : Cypher.has_duplicate
                   (Cypher.constrained_keys (L_CADFile, "file_id"%string)
                      (nodes (db w))) = true).
  { eapply (duplicate_positions _ _ i j); [exact Hi | exact Hj | | | exact Hne];
      reflexivity. }
  rewrite main_unfold. unfold Ingest.ingestion, Ingest.setup_constraints.
  unfold bind at 1. unfold bind at 1. unfold print at 1, emit at 1.
  unfold bind at 1. rewrite run_exec. cbn [Cypher.exec db trace log].
  unfold Cypher.create_constraint. rewrite Hc, Hdup.
  cbn [db trace]. rewrite <- !app_assoc. reflexivity.
Qed.

Lemma failed_setup_witness :
  let twice :=
    {| db := {| nodes := [CADFile (KInt 1) VNull VNull VNull VNull VNull VNull;
                          CADFile (KInt 1) VNull VNull VNull VNull VNull (VInt 2)];
                edges := []; constraints := []; indexes := [] |};
       trace := [] |} in
  db (snd (Ingest.main Sample.env twice)) = db twice.
Proof.
  cbv zeta.
  match goal with
  | |- db (snd (Ingest.main _ ?w)) = _ =>
      rewrite (failed_setup_keeps_the_graph Sample.env w 0 1 (KInt 1)
                 VNull VNull VNull VNull VNull VNull
                 VNull VNull VNull VNull VNull (VInt 2))
  end.
  - reflexivity.
  - reflexivity.
  - reflexivity.
  - reflexivity.
  - lia.
Defined.

(** ** Runs that stop in the middle *)

Lemma bind_raise {A B} (m : M A) (k : A -> M B) (w w' : World) (e : Exn) :
  m w = (Raise e, w') -> bind m k w = (Raise e, w').
Proof. unfold bind. intros ->. reflexivity. Qed.

Lemma ingest_cad_data_unreadable (env : Env) (w : World) (e : Exn) :
  select_cad_files env = Raise e ->
  Ingest.ingest_cad_data env w
  = (Raise e,
     {| db := db w;
        trace := trace w ++ [Print (py "Ingesting CAD data..."); SqlSelect "cad_files"] |}).
Proof.
  intros Hf. unfold Ingest.ingest_cad_data. rewrite Hf.
  unfold bind at 1. unfold print at 1, emit at 1.
  unfold bind at 1. rewrite select_raise. cbn [db trace log].
  rewrite <- app_assoc. reflexivity.
Qed.

(** X4.  When the table cad_files cannot be read, the graph has
    already been cleared: the run ends with the message of the error and
    the driver closed, and leaves a graph with no node and no edge,
    whatever it held before. *)
Theorem unreadable_cad_source_leaves_empty_graph (env : Env) (w w1 : World)
    (e : Exn) :
  Ingest.setup_constraints w = (Ok tt, w1) ->
  select_cad_files env = Raise e ->
  let w' := snd (Ingest.main env w) in
  nodes (db w') = [] /\ edges (db w') = []
  /\ trace w'
     = trace w1
       ++ [Print (py "Clearing existing database..."); Run Cypher.DetachDeleteAll;
           Print (py "Ingesting CAD data..."); SqlSelect "cad_files";
           Print (py "An error occurred: " ++ e); DriverClose].
Proof.
  intros Hs Hf. cbv zeta. rewrite main_unfold. unfold Ingest.ingestion.
  rewrite (bind_ok _ _ _ _ _ Hs).
  rewrite (bind_ok _ _ _ _ _ (clear_database_spec _)).
  rewrite (bind_raise _ _ _ _ _ (ingest_cad_data_unreadable env _ e Hf)).
  cbn [db trace snd]. unfold Ingested.clear_events. rewrite <- !app_assoc.
  split_all; reflexivity.
Qed.

Lemma unreadable_cad_source_witness :
  node_count (db Sample.ingested) = 5
  /\ nodes (db (snd (Ingest.main Failing.env_no_cad_table Sample.ingested))) = [].
Proof.
  split; [reflexivity|].
  destruct (unreadable_cad_source_leaves_empty_graph Failing.env_no_cad_table
              Sample.ingested (snd (Ingest.setup_constraints Sample.ingested))
              (py "no such table: cad_files")) as (H & _).
  - vm_compute. reflexivity.
  - reflexivity.
  - exact H.
Defined.

Lemma rds_loop_fails (env : Env) (done : list rds_documents.row) :
  forall (vs : list (list float)) (d : rds_documents.row)
         (rest : list rds_documents.row) (e : Exn) (w : World),
    embedded env done vs ->
    embed_query env (Ingest.text_to_embed d) = Raise e ->
    for_each (done ++ d :: rest)
      (fun doc =>
         embedding <- Ingest.embed env (Ingest.text_to_embed doc) ;;
         run (Cypher.MergeStandard doc embedding) ;;
         ret tt) w
    = (Raise e,
       {| db := Ingested.rds (combine done vs) (db w);
          trace := trace w ++ Ingested.rds_loop_events (combine done vs)
                   ++ [EmbedQuery (Ingest.text_to_embed d)] |}).
Proof.
  induction done as [|d0 done IH]; intros vs d rest e w H He;
    inversion H as [|? v ? vs' Hv Hrest]; subst.
  - cbn [app for_each combine]. unfold bind at 1. unfold bind at 1.
    unfold Ingest.embed at 1. unfold bind at 1. unfold emit at 1.
    rewrite He. reflexivity.
  - cbn [app for_each combine]. unfold bind at 1. unfold bind at 1.
    unfold Ingest.embed at 1. unfold bind at 1. unfold emit at 1.
    rewrite Hv. unfold ret at 1. unfold bind at 1.
    rewrite run_exec. cbn [Cypher.exec db trace log]. unfold ret at 1.
    rewrite (IH vs' d rest e _ Hrest He). cbn [db trace].
    unfold Ingested.rds, Ingested.rds_loop_events.
    cbn [fold_left flat_map fst snd app].
    repeat rewrite <- app_assoc. reflexivity.
Qed.

Lemma ingest_rds_data_fails (env : Env) (w : World)
    (done rest : list rds_documents.row) (d : rds_documents.row)
    (vs : list (list float)) (e : Exn) :
  select_rds_documents env = Ok (done ++ d :: rest) ->
  embedded env done vs ->
  embed_query env (Ingest.text_to_embed d) = Raise e ->
  Ingest.ingest_rds_data env w
  = (Raise e,
     {| db := Ingested.rds (combine done vs) (db w);
        trace := trace w
                 ++ [Print (py "Ingesting RDS data..."); SqlSelect "rds_documents"]
                 ++ Ingested.rds_loop_events (combine done vs)
                 ++ [EmbedQuery (Ingest.text_to_embed d)] |}).
Proof.
  intros Hd Hv He. unfold Ingest.ingest_rds_data. rewrite Hd.
  unfold bind at 1. unfold print at 1, emit at 1.
  unfold bind at 1. rewrite select_ok.
  unfold bind at 1.
  rewrite (rds_loop_fails env done vs d rest e _ Hv He). cbn [db trace log].
  repeat rewrite <- app_assoc. reflexivity.
Qed.

(** An edge of a graph after a [MERGE] of relationships was there
    before or is one of the rows. *)
Lemma merge_edges_sub (t : RelType) (rows : list (NodeId * NodeId)) :
  forall g e,
    In e (edges (Cypher.merge_edges t rows g)) ->
    In e (edges g) \/ exists x y, e = (x, t, y) /\ In (x, y) rows.
Proof.
  unfold Cypher.merge_edges.
  induction rows as [|[x y] rows IH]; intros g e Hin; [left; exact Hin|].
  cbn [fold_left fst snd] in Hin. apply IH in Hin as [Hin | (x' & y' & -> & Hin)].
  - unfold Cypher.merge_edge in Hin.
    destruct (existsb _ (edges g)); [left; exact Hin|].
    cbn in Hin. apply in_app_or in Hin as [Hin | [<- | []]]; [left; exact Hin|].
    right. exists x, y. split; [reflexivity | left; reflexivity].
  - right. exists x', y'. split; [reflexivity | right; exact Hin].
Qed.

Lemma merge_node_edges p new g : edges (Cypher.merge_node p new g) = edges g.
Proof. unfold Cypher.merge_node. destruct (existsb _ _); reflexivity. Qed.

(** The loading phases write no REFERENCES edge. *)
Lemma cad_no_references files notes materials g :
  (forall e, In e (edges g) -> Cypher.is_references e = false) ->
  forall e, In e (edges (Ingested.cad files notes materials g)) ->
            Cypher.is_references e = false.
Proof.
  unfold Ingested.cad. intros H0.
  apply (fold_left_invariant _
           (fun g => forall e, In e (edges g) -> Cypher.is_references e = false)).
  { intros g' r H e Hin. unfold Cypher.merge_material in Hin.
    destruct (Cypher.match_nodes _ g') as [|c cs]; [auto|].
    apply merge_edges_sub in Hin as [Hin | (x & y & -> & _)]; [|reflexivity].
    rewrite merge_node_edges in Hin. auto. }
  apply (fold_left_invariant _
           (fun g => forall e, In e (edges g) -> Cypher.is_references e = false)).
  { intros g' r H e Hin. unfold Cypher.create_note in Hin.
    match type of Hin with
    | In _ (edges (fold_left _ ?cs g')) =>
        destruct (create_note_fold
                    (EngineeringNote (cad_engineering_notes.id r)
                       (cad_engineering_notes.note_type r)
                       (cad_engineering_notes.note_code r)
                       (cad_engineering_notes.note_value r)) cs g')
          as (_ & He & _)
    end.
    rewrite He in Hin. apply in_app_or in Hin as [Hin | Hin]; [auto|].
    apply in_map_iff in Hin as (cn & <- & _). reflexivity. }
  apply (fold_left_invariant _
           (fun g => forall e, In e (edges g) -> Cypher.is_references e = false));
    [|exact H0].
  intros g' r H e Hin. unfold Cypher.merge_cad_file in Hin.
  rewrite merge_node_edges in Hin. auto.
Qed.

Lemma rds_edges docs g : edges (Ingested.rds docs g) = edges g.
Proof.
  unfold Ingested.rds.
  apply (fold_left_invariant _ (fun g' => edges g' = edges g)); [|reflexivity].
  intros g' r H. unfold Cypher.merge_standard. rewrite merge_node_edges. exact H.
Qed.

(** X5.  The ingestion does not roll back.  When the embedding model
    fails on a document, the run stops there: the graph, cleared at the
    start, holds the CAD data and the standards that precede the
    document, no REFERENCES edge at all, and the message of the error is
    printed before the driver is closed. *)
Theorem failed_embedding_leaves_partial_graph (env : Env) (w w1 : World)
    (files : list cad_files.row) (notes : list cad_engineering_notes.row)
    (materials : list cad_material_properties.row)
    (done rest : list rds_documents.row) (d : rds_documents.row)
    (vs : list (list float)) (e : Exn) :
  Ingest.setup_constraints w = (Ok tt, w1) ->
  select_cad_files env = Ok files ->
  select_cad_engineering_notes env = Ok notes ->
  select_cad_material_properties env = Ok materials ->
  select_rds_documents env = Ok (done ++ d :: rest) ->
  embedded env done vs ->
  embed_query env (Ingest.text_to_embed d) = Raise e ->
  let w' := snd (Ingest.main env w) in
  db w'
  = Ingested.rds (combine done vs)
      (Ingested.cad files notes materials (Cypher.detach_delete_all (db w1)))
  /\ (forall s t, ~ In (s, REFERENCES, t) (edges (db w')))
  /\ exists events,
       trace w'
       = events ++ [EmbedQuery (Ingest.text_to_embed d);
                    Print (py "An error occurred: " ++ e); DriverClose].
Proof.
  intros Hs Hf Hn Hm Hd Hv He. cbv zeta.
  rewrite main_unfold. unfold Ingest.ingestion.
  rewrite (bind_ok _ _ _ _ _ Hs).
  rewrite (bind_ok _ _ _ _ _ (clear_database_spec _)).
  rewrite (bind_ok _ _ _ _ _ (ingest_cad_data_spec env _ files notes materials Hf Hn Hm)).
  rewrite (bind_raise _ _ _ _ _ (ingest_rds_data_fails env _ done rest d vs e Hd Hv He)).
  cbn [db trace snd]. split_all.
  - reflexivity.
  - intros s t Hin. rewrite rds_edges in Hin.
    apply cad_no_references in Hin; [discriminate|].
    intros e0 [].
  - exists (trace w1 ++ Ingested.clear_events
            ++ Ingested.cad_events files notes materials
            ++ [Print (py "Ingesting RDS data..."); SqlSelect "rds_documents"]
            ++ Ingested.rds_loop_events (combine done vs)).
    repeat rewrite <- app_assoc. reflexivity.
Qed.

Lemma failed_embedding_witness :
  let g := db (snd (Ingest.main Failing.env_second_embedding_fails Sample.ingested)) in
  node_count g = 4 /\ edge_count g = 2.
Proof.
  cbv zeta.
  destruct (failed_embedding_leaves_partial_graph Failing.env_second_embedding_fails
              Sample.ingested (snd (Ingest.setup_constraints Sample.ingested))
              [Sample.file1] [Sample.note1; Sample.orphan_note]
              [Sample.steel; Sample.steel_again]
              [Sample.std12] [] Sample.std1234
              [Sample.vector_of (py "STD 12 Bolts")] (py "model timed out"))
    as (H & _).
  - vm_compute. reflexivity.
  - reflexivity.
  - reflexivity.
  - reflexivity.
  - reflexivity.
  - repeat constructor.
  - reflexivity.
  - rewrite H. split; vm_compute; reflexivity.
Defined.

(** ** The CAD phase *)

Lemma positions_from_app (p : Node -> bool) (xs ys : list Node) : forall b,
  Cypher.positions_from b p (xs ++ ys)
  = Cypher.positions_from b p xs
    ++ Cypher.positions_from (b + List.length xs) p ys.
Proof.
  induction xs as [|x xs IH]; intros b; cbn [app Cypher.positions_from List.length].
  - rewrite Nat.add_0_r. reflexivity.
  - rewrite IH. replace (S b + List.length xs) with (b + S (List.length xs)) by lia.
    destruct (p x); reflexivity.
Qed.

Lemma positions_from_none (p : Node -> bool) (ns : list Node) : forall b,
  (forall n, In n ns -> p n = false) -> Cypher.positions_from b p ns = [].
Proof.
  induction ns as [|n ns IH]; intros b H; [reflexivity|].
  cbn [Cypher.positions_from]. rewrite (H n (or_introl eq_refl)).
  apply IH. intros n' Hin. apply H. right. exact Hin.
Qed.

Lemma existsb_false_all {A} (p : A -> bool) (xs : list A) :
  existsb p xs = false -> forall x, In x xs -> p x = false.
Proof.
  intros H x Hin. destruct (p x) eqn:E; [|reflexivity].
  rewrite <- H. symmetry. apply existsb_exists. exists x. split; assumption.
Qed.

Lemma create_note_nodes (r : cad_engineering_notes.row) (g : Graph) :
  nodes (Cypher.create_note r g)
  = nodes g
    ++ map (fun _ => note_of r)
         (Cypher.match_nodes (Cypher.is_cad_file (cad_engineering_notes.file_id r)) g).
Proof.
  unfold Cypher.create_note.
  match goal with
  | |- nodes (fold_left _ ?cs g) = _ =>
      destruct (create_note_fold (note_of r) cs g) as (H & _)
  end.
  exact H.
Qed.

(** Creating notes does not change which CAD files a [MATCH] binds. *)
Lemma create_note_keeps_files (r : cad_engineering_notes.row) (k : Key) (g : Graph) :
  Cypher.match_nodes (Cypher.is_cad_file k) (Cypher.create_note r g)
  = Cypher.match_nodes (Cypher.is_cad_file k) g.
Proof.
  unfold Cypher.match_nodes. rewrite create_note_nodes, positions_from_app.
  rewrite (positions_from_none _ (map _ _)); [apply app_nil_r|].
  intros n Hin. apply in_map_iff in Hin as (c & <- & _). reflexivity.
Qed.

Lemma notes_fold_count (notes : list cad_engineering_notes.row) : forall g,
  List.length
    (filter (has_label L_EngineeringNote)
       (nodes (fold_left (fun g r => Cypher.create_note r g) notes g)))
  = List.length (filter (has_label L_EngineeringNote) (nodes g))
    + list_sum
        (map (fun r =>
                List.length
                  (Cypher.match_nodes
                     (Cypher.is_cad_file (cad_engineering_notes.file_id r)) g))
           notes).
Proof.
  induction notes as [|r notes IH]; intros g; cbn [fold_left map list_sum fold_right]; [lia|].
  rewrite IH, create_note_nodes, filter_app, length_app.
  assert (Hnew : forall cs : list NodeId,
             List.length (filter (has_label L_EngineeringNote)
                            (map (fun _ => note_of r) cs))
             = List.length cs).
  { induction cs as [|c cs IHc]; [reflexivity|]. cbn. rewrite IHc. reflexivity. }
  rewrite Hnew.
  rewrite (map_ext
             (fun r0 => List.length
                          (Cypher.match_nodes
                             (Cypher.is_cad_file (cad_engineering_notes.file_id r0))
                             (Cypher.create_note r g)))
             (fun r0 => List.length
                          (Cypher.match_nodes
                             (Cypher.is_cad_file (cad_engineering_notes.file_id r0))
                             g)))
    by (intros r0; rewrite create_note_keeps_files; reflexivity).
  fold (list_sum (map (fun r0 => List.length
                          (Cypher.match_nodes
                             (Cypher.is_cad_file (cad_engineering_notes.file_id r0))
                             g)) notes)).
  lia.
Qed.

(** With unique file ids a [MATCH] on a file_id binds at most one
    node. *)
Lemma unique_file_match (k : Key) (ns : list Node) : forall b,
  Cypher.has_duplicate (Cypher.constrained_keys (L_CADFile, "file_id"%string) ns)
  = false ->
  List.length (Cypher.positions_from b (Cypher.is_cad_file k) ns)
  = if existsb (Cypher.is_cad_file k) ns then 1 else 0.
Proof.
  induction ns as [|n ns IH]; intros b Hu; [reflexivity|].
  cbn [Cypher.positions_from existsb].
  assert (Hu' : Cypher.has_duplicate
                  (Cypher.constrained_keys (L_CADFile, "file_id"%string) ns) = false).
  { cbn [Cypher.constrained_keys] in Hu.
    destruct (Cypher.constrained_key _ n); [|exact Hu].
    cbn [Cypher.has_duplicate] in Hu. apply orb_false_iff in Hu as [_ Hu]. exact Hu. }
  destruct (Cypher.is_cad_file k n) eqn:Hn.
  - destruct n; try discriminate. cbn in Hn. apply key_eqb_eq in Hn. subst file_id.
    cbn [Cypher.constrained_keys Cypher.constrained_key fst snd] in Hu.
    cbn [String.eqb Ascii.eqb Bool.eqb] in Hu.
    cbn [Cypher.has_duplicate] in Hu. apply orb_false_iff in Hu as [Hex _].
    rewrite positions_from_none; [reflexivity|].
    intros n Hin. destruct n; try reflexivity. cbn.
    destruct (key_eqb file_id k) eqn:E; [|reflexivity].
    apply key_eqb_eq in E. subst file_id. exfalso.
    assert (Hk : In k (Cypher.constrained_keys (L_CADFile, "file_id"%string) ns)).
    { clear - Hin. induction ns as [|n0 ns IHn]; [destruct Hin|].
      cbn [Cypher.constrained_keys]. destruct Hin as [-> | Hin].
      - left. reflexivity.
      - destruct (Cypher.constrained_key _ n0); [right|]; apply IHn; exact Hin. }
    apply (existsb_false_all _ _ Hex) in Hk. rewrite key_eqb_refl in Hk. discriminate.
  - cbn [orb]. apply IH. exact Hu'.
Qed.

Lemma merge_cad_file_exists (r : cad_files.row) (k : Key) (g : Graph) :
  existsb (Cypher.is_cad_file k) (nodes (Cypher.merge_cad_file r g))
  = key_eqb (cad_files.file_id r) k || existsb (Cypher.is_cad_file k) (nodes g).
Proof.
  unfold Cypher.merge_cad_file, Cypher.merge_node.
  destruct (existsb (Cypher.is_cad_file (cad_files.file_id r)) (nodes g)) eqn:Hex.
  - cbn [Cypher.set_where with_nodes nodes].
    destruct (key_eqb (cad_files.file_id r) k) eqn:Hk.
    + apply key_eqb_eq in Hk. subst k. cbn [orb].
      apply existsb_exists in Hex as (n & Hin & Hn).
      apply existsb_exists. eexists. split.
      * apply in_map. exact Hin.
      * cbn beta. rewrite Hn. cbn. apply key_eqb_refl.
    + cbn [orb]. clear Hex. induction (nodes g) as [|n ns IHn]; [reflexivity|].
      cbn [map existsb]. rewrite IHn. f_equal.
      destruct (Cypher.is_cad_file (cad_files.file_id r) n) eqn:Hn; [|reflexivity].
      destruct n; try discriminate. cbn in Hn |- *.
      apply key_eqb_eq in Hn. subst file_id. rewrite Hk. reflexivity.
  - cbn [Cypher.add_node with_nodes nodes]. rewrite existsb_app. cbn [existsb].
    rewrite orb_false_r, orb_comm. reflexivity.
Qed.

Lemma files_fold_exists (files : list cad_files.row) (k : Key) : forall g,
  existsb (Cypher.is_cad_file k)
    (nodes (fold_left (fun g r => Cypher.merge_cad_file r g) files g))
  = existsb (fun f => key_eqb (cad_files.file_id f) k) files
    || existsb (Cypher.is_cad_file k) (nodes g).
Proof.
  induction files as [|f files IH]; intros g; cbn [fold_left existsb]; [reflexivity|].
  rewrite IH, merge_cad_file_exists.
  destruct (key_eqb (cad_files.file_id f) k),
    (existsb (fun f0 => key_eqb (cad_files.file_id f0) k) files),
    (existsb (Cypher.is_cad_file k) (nodes g)); reflexivity.
Qed.

Lemma filter_map_fixed {A} (f : A -> bool) (h : A -> A) (xs : list A) :
  (forall x, f (h x) = f x) -> (forall x, f x = true -> h x = x) ->
  filter f (map h xs) = filter f xs.
Proof.
  intros H1 H2. induction xs as [|x xs IH]; [reflexivity|].
  cbn [map filter]. rewrite H1, IH. destruct (f x) eqn:E; [|reflexivity].
  rewrite (H2 x E). reflexivity.
Qed.

(** A [MERGE] of a node keeps the nodes of the other labels, in their
    order. *)
Lemma merge_node_other_label (l : Label) (p : Node -> bool) (new : Node) (g : Graph) :
  has_label l new = false ->
  (forall n, p n = true -> has_label l n = false) ->
  filter (has_label l) (nodes (Cypher.merge_node p new g))
  = filter (has_label l) (nodes g).
Proof.
  intros Hnew Hp. unfold Cypher.merge_node. destruct (existsb p (nodes g)).
  - cbn [Cypher.set_where with_nodes nodes]. apply filter_map_fixed.
    + intros n. destruct (p n) eqn:E; [|reflexivity]. rewrite Hnew, (Hp n E).
      reflexivity.
    + intros n Hn. destruct (p n) eqn:E; [|reflexivity].
      rewrite (Hp n E) in Hn. discriminate.
  - cbn [Cypher.add_node with_nodes nodes]. rewrite filter_app. cbn [filter].
    rewrite Hnew. apply app_nil_r.
Qed.

Lemma merge_material_keeps_notes (r : cad_material_properties.row) (g : Graph) :
  filter (has_label L_EngineeringNote) (nodes (Cypher.merge_material r g))
  = filter (has_label L_EngineeringNote) (nodes g).
Proof.
  unfold Cypher.merge_material.
  destruct (Cypher.match_nodes _ g) as [|c0 cs0]; [reflexivity|].
  rewrite merge_edges_nodes. apply merge_node_other_label; [reflexivity|].
  intros n Hn. destruct n; try discriminate. reflexivity.
Qed.

Lemma list_sum_indicator {A} (c : A -> bool) (xs : list A) :
  list_sum (map (fun x => if c x then 1 else 0) xs) = List.length (filter c xs).
Proof.
  induction xs as [|x xs IH]; [reflexivity|].
  cbn [map filter]. change (list_sum (?a :: ?l)) with (a + list_sum l).
  rewrite IH. destruct (c x); reflexivity.
Qed.

Lemma cad_phase_graph (env : Env) (w w' : World) :
  Ingest.ingest_cad_data env w = (Ok tt, w') ->
  exists files notes materials,
    select_cad_files env = Ok files
    /\ select_cad_engineering_notes env = Ok notes
    /\ select_cad_material_properties env = Ok materials
    /\ db w' = Ingested.cad files notes materials (db w).
Proof.
  intros H.
  destruct (ingest_cad_data_inv env w w' H) as (files & notes & materials & Hf & Hn & Hm).
  rewrite (ingest_cad_data_spec env w files notes materials Hf Hn Hm) in H.
  injection H as <-. exists files, notes, materials. split_all; auto.
Qed.

(** X6.  On a graph without nodes, the CAD phase creates exactly one
    EngineeringNote per note row whose file_id is the file_id of some
    row of cad_files, however many file rows repeat that file_id, and
    none for the other note rows. *)
Theorem one_note_per_row_with_a_file (env : Env) (w w' : World)
    (files : list cad_files.row) (notes : list cad_engineering_notes.row) :
  nodes (db w) = [] ->
  Ingest.ingest_cad_data env w = (Ok tt, w') ->
  select_cad_files env = Ok files ->
  select_cad_engineering_notes env = Ok notes ->
  List.length (filter (has_label L_EngineeringNote) (nodes (db w')))
  = List.length
      (filter
         (fun r =>
            existsb
              (fun f => key_eqb (cad_files.file_id f) (cad_engineering_notes.file_id r))
              files)
         notes).
Proof.
  intros Hempty Hrun Hf Hn.
  destruct (cad_phase_graph env w w' Hrun)
    as (files' & notes' & materials & Hf' & Hn' & _ & ->).
  assert (files' = files) by congruence. assert (notes' = notes) by congruence.
  subst files' notes'. unfold Ingested.cad.
  set (gf := fold_left (fun g r => Cypher.merge_cad_file r g) files (db w)).
  set (gn := fold_left (fun g r => Cypher.create_note r g) notes gf).
  assert (Hmat : filter (has_label L_EngineeringNote)
                   (nodes (fold_left (fun g r => Cypher.merge_material r g)
                             materials gn))
                 = filter (has_label L_EngineeringNote) (nodes gn)).
  { apply (fold_left_invariant _
             (fun g => filter (has_label L_EngineeringNote) (nodes g)
                       = filter (has_label L_EngineeringNote) (nodes gn)));
      [|reflexivity].
    intros g r H. rewrite merge_material_keeps_notes. exact H. }
  rewrite Hmat. unfold gn. rewrite notes_fold_count.
  assert (Hnone : filter (has_label L_EngineeringNote) (nodes gf) = []).
  { unfold gf.
    apply (fold_left_invariant _
             (fun g => filter (has_label L_EngineeringNote) (nodes g) = [])).
    - intros g r H. unfold Cypher.merge_cad_file.
      rewrite merge_node_other_label; [exact H | reflexivity |].
      intros n Hp. destruct n; try discriminate. reflexivity.
    - rewrite Hempty. reflexivity. }
  rewrite Hnone. cbn [List.length plus].
  assert (Hunique : unique (L_CADFile, "file_id"%string) gf).
  { unfold gf. apply fold_left_invariant.
    - intros g r H. apply merge_cad_file_unique. exact H.
    - unfold unique. rewrite Hempty. reflexivity. }
  rewrite <- list_sum_indicator. f_equal. apply map_ext. intros r.
  unfold Cypher.match_nodes. rewrite (unique_file_match _ _ 0 Hunique).
  unfold gf. rewrite files_fold_exists, Hempty. cbn [existsb].
  rewrite orb_false_r. reflexivity.
Qed.

(** The sample has one note of file 1 and one of an unknown file. *)
Lemma one_note_per_row_witness :
  List.length
    (filter (has_label L_EngineeringNote)
       (nodes (db (snd (Ingest.ingest_cad_data Sample.env Sample.world)))))
  = 1.
Proof.
  rewrite (one_note_per_row_with_a_file Sample.env Sample.world
             (snd (Ingest.ingest_cad_data Sample.env Sample.world))
             [Sample.file1] [Sample.note1; Sample.orphan_note]).
  - reflexivity.
  - reflexivity.
  - vm_compute. reflexivity.
  - reflexivity.
  - reflexivity.
Defined.

(** The properties of a CAD file row stay on its node unless a later
    row of the table has the same file_id. *)
Lemma files_last_writer (files : list cad_files.row) :
  forall (g : Graph) (i : nat) (r : cad_files.row),
    nth_error files i = Some r ->
    (forall i' r', i < i' -> nth_error files i' = Some r' ->
                   cad_files.file_id r' <> cad_files.file_id r) ->
    In (CADFile (cad_files.file_id r) (cad_files.file_name r) (cad_files.file_type r)
          (cad_files.part_number r) (cad_files.revision r)
          (cad_files.file_size_bytes r) (cad_files.extraction_status r))
       (nodes (fold_left (fun g r => Cypher.merge_cad_file r g) files g)).
Proof.
  assert (Hkeep : forall files g n k,
             In n (nodes g) ->
             Cypher.is_cad_file k n = true ->
             (forall r', In r' files -> cad_files.file_id r' <> k) ->
             In n (nodes (fold_left (fun g r => Cypher.merge_cad_file r g) files g))).
  { clear. induction files as [|r' files IH]; intros g n k Hin Hk Hother.
    - exact Hin.
    - cbn [fold_left]. apply (IH _ n k).
      + apply merge_node_keeps; [exact Hin|].
        destruct n; try discriminate. cbn in Hk |- *.
        apply key_eqb_eq in Hk. subst file_id.
        destruct (key_eqb k (cad_files.file_id r')) eqn:E; [|reflexivity].
        apply key_eqb_eq in E. exfalso.
        apply (Hother r'); [left; reflexivity | congruence].
      + exact Hk.
      + intros r2 H2. apply (Hother r2). right. exact H2. }
  induction files as [|r0 files IH]; intros g i r Hnth Hlater.
  - destruct i; discriminate.
  - destruct i as [|i].
    + cbn in Hnth. injection Hnth as ->. cbn [fold_left].
      apply (Hkeep files _ _ (cad_files.file_id r)).
      * apply merge_node_in.
      * cbn. apply key_eqb_refl.
      * intros r' Hin. apply In_nth_error in Hin as [i' Hi'].
        apply (Hlater (S i') r'); [lia | exact Hi'].
    + cbn [fold_left]. apply (IH _ i r).
      * exact Hnth.
      * intros i' r' Hlt Hi'. apply (Hlater (S i') r'); [lia | exact Hi'].
Qed.

Lemma create_note_keeps_nodes r g n :
  In n (nodes g) -> In n (nodes (Cypher.create_note r g)).
Proof. intros H. rewrite create_note_nodes. apply in_or_app. left. exact H. Qed.

Lemma merge_material_keeps_files r g n :
  In n (nodes g) -> has_label L_CADFile n = true ->
  In n (nodes (Cypher.merge_material r g)).
Proof.
  intros Hin Hl. unfold Cypher.merge_material.
  destruct (Cypher.match_nodes _ g) as [|c0 cs0]; [exact Hin|].
  rewrite merge_edges_nodes. apply merge_node_keeps; [exact Hin|].
  destruct n; try discriminate. reflexivity.
Qed.

(** X7.  The CAD files are upserted: when the CAD phase completes,
    every row of cad_files that no later row repeats by file_id has its
    CADFile node carrying exactly the properties of the row; of rows
    with one file_id the last one wins. *)
Theorem last_file_row_wins (env : Env) (w w' : World)
    (files : list cad_files.row) (i : nat) (r : cad_files.row) :
  Ingest.ingest_cad_data env w = (Ok tt, w') ->
  select_cad_files env = Ok files ->
  nth_error files i = Some r ->
  (forall i' r', i < i' -> nth_error files i' = Some r' ->
                 cad_files.file_id r' <> cad_files.file_id r) ->
  In (CADFile (cad_files.file_id r) (cad_files.file_name r) (cad_files.file_type r)
        (cad_files.part_number r) (cad_files.revision r)
        (cad_files.file_size_bytes r) (cad_files.extraction_status r))
     (nodes (db w')).
Proof.
  intros Hrun Hf Hi Hlater.
  destruct (cad_phase_graph env w w' Hrun)
    as (files' & notes & materials & Hf' & _ & _ & ->).
  assert (files' = files) by congruence. subst files'.
  unfold Ingested.cad.
  apply (fold_left_invariant _
           (fun g => In (CADFile (cad_files.file_id r) (cad_files.file_name r)
                           (cad_files.file_type r) (cad_files.part_number r)
                           (cad_files.revision r) (cad_files.file_size_bytes r)
                           (cad_files.extraction_status r)) (nodes g))).
  { intros g m H. apply merge_material_keeps_files; [exact H | reflexivity]. }
  apply (fold_left_invariant _
           (fun g => In (CADFile (cad_files.file_id r) (cad_files.file_name r)
                           (cad_files.file_type r) (cad_files.part_number r)
                           (cad_files.revision r) (cad_files.file_size_bytes r)
                           (cad_files.extraction_status r)) (nodes g))).
  { intros g m H. apply create_note_keeps_nodes. exact H. }
  apply (files_last_writer files (db w) i r Hi Hlater).
Qed.

Lemma last_file_row_witness :
  In (CADFile (KInt 1) (VText (py "bracket.step")) (VText (py "STEP"))
        (VText (py "P-100")) (VText (py "B")) (VInt 4096) (VText (py "ok")))
     (nodes (db (snd (Ingest.ingest_cad_data Revised.env Sample.world)))).
Proof.
  apply (last_file_row_wins Revised.env Sample.world
           (snd (Ingest.ingest_cad_data Revised.env Sample.world))
           [Sample.file1; Revised.file1_revised] 1 Revised.file1_revised).
  - vm_compute. reflexivity.
  - reflexivity.
  - reflexivity.
  - intros [|[|[|i']]] r' Hlt Hi'; try lia; discriminate.
Defined.

(** ** Statements sent twice *)

Lemma map_fixed {A} (h : A -> A) (xs : list A) :
  (forall x, In x xs -> h x = x) -> map h xs = xs.
Proof.
  induction xs as [|x xs IH]; intros H; [reflexivity|].
  cbn [map]. rewrite (H x (or_introl eq_refl)), IH; [reflexivity|].
  intros y Hy. apply H. right. exact Hy.
Qed.

(** After a [MERGE ... SET] the nodes the pattern matches are the
    merged node. *)
Lemma merge_node_matched (p : Node -> bool) (new : Node) (g : Graph) :
  p new = true ->
  existsb p (nodes (Cypher.merge_node p new g)) = true
  /\ forall n, In n (nodes (Cypher.merge_node p new g)) -> p n = true -> n = new.
Proof.
  intros Hnew. unfold Cypher.merge_node.
  destruct (existsb p (nodes g)) eqn:Hex.
  - cbn [Cypher.set_where with_nodes nodes]. split.
    + apply existsb_exists in Hex as (n & Hin & Hn).
      apply existsb_exists. exists new. split; [|exact Hnew].
      apply in_map_iff. exists n. rewrite Hn. split; [reflexivity | exact Hin].
    + intros n Hin Hp. apply in_map_iff in Hin as (n0 & <- & _).
      destruct (p n0) eqn:E; [reflexivity | congruence].
  - cbn [Cypher.add_node with_nodes nodes]. split.
    + rewrite existsb_app. cbn [existsb]. rewrite Hnew, orb_true_r. reflexivity.
    + intros n Hin Hp. apply in_app_or in Hin as [Hin | [<- | []]]; [|reflexivity].
      rewrite (existsb_false_all _ _ Hex n Hin) in Hp. discriminate.
Qed.

Lemma set_where_settled (p : Node -> bool) (new : Node) (g : Graph) :
  (forall n, In n (nodes g) -> p n = true -> n = new) ->
  Cypher.set_where p new g = g.
Proof.
  intros H. apply graph_ext; try reflexivity.
  cbn [Cypher.set_where with_nodes nodes]. apply map_fixed.
  intros n Hin. destruct (p n) eqn:E; [|reflexivity].
  symmetry. apply H; assumption.
Qed.

Lemma merge_node_idempotent (p : Node -> bool) (new : Node) (g : Graph) :
  p new = true ->
  Cypher.merge_node p new (Cypher.merge_node p new g) = Cypher.merge_node p new g.
Proof.
  intros Hnew. destruct (merge_node_matched p new g Hnew) as [Hex Hall].
  unfold Cypher.merge_node at 1. rewrite Hex.
  apply set_where_settled. exact Hall.
Qed.

Lemma merge_edge_present (e : Edge) (g : Graph) :
  In e (edges g) -> Cypher.merge_edge e g = g.
Proof.
  intros Hin. unfold Cypher.merge_edge.
  assert (H : existsb (edge_eqb e) (edges g) = true).
  { apply existsb_exists. exists e. split; [exact Hin | apply edge_eqb_eq; reflexivity]. }
  rewrite H. reflexivity.
Qed.

Lemma merge_edges_present (t : RelType) (rows : list (NodeId * NodeId)) (g : Graph) :
  (forall x y, In (x, y) rows -> In (x, t, y) (edges g)) ->
  Cypher.merge_edges t rows g = g.
Proof.
  unfold Cypher.merge_edges.
  induction rows as [|[x y] rows IH]; intros H; [reflexivity|].
  cbn [fold_left fst snd]. rewrite merge_edge_present.
  - apply IH. intros x' y' Hin. apply H. right. exact Hin.
  - apply H. left. reflexivity.
Qed.

Lemma merge_edges_idempotent (t : RelType) (rows : list (NodeId * NodeId)) (g : Graph) :
  Cypher.merge_edges t rows (Cypher.merge_edges t rows g)
  = Cypher.merge_edges t rows g.
Proof.
  apply merge_edges_present. intros x y Hin. apply merge_edges_in. exact Hin.
Qed.

(** A [MERGE ... SET] of a node of another label leaves the nodes a
    pattern binds where they are. *)
Lemma merge_node_keeps_positions (q p : Node -> bool) (new : Node) (g : Graph) :
  q new = false ->
  (forall n, p n = true -> q n = false) ->
  Cypher.match_nodes q (Cypher.merge_node p new g) = Cypher.match_nodes q g.
Proof.
  intros Hnew Hp. unfold Cypher.match_nodes, Cypher.merge_node.
  destruct (existsb p (nodes g)).
  - cbn [Cypher.set_where with_nodes nodes]. generalize 0.
    induction (nodes g) as [|n ns IH]; intros b; [reflexivity|].
    cbn [map Cypher.positions_from]. rewrite IH.
    destruct (p n) eqn:E; [|reflexivity]. rewrite Hnew, (Hp n E). reflexivity.
  - cbn [Cypher.add_node with_nodes nodes]. rewrite positions_from_app.
    cbn [Cypher.positions_from]. rewrite Hnew. apply app_nil_r.
Qed.

Lemma material_not_file k n :
  Cypher.is_material k n = true -> forall k', Cypher.is_cad_file k' n = false.
Proof. destruct n; try discriminate. reflexivity. Qed.

Lemma merge_material_idempotent (r : cad_material_properties.row) (g : Graph) :
  Cypher.merge_material r (Cypher.merge_material r g) = Cypher.merge_material r g.
Proof.
  unfold Cypher.merge_material at 2.
  destruct (Cypher.match_nodes
              (Cypher.is_cad_file (cad_material_properties.file_id r)) g)
    as [|c cs] eqn:Hcs.
  - unfold Cypher.merge_material. rewrite Hcs. reflexivity.
  - set (name := cad_material_properties.material_name r).
    set (new := Material name (cad_material_properties.material_standard r)
                  (cad_material_properties.density r)).
    set (g1 := Cypher.merge_node (Cypher.is_material name) new g).
    set (rows := Cypher.pairs (c :: cs)
                   (Cypher.match_nodes (Cypher.is_material name) g1)).
    set (g2 := Cypher.merge_edges HAS_MATERIAL rows g1).
    assert (Hnew : Cypher.is_material name new = true) by (cbn; apply key_eqb_refl).
    assert (Hnodes : nodes g2 = nodes g1) by apply merge_edges_nodes.
    assert (Hfiles : Cypher.match_nodes
                       (Cypher.is_cad_file (cad_material_properties.file_id r)) g2
                     = c :: cs).
    { unfold Cypher.match_nodes. rewrite Hnodes.
      fold (Cypher.match_nodes
              (Cypher.is_cad_file (cad_material_properties.file_id r)) g1).
      unfold g1. rewrite merge_node_keeps_positions; [exact Hcs | reflexivity |].
      intros n Hn. eapply material_not_file. exact Hn. }
    unfold Cypher.merge_material. rewrite Hfiles, Hcs. fold name. fold new.
    fold g1. fold rows. fold g2.
    assert (Hsettled : Cypher.merge_node (Cypher.is_material name) new g2 = g2).
    { destruct (merge_node_matched (Cypher.is_material name) new g Hnew) as [Hex Hall].
      fold g1 in Hex, Hall.
      unfold Cypher.merge_node. rewrite Hnodes, Hex.
      apply set_where_settled. rewrite Hnodes. exact Hall. }
    rewrite Hsettled.
    assert (Hrows : Cypher.pairs (c :: cs)
                      (Cypher.match_nodes (Cypher.is_material name) g2) = rows).
    { unfold rows, Cypher.match_nodes. rewrite Hnodes. reflexivity. }
    rewrite Hrows. apply merge_edges_idempotent.
Qed.

Lemma create_vector_index_idempotent (ix : VectorIndex) (g : Graph) :
  Cypher.create_vector_index ix (Cypher.create_vector_index ix g)
  = Cypher.create_vector_index ix g.
Proof.
  unfold Cypher.create_vector_index at 2.
  destruct (existsb _ (indexes g)) eqn:E.
  - unfold Cypher.create_vector_index. rewrite E. reflexivity.
  - unfold Cypher.create_vector_index. rewrite E. cbn [indexes].
    rewrite existsb_app, E. cbn [existsb orb]. rewrite String.eqb_refl.
    reflexivity.
Qed.

Lemma drop_index_idempotent (name : string) (g : Graph) :
  Cypher.drop_index name (Cypher.drop_index name g) = Cypher.drop_index name g.
Proof.
  apply graph_ext; try reflexivity.
  unfold Cypher.drop_index. cbn [indexes]. apply filter_idempotent.
Qed.

(** X8.  Every statement of the scripts except the creation of a note
    can be sent again without effect: executed on the graph it has just
    produced, it succeeds, leaves that graph as it is and returns the
    same records. *)
Theorem statements_are_idempotent_except_notes (q : Cypher.Stmt) (g g1 : Graph)
    (a : Cypher.Answer) :
  (forall r, q <> Cypher.CreateNote r) ->
  Cypher.exec q g = Ok (g1, a) ->
  Cypher.exec q g1 = Ok (g1, a).
Proof.
  intros Hq H. destruct q; cbn [Cypher.exec] in *.
  - destruct (Cypher.create_constraint c g) as [g'|] eqn:E; [|discriminate].
    injection H as <- <-.
    apply create_constraint_has in E as [E _].
    rewrite (create_constraint_present _ _ E). reflexivity.
  - injection H as <- <-. rewrite drop_index_idempotent. reflexivity.
  - injection H as <- <-. rewrite create_vector_index_idempotent. reflexivity.
  - injection H as <- <-. reflexivity.
  - injection H as <- <-. unfold Cypher.merge_cad_file.
    rewrite merge_node_idempotent; [reflexivity|]. cbn. apply key_eqb_refl.
  - exfalso. apply (Hq r). reflexivity.
  - injection H as <- <-. rewrite merge_material_idempotent. reflexivity.
  - injection H as <- <-. unfold Cypher.merge_standard.
    rewrite merge_node_idempotent; [reflexivity|]. cbn. apply key_eqb_refl.
  - injection H as <- <-. reflexivity.
  - unfold Cypher.link_references in *. injection H as <- <-.
    rewrite (link_rows_nodes note_id code_num g
               (Cypher.merge_edges REFERENCES (Cypher.link_rows note_id code_num g) g))
      by apply merge_edges_nodes.
    rewrite merge_edges_idempotent. reflexivity.
  - injection H as <- <-. reflexivity.
  - injection H as <- <-. reflexivity.
Qed.

(** The material statement on the loaded sample, sent a second time. *)
Lemma statements_are_idempotent_witness :
  Cypher.exec (Cypher.MergeMaterial Sample.steel_again)
    (Cypher.merge_material Sample.steel_again (db Sample.loaded))
  = Ok (Cypher.merge_material Sample.steel_again (db Sample.loaded), Cypher.NoRecords).
Proof.
  apply (statements_are_idempotent_except_notes
           (Cypher.MergeMaterial Sample.steel_again) (db Sample.loaded)).
  - intros r. discriminate.
  - reflexivity.
Defined.

Lemma no_file_no_match (k : Key) (g : Graph) :
  (forall k' a1 a2 a3 a4 a5 a6,
      In (CADFile k' a1 a2 a3 a4 a5 a6) (nodes g) -> k' <> k) ->
  Cypher.match_nodes (Cypher.is_cad_file k) g = [].
Proof.
  intros H. apply positions_from_none. intros n Hin.
  destruct n; try reflexivity. cbn.
  destruct (key_eqb file_id k) eqn:E; [|reflexivity].
  apply key_eqb_eq in E. exfalso. eapply H; eassumption.
Qed.

(** X9.  A material row whose file_id no CADFile node carries is
    skipped without an error: the statement creates no Material node,
    even for a material name the graph does not have yet, updates none
    and adds no edge. *)
Theorem material_of_unknown_file_is_skipped (r : cad_material_properties.row)
    (w : World) :
  (forall k a1 a2 a3 a4 a5 a6,
      In (CADFile k a1 a2 a3 a4 a5 a6) (nodes (db w)) ->
      k <> cad_material_properties.file_id r) ->
  run (Cypher.MergeMaterial r) w
  = (Ok Cypher.NoRecords,
     {| db := db w; trace := trace w ++ [Run (Cypher.MergeMaterial r)] |}).
Proof.
  intros H. rewrite run_exec. cbn [Cypher.exec].
  unfold Cypher.merge_material. rewrite (no_file_no_match _ _ H). reflexivity.
Qed.

Lemma material_of_unknown_file_witness :
  let titanium :=
    {| cad_material_properties.file_id := KInt 99;
       cad_material_properties.material_name := KText (py "titanium");
       cad_material_properties.material_standard := VNull;
       cad_material_properties.density := VInt 4500 |} in
  db (snd (run (Cypher.MergeMaterial titanium) Sample.loaded)) = db Sample.loaded.
Proof.
  cbv zeta. rewrite material_of_unknown_file_is_skipped; [reflexivity|].
  intros k a1 a2 a3 a4 a5 a6 Hin Hk. cbn in Hk. subst k.
  vm_compute in Hin.
  repeat (destruct Hin as [Hin | Hin]; [discriminate Hin|]).
  exact Hin.
Defined.

(** X10.  The note statement is not idempotent: sent twice for one
    row, it creates the notes twice.  With [k] CADFile nodes carrying
    the file_id of the row, the graph gains 2k nodes and 2k edges, so
    only the clearing of the graph keeps a reload from duplicating the
    notes. *)
Theorem note_sent_twice_is_created_twice (r : cad_engineering_notes.row) (g : Graph) :
  let k := List.length
             (Cypher.match_nodes
                (Cypher.is_cad_file (cad_engineering_notes.file_id r)) g) in
  let g2 := Cypher.create_note r (Cypher.create_note r g) in
  Cypher.exec (Cypher.CreateNote r) (Cypher.create_note r g) = Ok (g2, Cypher.NoRecords)
  /\ node_count g2 = node_count g + 2 * k
  /\ edge_count g2 = edge_count g + 2 * k
  /\ List.length (filter (fun n => Cypher.is_note_with_id (cad_engineering_notes.id r) n)
                    (nodes g2))
     = List.length (filter (fun n => Cypher.is_note_with_id (cad_engineering_notes.id r) n)
                      (nodes g))
       + 2 * k.
Proof.
  cbv zeta. split; [reflexivity|].
  assert (Hcount : forall g0,
             let cs := Cypher.match_nodes
                         (Cypher.is_cad_file (cad_engineering_notes.file_id r)) g0 in
             node_count (Cypher.create_note r g0) = node_count g0 + List.length cs
             /\ edge_count (Cypher.create_note r g0) = edge_count g0 + List.length cs
             /\ List.length
                  (filter (fun n => Cypher.is_note_with_id (cad_engineering_notes.id r) n)
                     (nodes (Cypher.create_note r g0)))
                = List.length
                    (filter (fun n => Cypher.is_note_with_id
                                        (cad_engineering_notes.id r) n) (nodes g0))
                  + List.length cs).
  { intros g0. cbv zeta. unfold node_count, edge_count, Cypher.create_note.
    match goal with
    | |- context [fold_left _ ?cs g0] =>
        destruct (create_note_fold (note_of r) cs g0) as (Hn & He & _);
        fold (note_of r); rewrite Hn, He; generalize cs
    end.
    intros cs. rewrite !length_app, !length_map, length_combine, length_seq.
    rewrite filter_app, length_app. split_all; try lia.
    f_equal. induction cs as [|c cs IH]; [reflexivity|].
    cbn [map filter]. unfold note_of at 1. cbn [Cypher.is_note_with_id].
    rewrite key_eqb_refl. cbn [List.length]. rewrite IH. reflexivity. }
  destruct (Hcount g) as (N1 & E1 & F1).
  destruct (Hcount (Cypher.create_note r g)) as (N2 & E2 & F2).
  rewrite create_note_keeps_files in N2, E2, F2.
  split_all; lia.
Qed.

(** ** More on the linking pass *)

Lemma merge_edges_added (t : RelType) (rows : list (NodeId * NodeId)) :
  forall g, exists added,
    edges (Cypher.merge_edges t rows g) = edges g ++ added
    /\ forall e, In e added -> exists x y, e = (x, t, y) /\ In (x, y) rows.
Proof.
  unfold Cypher.merge_edges.
  induction rows as [|[x y] rows IH]; intros g.
  - exists []. rewrite app_nil_r. split; [reflexivity | intros e []].
  - cbn [fold_left fst snd].
    destruct (IH (Cypher.merge_edge (x, t, y) g)) as (added & He & Hadded).
    unfold Cypher.merge_edge in He |- *.
    destruct (existsb (edge_eqb (x, t, y)) (edges g)).
    + exists added. split; [exact He|].
      intros e Hin. destruct (Hadded e Hin) as (x' & y' & -> & Hr).
      exists x', y'. split; [reflexivity | right; exact Hr].
    + exists ((x, t, y) :: added). cbn [Cypher.add_edge with_edges edges] in He |- *.
      rewrite He, <- app_assoc. split; [reflexivity|].
      intros e [<- | Hin].
      * exists x, y. split; [reflexivity | left; reflexivity].
      * destruct (Hadded e Hin) as (x' & y' & -> & Hr).
        exists x', y'. split; [reflexivity | right; exact Hr].
Qed.

Lemma link_fold_added (cs : list (Key * pystr)) : forall st,
  exists added,
    edges (fst (fold_left Ingested.link_step cs st)) = edges (fst st) ++ added
    /\ forall e, In e added ->
         exists k code x y,
           In (k, code) cs /\ e = (x, REFERENCES, y)
           /\ In (x, y) (Cypher.link_rows k code (fst st)).
Proof.
  induction cs as [|[k code] cs IH]; intros st.
  - exists []. cbn. rewrite app_nil_r. split; [reflexivity | intros e []].
  - cbn [fold_left].
    destruct (IH (Ingested.link_step st (k, code))) as (added2 & He2 & H2).
    rewrite link_step_fst in He2. cbn [fst snd] in He2.
    unfold Cypher.link_references in He2. cbn [fst] in He2.
    destruct (merge_edges_added REFERENCES (Cypher.link_rows k code (fst st)) (fst st))
      as (added1 & He1 & H1).
    exists (added1 ++ added2). rewrite He2, He1, <- app_assoc.
    split; [reflexivity|].
    intros e Hin. apply in_app_or in Hin as [Hin | Hin].
    + destruct (H1 e Hin) as (x & y & -> & Hr).
      exists k, code, x, y. split_all; [left; reflexivity | reflexivity | exact Hr].
    + destruct (H2 e Hin) as (k' & code' & x & y & Hc & -> & Hr).
      exists k', code', x, y. split_all; [right; exact Hc | reflexivity|].
      rewrite (link_rows_nodes k' code' (fst st)) in Hr; [exact Hr|].
      rewrite link_step_fst. apply link_references_nodes.
Qed.

Lemma fetch_notes_inv (g : Graph) (k : Key) (content : pystr) :
  In (k, content) (Cypher.fetch_notes g) ->
  exists i type number,
    nth_error (nodes g) i = Some (EngineeringNote k type number content).
Proof.
  unfold Cypher.fetch_notes. intros H. apply in_flat_map in H as (n & Hin & Hn).
  destruct n; try (destruct Hn; fail).
  destruct Hn as [Hn | []]. injection Hn as -> ->.
  apply In_nth_error in Hin as [i Hi]. exists i, note_type, note_number. exact Hi.
Qed.

Lemma citations_inv (g : Graph) (k : Key) (code_num : pystr) :
  In (k, code_num) (Ingested.citations g) ->
  exists content,
    In (k, content) (Cypher.fetch_notes g) /\ In code_num (Re.findall content).
Proof.
  unfold Ingested.citations. intros H.
  apply in_flat_map in H as ([k' content] & Hin & Hc).
  cbn [fst snd] in Hc. apply in_map_iff in Hc as (code & Heq & Hcode).
  injection Heq as -> ->. exists content. split; assumption.
Qed.

(** X11.  The linking pass only adds edges, after those that were
    there, and every edge it adds is a REFERENCES edge from a note to a
    standard whose standard_code contains a digit sequence cited in the
    content of a note with the same note_id. *)
Theorem linking_pass_adds_only_cited_references (w : World) :
  exists added,
    edges (db (snd (Ingest.create_relationships w))) = edges (db w) ++ added
    /\ forall i t j, In (i, t, j) added ->
         t = REFERENCES /\ cited_reference (nodes (db w)) i j.
Proof.
  rewrite create_relationships_spec. cbn [snd db]. unfold Ingested.links.
  destruct (link_fold_added (Ingested.citations (db w)) (db w, 0))
    as (added & He & Hadded).
  exists added. split; [exact He|].
  intros i t j Hin.
  destruct (Hadded _ Hin) as (k & code & x & y & Hc & Heq & Hr).
  injection Heq as -> -> ->. split; [reflexivity|].
  cbn [fst] in Hr. unfold Cypher.link_rows in Hr. apply in_pairs in Hr as [Hx Hy].
  apply match_nodes_spec in Hx as (nx & Hnx & Hpx).
  apply match_nodes_spec in Hy as (ny & Hny & Hpy).
  destruct nx; try discriminate. cbn in Hpx. apply key_eqb_eq in Hpx. subst note_id.
  destruct ny; try discriminate. cbn in Hpy. apply contains_spec in Hpy.
  apply citations_inv in Hc as (content' & Hfetch & Hfind).
  apply fetch_notes_inv in Hfetch as (i' & type' & number' & Hi').
  apply findall_spec in Hfind.
  unfold cited_reference.
  exists k, note_type, note_number, content, i', type', number', content', code,
    doc_id, standard_code, title, total_pages, extraction_timestamp, embedding.
  split_all; assumption.
Qed.

Lemma citations_nodes (g g' : Graph) :
  nodes g' = nodes g -> Ingested.citations g' = Ingested.citations g.
Proof.
  intros H. unfold Ingested.citations, Cypher.fetch_notes. rewrite H. reflexivity.
Qed.

Lemma link_fold_settled (cs : list (Key * pystr)) (g : Graph) : forall n,
  (forall k code x y, In (k, code) cs -> In (x, y) (Cypher.link_rows k code g) ->
                      In (x, REFERENCES, y) (edges g)) ->
  fst (fold_left Ingested.link_step cs (g, n)) = g.
Proof.
  induction cs as [|[k code] cs IH]; intros n H; [reflexivity|].
  cbn [fold_left].
  assert (Hstep : Ingested.link_step (g, n) (k, code)
                  = (g, snd (Ingested.link_step (g, n) (k, code)))).
  { rewrite (surjective_pairing (Ingested.link_step (g, n) (k, code))) at 1.
    rewrite link_step_fst. cbn [fst snd]. unfold Cypher.link_references. cbn [fst].
    rewrite merge_edges_present; [reflexivity|].
    intros x y Hr. apply (H k code); [left; reflexivity | exact Hr]. }
  rewrite Hstep. apply IH.
  intros k' code' x y Hc Hr. apply (H k' code'); [right; exact Hc | exact Hr].
Qed.

(** X12.  The linking pass is idempotent: run a second time, it
    leaves the graph exactly as the first run left it. *)
Theorem linking_pass_is_idempotent (w : World) :
  let w1 := snd (Ingest.create_relationships w) in
  db (snd (Ingest.create_relationships w1)) = db w1.
Proof.
  cbv zeta. rewrite !create_relationships_spec. cbn [snd db].
  set (g1 := fst (Ingested.links (db w))).
  assert (Hnodes : nodes g1 = nodes (db w)) by apply links_nodes.
  unfold Ingested.links at 1. rewrite (citations_nodes _ _ Hnodes).
  apply link_fold_settled.
  intros k code x y Hc Hr.
  rewrite (link_rows_nodes k code (db w) g1 Hnodes) in Hr.
  unfold g1, Ingested.links.
  apply (link_fold_in _ (db w, 0) k code); assumption.
Qed.

Lemma linking_pass_adds_witness :
  exists added,
    edges (db (snd (Ingest.create_relationships Sample.loaded)))
    = edges (db Sample.loaded) ++ added
    /\ Forall (fun e => Cypher.is_references e = true) added.
Proof.
  destruct (linking_pass_adds_only_cited_references Sample.loaded)
    as (added & He & H).
  exists added. split; [exact He|].
  apply Forall_forall. intros [[i t] j] Hin.
  destruct (H i t j Hin) as [-> _]. reflexivity.
Defined.

Lemma positions_from_exists (p : Node -> bool) (ns : list Node) : forall b,
  Nat.ltb 0 (List.length (Cypher.positions_from b p ns)) = existsb p ns.
Proof.
  induction ns as [|n ns IH]; intros b; [reflexivity|].
  cbn [Cypher.positions_from existsb]. destruct (p n); [reflexivity | apply IH].
Qed.

Lemma length_pairs (xs ys : list NodeId) :
  List.length (Cypher.pairs xs ys) = List.length xs * List.length ys.
Proof.
  unfold Cypher.pairs. induction xs as [|x xs IH]; [reflexivity|].
  cbn [flat_map List.length]. rewrite length_app, length_map, IH. lia.
Qed.

(** [count(s) > 0]: a note has the id, and a standard contains the
    digits. *)
Lemma link_count_positive (k : Key) (code : pystr) (g : Graph) :
  Nat.ltb 0 (snd (Cypher.link_references k code g))
  = existsb (Cypher.is_note_with_id k) (nodes g)
    && existsb (Cypher.code_contains code) (nodes g).
Proof.
  unfold Cypher.link_references, Cypher.link_rows, Cypher.match_nodes. cbn [snd].
  rewrite length_pairs, <- !(positions_from_exists _ _ 0).
  destruct (List.length (Cypher.positions_from 0 (Cypher.is_note_with_id k) (nodes g)));
    [reflexivity|].
  destruct (List.length (Cypher.positions_from 0 (Cypher.code_contains code) (nodes g)));
    [rewrite Nat.mul_0_r; reflexivity | reflexivity].
Qed.

Lemma link_fold_count (ns : list Node) (cs : list (Key * pystr)) : forall st,
  nodes (fst st) = ns ->
  snd (fold_left Ingested.link_step cs st)
  = snd st
    + List.length
        (filter (fun c => existsb (Cypher.is_note_with_id (fst c)) ns
                          && existsb (Cypher.code_contains (snd c)) ns) cs).
Proof.
  induction cs as [|c cs IH]; intros st Hns; cbn [fold_left filter]; [cbn; lia|].
  rewrite IH.
  - assert (Hsnd : snd (Ingested.link_step st c)
                   = if Nat.ltb 0 (snd (Cypher.link_references (fst c) (snd c) (fst st)))
                     then snd st + 1 else snd st).
    { unfold Ingested.link_step.
      destruct (Cypher.link_references (fst c) (snd c) (fst st)); reflexivity. }
    rewrite Hsnd, link_count_positive, Hns.
    destruct (existsb (Cypher.is_note_with_id (fst c)) ns
              && existsb (Cypher.code_contains (snd c)) ns); cbn [List.length]; lia.
  - rewrite link_step_fst, link_references_nodes. exact Hns.
Qed.

Lemma citation_has_note (g : Graph) (c : Key * pystr) :
  In c (Ingested.citations g) ->
  existsb (Cypher.is_note_with_id (fst c)) (nodes g) = true.
Proof.
  destruct c as [k code]. intros H.
  apply citations_inv in H as (content & Hfetch & _).
  apply fetch_notes_inv in Hfetch as (i & type & number & Hi).
  apply existsb_exists. eexists. split; [eapply nth_error_In; exact Hi|].
  cbn. apply key_eqb_refl.
Qed.

(** X13.  The number in the last line the linking pass prints is not
    the number of edges created: it is the number of citations, counted
    note by note and occurrence by occurrence, whose digits are contained
    in the standard_code of at least one standard. *)
Theorem linking_pass_prints_matched_citations (w : World) :
  let matched :=
    filter (fun c => existsb (Cypher.code_contains (snd c)) (nodes (db w)))
      (Ingested.citations (db w)) in
  exists events,
    trace (snd (Ingest.create_relationships w))
    = trace w ++ events
      ++ [Print (py "Created " ++ str_of_nat (List.length matched)
                 ++ py " links between Notes and Standards.")].
Proof.
  cbv zeta. rewrite create_relationships_spec. cbn [snd trace].
  unfold Ingested.link_events.
  assert (Hcount : snd (Ingested.links (db w))
                   = List.length
                       (filter (fun c => existsb (Cypher.code_contains (snd c))
                                           (nodes (db w)))
                          (Ingested.citations (db w)))).
  { unfold Ingested.links.
    rewrite (link_fold_count (nodes (db w)) _ (db w, 0) eq_refl). cbn [snd plus].
    f_equal. apply filter_ext_in. intros c Hc.
    rewrite (citation_has_note _ _ Hc). reflexivity. }
  rewrite Hcount.
  exists ([Print (py "Creating relationships between Notes and Standards...");
           Run Cypher.FetchNotes]
          ++ map (fun c => Run (Cypher.LinkReferences (fst c) (snd c)))
               (Ingested.citations (db w))).
  rewrite <- !app_assoc. reflexivity.
Qed.

Lemma links_complete_shared (g : Graph) (i i' j : NodeId) (k : Key)
    (ty num ty' num' : Value) (content content' code_num : pystr) (s : Node) :
  nth_error (nodes g) i = Some (EngineeringNote k ty num content) ->
  nth_error (nodes g) i' = Some (EngineeringNote k ty' num' content') ->
  In code_num (Re.findall content') ->
  nth_error (nodes g) j = Some s ->
  Cypher.code_contains code_num s = true ->
  In (i, REFERENCES, j) (edges (fst (Ingested.links g))).
Proof.
  intros Hi Hi' Hc Hj Hs. unfold Ingested.links.
  apply (link_fold_in _ (g, 0) k code_num).
  - eapply citations_in; [eapply fetch_notes_in; exact Hi' | exact Hc].
  - cbn [fst]. unfold Cypher.link_rows. apply in_pairs. split.
    + apply match_nodes_spec. eexists. split; [exact Hi|]. cbn. apply key_eqb_refl.
    + apply match_nodes_spec. eexists. split; [exact Hj | exact Hs].
Qed.

(** X14.  Notes are linked by note_id, not one by one: when two notes
    have the same note_id, each of them is linked to every standard that
    the content of the other cites. *)
Theorem notes_with_one_id_share_references (w : World) (i i' j : NodeId)
    (note_id : Key) (type number type' number' : Value)
    (content content' code_num : pystr)
    (doc_id : Key) (standard_code : pystr) (title : option pystr)
    (pages date : Value) (embedding : list float) :
  nth_error (nodes (db w)) i = Some (EngineeringNote note_id type number content) ->
  nth_error (nodes (db w)) i'
  = Some (EngineeringNote note_id type' number' content') ->
  Spec.cites content' code_num ->
  nth_error (nodes (db w)) j
  = Some (StandardDocument doc_id standard_code title pages date embedding) ->
  Spec.substring code_num standard_code ->
  In (i, REFERENCES, j) (edges (db (snd (Ingest.create_relationships w)))).
Proof.
  intros Hi Hi' Hc Hj Hs. rewrite create_relationships_spec. cbn [snd db].
  eapply links_complete_shared; [exact Hi | exact Hi' | | exact Hj |].
  - apply findall_spec. exact Hc.
  - cbn. apply contains_spec. exact Hs.
Qed.

(** The note "Deburr all edges" cites nothing and is linked to "STD 12",
    which the other note of its note_id cites. *)
Lemma notes_share_references_witness :
  Re.findall (py "Deburr all edges") = []
  /\ In (2, REFERENCES, 3) (edges (db (snd (Ingest.create_relationships Shared.world)))).
Proof.
  split; [vm_compute; reflexivity|].
  apply (notes_with_one_id_share_references Shared.world 2 1 3 (KInt 10)
           VNull VNull VNull VNull (py "Deburr all edges") (py "Bolt per STD 12")
           (py "12") (KInt 100) (py "STD 12") None VNull VNull []).
  - reflexivity.
  - reflexivity.
  - exists (py "Bolt per "), [32%N], []. split_all.
    + vm_compute. reflexivity.
    + right. exists 32%N. split; reflexivity.
    + split; [vm_compute; discriminate | vm_compute; repeat constructor].
    + exact I.
  - reflexivity.
  - exists (py "STD "), []. vm_compute. reflexivity.
Defined.

(** ** The shape of the graph *)

Lemma label_eqb_eq (a b : Label) : label_eqb a b = true <-> a = b.
Proof. destruct a, b; cbn; split; congruence. Qed.

Lemma edge_ok_spec (ns : list Node) (s d : NodeId) (t : RelType) :
  edge_ok ns (s, t, d) = true
  <-> exists a b,
        nth_error ns s = Some a /\ nth_error ns d = Some b
        /\ label_of a = fst (endpoints t) /\ label_of b = snd (endpoints t).
Proof.
  unfold edge_ok, has_label. split.
  - destruct (nth_error ns s) as [a|]; [|discriminate].
    destruct (nth_error ns d) as [b|]; [|discriminate].
    intros H. apply andb_true_iff in H as [Ha Hb].
    apply label_eqb_eq in Ha, Hb. exists a, b. split_all; auto.
  - intros (a & b & -> & -> & Ha & Hb). apply andb_true_iff.
    split; apply label_eqb_eq; assumption.
Qed.

Lemma extends_refl ns : extends ns ns.
Proof. intros i n H. exists n. split; [exact H | reflexivity]. Qed.

Lemma extends_app ns l : extends ns (ns ++ l).
Proof.
  intros i n H. exists n. split; [|reflexivity].
  rewrite nth_error_app1; [exact H|]. apply nth_error_Some. congruence.
Qed.

Lemma extends_map (h : Node -> Node) ns :
  (forall n, label_of (h n) = label_of n) -> extends ns (map h ns).
Proof.
  intros Hh i n H. exists (h n). split; [|apply Hh].
  rewrite nth_error_map, H. reflexivity.
Qed.

Lemma edge_ok_extends ns ns' e :
  extends ns ns' -> edge_ok ns e = true -> edge_ok ns' e = true.
Proof.
  destruct e as [[s t] d]. intros Hext H.
  apply edge_ok_spec in H as (a & b & Ha & Hb & La & Lb).
  destruct (Hext _ _ Ha) as (a' & Ha' & La').
  destruct (Hext _ _ Hb) as (b' & Hb' & Lb').
  apply edge_ok_spec. exists a', b'. split_all; congruence.
Qed.

Lemma merge_node_extends p new g :
  (forall n, p n = true -> label_of n = label_of new) ->
  extends (nodes g) (nodes (Cypher.merge_node p new g)).
Proof.
  intros Hp. unfold Cypher.merge_node. destruct (existsb p (nodes g)).
  - cbn [Cypher.set_where with_nodes nodes]. apply extends_map.
    intros n. destruct (p n) eqn:E; [symmetry; apply Hp; exact E | reflexivity].
  - cbn [Cypher.add_node with_nodes nodes]. apply extends_app.
Qed.

Lemma sound_same_edges (g g' : Graph) :
  extends (nodes g) (nodes g') -> edges g' = edges g -> sound g -> sound g'.
Proof.
  intros Hext He [Hw Hd]. unfold sound, well_formed. rewrite He. split; [|exact Hd].
  apply forallb_forall. intros e Hin.
  apply (edge_ok_extends (nodes g)); [exact Hext|].
  unfold well_formed in Hw. rewrite forallb_forall in Hw. apply Hw. exact Hin.
Qed.

Lemma merge_node_sound p new g :
  (forall n, p n = true -> label_of n = label_of new) ->
  sound g -> sound (Cypher.merge_node p new g).
Proof.
  intros Hp. apply sound_same_edges.
  - apply merge_node_extends. exact Hp.
  - apply merge_node_edges.
Qed.

Lemma NoDup_snoc {A} (l : list A) (x : A) :
  NoDup l -> ~ In x l -> NoDup (l ++ [x]).
Proof.
  intros Hl Hx. apply NoDup_app; [exact Hl | repeat constructor; intros [] |].
  intros a Ha [<- | []]. contradiction.
Qed.

Lemma merge_edge_sound e g :
  edge_ok (nodes g) e = true -> sound g -> sound (Cypher.merge_edge e g).
Proof.
  intros He [Hw Hd]. unfold Cypher.merge_edge.
  destruct (existsb (edge_eqb e) (edges g)) eqn:Hex; [split; assumption|].
  unfold sound, well_formed. cbn [Cypher.add_edge with_edges nodes edges]. split.
  - rewrite forallb_app. cbn [forallb]. unfold well_formed in Hw.
    rewrite Hw, He. reflexivity.
  - apply NoDup_snoc; [exact Hd|]. intros Hin.
    apply (existsb_false_all _ _ Hex) in Hin.
    rewrite (proj2 (edge_eqb_eq e e) eq_refl) in Hin. discriminate.
Qed.

Lemma merge_edges_sound t rows : forall g,
  (forall x y, In (x, y) rows -> edge_ok (nodes g) (x, t, y) = true) ->
  sound g -> sound (Cypher.merge_edges t rows g).
Proof.
  unfold Cypher.merge_edges.
  induction rows as [|[x y] rows IH]; intros g H Hs; [exact Hs|].
  cbn [fold_left fst snd]. apply IH.
  - intros x' y' Hin. rewrite merge_edge_nodes. apply H. right. exact Hin.
  - apply merge_edge_sound; [apply H; left; reflexivity | exact Hs].
Qed.

Lemma map_snd_combine {A B} (xs : list A) : forall ys : list B,
  List.length ys = List.length xs -> map snd (combine xs ys) = ys.
Proof.
  induction xs as [|x xs IH]; intros [|y ys] H; try discriminate; [reflexivity|].
  cbn [combine map snd]. rewrite IH; [reflexivity|]. cbn in H. lia.
Qed.

Lemma create_note_sound r g : sound g -> sound (Cypher.create_note r g).
Proof.
  intros [Hw Hd]. unfold Cypher.create_note.
  set (cs := Cypher.match_nodes
               (Cypher.is_cad_file (cad_engineering_notes.file_id r)) g).
  destruct (create_note_fold (note_of r) cs g) as (Hn & He & _).
  fold (note_of r). cbv zeta in Hn, He.
  set (g' := fold_left _ cs g) in *.
  set (new := combine cs (seq (List.length (nodes g)) (List.length cs))) in *.
  assert (Hnew : forall c m, In (c, m) new ->
                   In c cs /\ List.length (nodes g) <= m
                   /\ m < List.length (nodes g) + List.length cs).
  { intros c m Hin. split; [eapply in_combine_l; exact Hin|].
    apply in_combine_r in Hin. apply in_seq in Hin. lia. }
  unfold sound, well_formed. rewrite Hn, He. split.
  - rewrite forallb_app. apply andb_true_iff. split.
    + apply forallb_forall. intros e Hin.
      apply (edge_ok_extends (nodes g)); [apply extends_app|].
      unfold well_formed in Hw. rewrite forallb_forall in Hw. apply Hw. exact Hin.
    + apply forallb_forall. intros e Hin.
      apply in_map_iff in Hin as ([c m] & <- & Hin). cbn [fst snd].
      destruct (Hnew c m Hin) as (Hc & Hlo & Hhi).
      apply match_nodes_spec in Hc as (n & Hnc & Hp).
      apply edge_ok_spec.
      assert (Hm : exists b, nth_error (nodes g ++ map (fun _ => note_of r) cs) m
                             = Some b /\ label_of b = L_EngineeringNote).
      { rewrite nth_error_app2 by lia. rewrite nth_error_map.
        destruct (nth_error cs (m - List.length (nodes g))) eqn:E.
        - eexists. split; reflexivity.
        - exfalso. apply nth_error_None in E. lia. }
      destruct Hm as (b & Hb & Lb).
      exists n, b. split_all.
      * rewrite nth_error_app1; [exact Hnc|]. apply nth_error_Some. congruence.
      * exact Hb.
      * destruct n; try discriminate. reflexivity.
      * exact Lb.
  - apply NoDup_app.
    + exact Hd.
    + apply (NoDup_map_inv (fun e : Edge => snd e)). rewrite map_map. cbn [snd].
      change (fun x : NodeId * NodeId => snd x) with (@snd NodeId NodeId).
      unfold new. rewrite map_snd_combine by apply length_seq.
      apply seq_NoDup.
    + intros e Hold Hin. apply in_map_iff in Hin as ([c m] & <- & Hin).
      cbn [fst snd] in Hold. destruct (Hnew c m Hin) as (_ & Hlo & _).
      unfold well_formed in Hw. rewrite forallb_forall in Hw.
      apply Hw in Hold. apply edge_ok_spec in Hold as (a & b & _ & Hb & _).
      assert (m < List.length (nodes g)) by (apply nth_error_Some; congruence).
      lia.
Qed.

Lemma merge_material_sound r g : sound g -> sound (Cypher.merge_material r g).
Proof.
  intros Hs. unfold Cypher.merge_material.
  destruct (Cypher.match_nodes
              (Cypher.is_cad_file (cad_material_properties.file_id r)) g)
    as [|c cs] eqn:Hcs; [exact Hs|].
  set (name := cad_material_properties.material_name r).
  set (new := Material name (cad_material_properties.material_standard r)
                (cad_material_properties.density r)).
  assert (Hlabel : forall n, Cypher.is_material name n = true
                             -> label_of n = label_of new).
  { intros n Hn. destruct n; try discriminate. reflexivity. }
  apply merge_edges_sound; [|apply merge_node_sound; assumption].
  intros x y Hin. apply in_pairs in Hin as [Hx Hy].
  rewrite <- Hcs in Hx. apply match_nodes_spec in Hx as (a & Ha & Hpa).
  apply match_nodes_spec in Hy as (b & Hb & Hpb).
  destruct (merge_node_extends _ new g Hlabel _ _ Ha) as (a' & Ha' & La').
  apply edge_ok_spec. exists a', b. split_all.
  - exact Ha'.
  - exact Hb.
  - rewrite La'. destruct a; try discriminate. reflexivity.
  - destruct b; try discriminate. reflexivity.
Qed.

Lemma link_references_sound k code g :
  sound g -> sound (fst (Cypher.link_references k code g)).
Proof.
  intros Hs. unfold Cypher.link_references. cbn [fst].
  apply merge_edges_sound; [|exact Hs].
  intros x y Hin. unfold Cypher.link_rows in Hin. apply in_pairs in Hin as [Hx Hy].
  apply match_nodes_spec in Hx as (a & Ha & Hpa).
  apply match_nodes_spec in Hy as (b & Hb & Hpb).
  apply edge_ok_spec. exists a, b. split_all; try assumption.
  - destruct a; try discriminate. reflexivity.
  - destruct b; try discriminate. reflexivity.
Qed.

Lemma sound_same_data (g g' : Graph) :
  nodes g' = nodes g -> edges g' = edges g -> sound g -> sound g'.
Proof.
  intros Hn He. apply sound_same_edges; [|exact He].
  rewrite Hn. apply extends_refl.
Qed.

(** Every statement keeps a sound graph sound. *)
Lemma exec_sound (q : Cypher.Stmt) (g g' : Graph) (a : Cypher.Answer) :
  sound g -> Cypher.exec q g = Ok (g', a) -> sound g'.
Proof.
  intros Hs H. destruct q; cbn [Cypher.exec] in H.
  - destruct (Cypher.create_constraint c g) as [g1|] eqn:E; [|discriminate].
    injection H as <- <-. apply create_constraint_data in E as [En Ee].
    eapply sound_same_data; eassumption.
  - injection H as <- <-. eapply sound_same_data; [| |exact Hs]; reflexivity.
  - injection H as <- <-. unfold Cypher.create_vector_index.
    destruct (existsb _ _); [exact Hs|].
    eapply sound_same_data; [| |exact Hs]; reflexivity.
  - injection H as <- <-. split; [reflexivity | constructor].
  - injection H as <- <-. apply merge_node_sound; [|exact Hs].
    intros n Hn. destruct n; try discriminate. reflexivity.
  - injection H as <- <-. apply create_note_sound. exact Hs.
  - injection H as <- <-. apply merge_material_sound. exact Hs.
  - injection H as <- <-. apply merge_node_sound; [|exact Hs].
    intros n Hn. destruct n; try discriminate. reflexivity.
  - injection H as <- <-. exact Hs.
  - pose proof (link_references_sound note_id code_num g Hs) as Hl.
    destruct (Cypher.link_references note_id code_num g) as [g1 n].
    injection H as <- <-. exact Hl.
  - injection H as <- <-. exact Hs.
  - injection H as <- <-. exact Hs.
Qed.

Lemma completed_graph_sound g1 files notes materials docs :
  sound (Completed.graph g1 files notes materials docs).
Proof.
  unfold Completed.graph, Completed.loaded, Ingested.links.
  apply (fold_left_invariant _ (fun st : Graph * nat => sound (fst st))).
  { intros st c H. rewrite link_step_fst. apply link_references_sound. exact H. }
  cbn [fst]. unfold Ingested.rds, Ingested.cad.
  apply fold_left_invariant.
  { intros g dv H. apply (exec_sound (Cypher.MergeStandard (fst dv) (snd dv)) g _
                            Cypher.NoRecords H). reflexivity. }
  apply fold_left_invariant; [intros; apply merge_material_sound; assumption|].
  apply fold_left_invariant; [intros; apply create_note_sound; assumption|].
  apply fold_left_invariant.
  { intros g r H. apply (exec_sound (Cypher.MergeCADFile r) g _
                           Cypher.NoRecords H). reflexivity. }
  split; [reflexivity | constructor].
Qed.

(** X15.  Whatever statement of the scripts is sent, and whether the
    server executes or refuses it, a graph in which every edge joins two
    existing nodes with the labels of its type and no edge occurs twice
    is still such a graph afterwards. *)
Theorem every_statement_keeps_the_graph_sound (q : Cypher.Stmt) (w : World) :
  sound (db w) -> sound (db (snd (run q w))).
Proof.
  intros Hs. rewrite run_exec.
  destruct (Cypher.exec q (db w)) as [[g a]|e] eqn:E; cbn [snd db].
  - eapply exec_sound; eassumption.
  - exact Hs.
Qed.

Lemma every_statement_sound_witness :
  sound (db (snd (run (Cypher.LinkReferences (KInt 10) (py "12")) Sample.loaded))).
Proof.
  apply every_statement_keeps_the_graph_sound.
  split; [vm_compute; reflexivity|].
  vm_compute. constructor; [intros [H | []]; discriminate H|].
  constructor; [intros [] | constructor].
Defined.

(** X16.  After a completed ingestion, every edge of the graph joins
    two nodes of the graph, a HAS_NOTE edge a CADFile to an
    EngineeringNote, a HAS_MATERIAL edge a CADFile to a Material, a
    REFERENCES edge an EngineeringNote to a StandardDocument, and no edge
    occurs twice. *)
Theorem ingested_graph_is_sound (env : Env) (w : World) :
  completes env w ->
  let g := db (snd (Ingest.main env w)) in
  (forall s t d, In (s, t, d) (edges g) ->
     exists a b,
       nth_error (nodes g) s = Some a /\ nth_error (nodes g) d = Some b
       /\ label_of a = fst (endpoints t) /\ label_of b = snd (endpoints t))
  /\ NoDup (edges g).
Proof.
  intros H. cbv zeta.
  destruct (completed_run env w H)
    as (g1 & files & notes & materials & docs & vs & _ & _ & _ & _ & _ & _ & Hmain).
  rewrite Hmain. cbn [snd db].
  destruct (completed_graph_sound g1 files notes materials (combine docs vs))
    as [Hw Hd].
  split; [|exact Hd].
  intros s t d Hin. apply edge_ok_spec.
  unfold well_formed in Hw. rewrite forallb_forall in Hw. apply Hw. exact Hin.
Qed.

Lemma ingested_graph_witness : NoDup (edges (db Sample.ingested)).
Proof.
  destruct (ingested_graph_is_sound Sample.env Sample.world) as [_ H].
  - vm_compute. reflexivity.
  - exact H.
Defined.

(** ** The standards phase and the other nodes *)

Lemma merge_node_keeps_nth p new g i n :
  nth_error (nodes g) i = Some n -> p n = false ->
  nth_error (nodes (Cypher.merge_node p new g)) i = Some n.
Proof.
  intros Hi Hp. unfold Cypher.merge_node. destruct (existsb p (nodes g)).
  - cbn [Cypher.set_where with_nodes nodes]. rewrite nth_error_map, Hi. cbn.
    rewrite Hp. reflexivity.
  - cbn [Cypher.add_node with_nodes nodes]. rewrite nth_error_app1; [exact Hi|].
    apply nth_error_Some. congruence.
Qed.

(** X17.  The standards phase touches StandardDocument nodes only:
    when it completes, the edges are those it found, and every node of
    another label is at its position, unchanged. *)
Theorem standards_phase_keeps_the_rest (env : Env) (w w' : World) :
  Ingest.ingest_rds_data env w = (Ok tt, w') ->
  edges (db w') = edges (db w)
  /\ forall i n,
       nth_error (nodes (db w)) i = Some n ->
       label_of n <> L_StandardDocument ->
       nth_error (nodes (db w')) i = Some n.
Proof.
  intros Hrun.
  destruct (ingest_rds_data_inv env w w' Hrun) as (docs & vs & Hd & Hv).
  rewrite (ingest_rds_data_spec env w docs vs Hd Hv) in Hrun.
  injection Hrun as <-. cbn [db]. split; [apply rds_edges|].
  intros i n Hi Hl. unfold Ingested.rds.
  apply (fold_left_invariant _ (fun g => nth_error (nodes g) i = Some n));
    [|exact Hi].
  intros g dv H. unfold Cypher.merge_standard. apply merge_node_keeps_nth; [exact H|].
  destruct n; try reflexivity. contradiction Hl. reflexivity.
Qed.

Lemma standards_phase_witness :
  nth_error (nodes (db (snd (Ingest.ingest_rds_data Sample.env_other_vectors
                               Sample.ingested)))) 1
  = Some (EngineeringNote (KInt 10) (VText (py "general")) VNull
            (py "Bolt per STD 12")).
Proof.
  destruct (standards_phase_keeps_the_rest Sample.env_other_vectors Sample.ingested
              (snd (Ingest.ingest_rds_data Sample.env_other_vectors Sample.ingested)))
    as [_ H].
  - vm_compute. reflexivity.
  - apply H; [reflexivity | discriminate].
Defined.

(** ** The driver of ingest.py *)

Lemma staged_in_phase (ps : list Phase) : forall evs e,
  staged ps evs -> In e evs -> exists p, In p ps /\ in_phase p e = true.
Proof.
  induction ps as [|p ps IH]; intros evs e Hs Hin.
  - cbn in Hs. subst. destruct Hin.
  - destruct Hs as (here & later & -> & F & Hl).
    apply in_app_or in Hin as [Hin | Hin].
    + exists p. split; [left; reflexivity|].
      rewrite forallb_forall in F. apply F. exact Hin.
    + destruct (IH later e Hl Hin) as (q & Hq & Hp).
      exists q. split; [right; exact Hq | exact Hp].
Qed.

Lemma ingestion_keeps_the_driver_open env (w : World) :
  exists evs,
    trace (snd (Ingest.ingestion env w)) = trace w ++ evs /\ ~ In DriverClose evs.
Proof.
  assert (Ht : through [Setup; Clear; LoadCad; LoadStandards; Link; Link]
                 (Ingest.ingestion env)).
  { unfold Ingest.ingestion.
    apply through_bind; [apply within_setup_constraints | intros _].
    apply through_bind; [apply within_clear_database | intros _].
    apply through_bind; [apply within_ingest_cad_data | intros _].
    apply through_bind; [apply within_ingest_rds_data | intros _].
    apply through_bind; [apply within_create_relationships | intros _].
    apply through_last. apply within_print. }
  destruct (Ht w) as (evs & Htr & Hs). exists evs. split; [exact Htr|].
  intros Hin. destruct (staged_in_phase _ _ _ Hs Hin) as (p & Hp & Hc).
  cbn [In] in Hp.
  repeat (destruct Hp as [<- | Hp]; [discriminate Hc|]). destruct Hp.
Qed.

(** X18.  [main] of ingest.py never raises, whatever the sources, the
    embedding model and the graph do, and closes the driver exactly
    once, as the last thing it does. *)
Theorem main_closes_the_driver_once (env : Env) (w : World) :
  fst (Ingest.main env w) = Ok tt
  /\ exists events,
       trace (snd (Ingest.main env w)) = trace w ++ events ++ [DriverClose]
       /\ ~ In DriverClose events.
Proof.
  rewrite main_unfold.
  destruct (ingestion_keeps_the_driver_open env w) as (evs & Ht & Hno).
  destruct (Ingest.ingestion env w) as [[[]|e] w']; cbn [snd] in Ht;
    cbn [fst snd trace]; (split; [reflexivity|]).
  - exists evs. rewrite Ht, app_assoc. split; [reflexivity | exact Hno].
  - exists (evs ++ [Print (py "An error occurred: " ++ e)]).
    rewrite Ht. repeat rewrite <- app_assoc. split; [reflexivity|].
    intros Hin. apply in_app_or in Hin as [Hin | [Hin | []]];
      [exact (Hno Hin) | discriminate Hin].
Qed.

(** ** verify_setup.py *)

(** X19.  With the three variables set and the database reachable,
    [verify] reports the number of nodes of the graph and the number of
    its REFERENCES edges, closes the driver, and leaves the graph as it
    found it. *)
Theorem verify_reports_the_counts (env : Env) (w : World) :
  all_set env = true ->
  verify_connectivity env = Ok tt ->
  VerifySetup.verify env w
  = (Ok tt,
     {| db := db w;
        trace := trace w
          ++ [Print (py "Verifying Setup...");
              DriverOpen (env_value env "NEO4J_URI")
                (env_value env "NEO4J_USERNAME") (env_value env "NEO4J_PASSWORD");
              VerifyConnectivity;
              Print (py "SUCCESS: Connected to Neo4j.");
              Run Cypher.CountNodes;
              Print (py "SUCCESS: Found "
                     ++ str_of_nat (List.length (nodes (db w)))
                     ++ py " nodes in the database.");
              Run Cypher.CountReferences;
              Print (py "SUCCESS: Found "
                     ++ str_of_nat
                          (List.length
                             (filter Cypher.is_references (edges (db w))))
                     ++ py " REFERENCES relationships.");
              DriverClose] |}).
Proof.
  intros Hset Hconn. unfold VerifySetup.verify. rewrite Hset, Hconn.
  unfold bind, try_except, driver_open, print, emit, run, ret, log, node_count.
  cbn [db trace fst snd Cypher.exec VerifySetup.count_of].
  repeat rewrite <- app_assoc. cbn [app].
  reflexivity.
Qed.

Lemma verify_reports_witness :
  exists events,
    VerifySetup.verify Sample.env Sample.ingested
    = (Ok tt, {| db := db Sample.ingested;
                 trace := trace Sample.ingested ++ events |})
    /\ In (Print (py "SUCCESS: Found 2 REFERENCES relationships.")) events.
Proof.
  eexists. split.
  - apply verify_reports_the_counts; reflexivity.
  - vm_compute. tauto.
Defined.

(** X20.  With the three variables set and the database out of reach,
    [verify] prints the error of the connection attempt and returns
    normally: it sends no statement, and the driver it opened is not
    closed. *)
Theorem verify_reports_a_connection_failure (env : Env) (w : World) (e : Exn) :
  all_set env = true ->
  verify_connectivity env = Raise e ->
  VerifySetup.verify env w
  = (Ok tt,
     {| db := db w;
        trace := trace w
          ++ [Print (py "Verifying Setup...");
              DriverOpen (env_value env "NEO4J_URI")
                (env_value env "NEO4J_USERNAME") (env_value env "NEO4J_PASSWORD");
              VerifyConnectivity;
              Print (py "FAILED: Connection error: " ++ e)] |}).
Proof.
  intros Hset Hconn. unfold VerifySetup.verify. rewrite Hset, Hconn.
  unfold bind, try_except, driver_open, print, emit, raise, log.
  cbn [db trace fst snd].
  repeat rewrite <- app_assoc. cbn [app].
  reflexivity.
Qed.

Lemma verify_connection_failure_witness :
  trace (snd (VerifySetup.verify Failing.env_database_down Sample.world))
  = [Print (py "Verifying Setup...");
     DriverOpen (env_value Sample.env "NEO4J_URI")
       (env_value Sample.env "NEO4J_USERNAME") (env_value Sample.env "NEO4J_PASSWORD");
     VerifyConnectivity;
     Print (py "FAILED: Connection error: ServiceUnavailable")].
Proof.
  rewrite (verify_reports_a_connection_failure Failing.env_database_down
             Sample.world (py "ServiceUnavailable"));
    reflexivity.
Defined.

(** ** Notes without a citation *)

Lemma findall_without_STD (content : pystr) :
  contains content Spec.STD = false -> Re.findall content = [].
Proof.
  intros H. destruct (Re.findall content) as [|code_num rest] eqn:E; [reflexivity|].
  assert (Hin : In code_num (Re.findall content)) by (rewrite E; left; reflexivity).
  apply findall_spec in Hin. destruct Hin as (pre & ws & post & -> & _).
  assert (Hc : contains (pre ++ Spec.STD ++ ws ++ code_num ++ post) Spec.STD = true).
  { apply contains_spec. exists pre, (ws ++ code_num ++ post). reflexivity. }
  congruence.
Qed.

(** X21.  When no EngineeringNote of the graph has the letters STD in
    its content, the linking pass reads the notes and sends nothing
    else: the graph is as it was, and the pass reports 0 links. *)
Theorem pass_without_citations (w : World) :
  (forall k content,
     In (k, content) (Cypher.fetch_notes (db w)) ->
     contains content Spec.STD = false) ->
  Ingest.create_relationships w
  = (Ok tt,
     {| db := db w;
        trace := trace w
          ++ [Print (py "Creating relationships between Notes and Standards...");
              Run Cypher.FetchNotes;
              Print (py "Created 0 links between Notes and Standards.")] |}).
Proof.
  intros H. rewrite create_relationships_spec.
  assert (Hc : Ingested.citations (db w) = []).
  { unfold Ingested.citations.
    induction (Cypher.fetch_notes (db w)) as [|[k content] rest IH];
      [reflexivity|].
    cbn [flat_map fst snd]. rewrite (findall_without_STD content).
    - cbn [map app]. apply IH. intros k' c' Hin. apply (H k' c'). right. exact Hin.
    - apply (H k content). left. reflexivity. }
  unfold Ingested.link_events, Ingested.links. rewrite Hc.
  cbn [fold_left fst snd map app]. reflexivity.
Qed.

Lemma pass_without_citations_witness :
  db (snd (Ingest.create_relationships
             {| db := with_nodes
                        [EngineeringNote (KInt 11) (VText (py "general")) VNull
                           (py "Deburr all edges")] empty_graph;
                trace := [] |}))
  = with_nodes
      [EngineeringNote (KInt 11) (VText (py "general")) VNull
         (py "Deburr all edges")] empty_graph.
Proof.
  rewrite pass_without_citations; [reflexivity|].
  intros k content Hin. vm_compute in Hin.
  destruct Hin as [Hin | []]. injection Hin as <- <-. vm_compute. reflexivity.
Defined.

(** ** The number of standards *)

Lemma rds_count (dvs : list (rds_documents.row * list float)) : forall g,
  NoDup (map (fun dv => rds_documents.doc_id (fst dv)) dvs) ->
  (forall dv, In dv dvs ->
     existsb (Cypher.is_standard (rds_documents.doc_id (fst dv))) (nodes g) = false) ->
  List.length (filter (has_label L_StandardDocument) (nodes (Ingested.rds dvs g)))
  = List.length (filter (has_label L_StandardDocument) (nodes g)) + List.length dvs.
Proof.
  unfold Ingested.rds.
  induction dvs as [|[d v] dvs IH]; intros g Hnd Hnew; cbn [fold_left List.length].
  - lia.
  - cbn [map fst] in Hnd. apply NoDup_cons_iff in Hnd as [Hd Hnd].
    assert (Hg : Cypher.merge_standard d v g
                 = Cypher.add_node
                     (StandardDocument (rds_documents.doc_id d)
                        (rds_documents.standard_code d) (rds_documents.title d)
                        (rds_documents.total_pages d)
                        (rds_documents.extraction_date d) v) g).
    { unfold Cypher.merge_standard, Cypher.merge_node.
      specialize (Hnew (d, v) (or_introl eq_refl)). cbn [fst] in Hnew.
      rewrite Hnew. reflexivity. }
    cbn [fst snd]. rewrite Hg, IH; [| exact Hnd |].
    + cbn [Cypher.add_node with_nodes nodes]. rewrite filter_app, length_app.
      cbn. lia.
    + intros dv Hin. cbn [Cypher.add_node with_nodes nodes].
      rewrite existsb_app, (Hnew dv); [|right; exact Hin].
      cbn [existsb Cypher.is_standard orb].
      destruct (key_eqb (rds_documents.doc_id d) (rds_documents.doc_id (fst dv)))
        eqn:E; [|reflexivity].
      apply key_eqb_eq in E. contradiction Hd. rewrite E.
      apply (in_map (fun dv => rds_documents.doc_id (fst dv))). exact Hin.
Qed.

Lemma embedded_doc_ids env docs vs :
  embedded env docs vs ->
  map (fun dv => rds_documents.doc_id (fst dv)) (combine docs vs)
  = map rds_documents.doc_id docs
  /\ List.length (combine docs vs) = List.length docs.
Proof.
  intros H. induction H as [|d v docs vs _ _ [IH1 IH2]]; [split; reflexivity|].
  cbn [combine map fst List.length]. rewrite IH1, IH2. split; reflexivity.
Qed.

(** X22.  When the rows of rds_documents have pairwise distinct
    doc_id values and the graph holds no StandardDocument yet, a
    completed standards phase leaves exactly one StandardDocument node
    per row. *)
Theorem one_standard_per_row (env : Env) (w w' : World)
    (docs : list rds_documents.row) :
  select_rds_documents env = Ok docs ->
  NoDup (map rds_documents.doc_id docs) ->
  (forall n, In n (nodes (db w)) -> label_of n <> L_StandardDocument) ->
  Ingest.ingest_rds_data env w = (Ok tt, w') ->
  List.length (filter (has_label L_StandardDocument) (nodes (db w')))
  = List.length docs.
Proof.
  intros Hd Hnd Hnone Hrun.
  destruct (ingest_rds_data_inv env w w' Hrun) as (docs' & vs & Hd' & Hv).
  rewrite Hd in Hd'. injection Hd' as <-.
  rewrite (ingest_rds_data_spec env w docs vs Hd Hv) in Hrun.
  injection Hrun as <-. cbn [db].
  destruct (embedded_doc_ids env docs vs Hv) as [Hids Hlen].
  assert (Hno : forall k, existsb (Cypher.is_standard k) (nodes (db w)) = false).
  { intros k. induction (nodes (db w)) as [|n ns IH]; [reflexivity|].
    cbn [existsb]. rewrite IH; [|intros m Hm; apply Hnone; right; exact Hm].
    rewrite orb_false_r. specialize (Hnone n (or_introl eq_refl)).
    destruct n; try reflexivity. contradiction Hnone. reflexivity. }
  rewrite rds_count; [| rewrite Hids; exact Hnd | intros dv _; apply Hno].
  rewrite Hlen.
  assert (H0 : filter (has_label L_StandardDocument) (nodes (db w)) = []).
  { clear - Hnone. induction (nodes (db w)) as [|n ns IH]; [reflexivity|].
    cbn [filter]. rewrite IH; [|intros m Hm; apply Hnone; right; exact Hm].
    specialize (Hnone n (or_introl eq_refl)).
    destruct n; try reflexivity. contradiction Hnone. reflexivity. }
  rewrite H0. reflexivity.
Qed.

Lemma one_standard_per_row_witness :
  List.length
    (filter (has_label L_StandardDocument)
       (nodes (db (snd (Ingest.ingest_rds_data Sample.env
                          {| db := Ingested.cad [Sample.file1] [Sample.note1]
                                     [Sample.steel] empty_graph;
                             trace := [] |})))))
  = 2.
Proof.
  apply (one_standard_per_row Sample.env
           {| db := Ingested.cad [Sample.file1] [Sample.note1] [Sample.steel]
                      empty_graph;
              trace := [] |}
           (snd (Ingest.ingest_rds_data Sample.env
                   {| db := Ingested.cad [Sample.file1] [Sample.note1]
                              [Sample.steel] empty_graph;
                      trace := [] |}))
           [Sample.std12; Sample.std1234]).
  - reflexivity.
  - vm_compute. constructor; [intros [H | []]; discriminate H|].
    constructor; [intros [] | constructor].
  - intros n Hin. vm_compute in Hin.
    repeat (destruct Hin as [<- | Hin]; [discriminate|]). destruct Hin.
  - vm_compute. reflexivity.
Defined.
